(** * Z-Kinetic Authority server: challenge, attestation, sessions, tenants

    A shallow embedding of the two request-handling programs of the
    repository:

    - [Attest]: the "secure mode" server (version 2.0.0) with the endpoints
      [/getChallenge], [/attest] and [/verify], the panic code and the
      session store;
    - [Server]: the production server (version 3.0) with the SQLite client
      table, the [validateApiKey] gate, [/api/v1/challenge],
      [/api/v1/verify] and the admin endpoints.

    Of the two earlier prototypes of the repository, which issue a bare
    nonce without a code, the one in the first 82 lines of [server.js] is
    modelled as [Legacy]; the one in [index.js] is not modelled.

    Every handler of the source runs synchronously from its first line to
    its response (the database driver is synchronous as well), so a handler
    is a function from the state before to the state after and the outcome
    it answers with.  The clock ([Date.now()], [new Date()]) and the random
    sources ([crypto.randomBytes], [Math.random]) are arguments.  JavaScript
    numbers that carry sensor scores are IEEE 754 binary64 values and are
    modelled by Rocq's primitive floats; timestamps and counters are
    integers. *)

From Stdlib Require Import ZArith Floats.
From stdpp Require Import gmap strings list fin_maps pretty.

#[local] Set Warnings "-inexact-float".
#[local] Open Scope Z_scope.

(** ** What both programs share *)

(** JSON values as the handlers put them in a response body. *)
Inductive JVal :=
| JBool (b : bool)
| JStr (s : string)
| JNum (n : Z)
| JNums (l : list Z)
| JStrs (l : list string).

(** [res.status(s).json({...})]: the keys are kept in the order written. *)
Record Response := Http { http_status : Z; http_body : list (string * JVal) }.

Definition fields (r : Response) : list string := (http_body r).*1.

Definition field (k : string) (r : Response) : option JVal :=
  snd <$> List.find (λ kv, String.eqb (fst kv) k) (http_body r).

Inductive RiskScore := LOW | MEDIUM | HIGH | CRITICAL.

Definition risk_str (r : RiskScore) : string :=
  match r with
  | LOW => "LOW" | MEDIUM => "MEDIUM" | HIGH => "HIGH" | CRITICAL => "CRITICAL"
  end.

(** [!x] on a request field that is either absent or a string. *)
Definition falsy (x : option string) : bool :=
  match x with
  | None => true
  | Some s => String.eqb s ""
  end.

(** [userResponse] as it arrives: absent or falsy ([None]), an array of
    integers, or some other truthy value that is not an array. *)
Inductive UserResponse :=
| RArray (l : list Z)
| ROther.

(** [biometricData]: each field is a number or is not ([None]).
    [/attest] refuses every score that is not a number alike (its [typeof]
    check), so there [None] is any such value, an absent one included.
    [/api/v1/verify] has no such check; its model takes scores that are
    numbers or absent, see [Server.VerifyReq]. *)
Record Biometric := {
  motion : option float;
  touch : option float;
  pattern : option float;
}.

(** [arr.join('')] on an array of integers. *)
Definition join (l : list Z) : string := String.concat "" (pretty <$> l).

(** [Array.isArray(userResponse) ? userResponse.join('') : ''] *)
Definition userCode_of (userResponse : UserResponse) : string :=
  match userResponse with
  | RArray l => join l
  | ROther => ""
  end.

Definition motionOK_of (motion : float) : bool := (0.15 <? motion)%float.
Definition touchOK_of (touch : float) : bool := (0.15 <? touch)%float.
Definition patternOK_of (pattern : float) : bool := (0.10 <? pattern)%float.

(** [[motionOK, touchOK, patternOK].filter(Boolean).length] *)
Definition sensorsActive_of (motionOK touchOK patternOK : bool) : nat :=
  length (List.filter id [motionOK; touchOK; patternOK]).

Definition avgScore_of (motion touch pattern : float) : float :=
  ((motion + touch + pattern) / 3)%float.

(** [avgScore > 0.7 ? 'LOW' : avgScore > 0.4 ? 'MEDIUM' : 'HIGH'] *)
Definition classify (avgScore : float) : RiskScore :=
  if (0.7 <? avgScore)%float then LOW
  else if (0.4 <? avgScore)%float then MEDIUM
  else HIGH.

(** The reasons of a failed verification, pushed in this order. *)
Definition reasons_of (codeMatch motionOK touchOK patternOK : bool) : list string :=
  (if codeMatch then [] else ["Wrong code"]) ++
  (if motionOK then [] else ["No motion"]) ++
  (if touchOK then [] else ["No touch"]) ++
  (if patternOK then [] else ["No pattern"]).

(** A server takes its requests one at a time: the requests in order, each
    paired with what it was answered, and the state at the end. *)
Fixpoint run_trace {S O R : Type} (step : O → S → S * R) (ops : list O) (st : S)
    : S * list (O * R) :=
  match ops with
  | [] => (st, [])
  | op :: ops =>
    let '(st1, out) := step op st in
    let '(st2, tr) := run_trace step ops st1 in
    (st2, (op, out) :: tr)
  end.

(** ** The secure-mode server: [/getChallenge], [/attest], [/verify] *)

Module Attest.

(** An entry of [activeChallenges]. *)
Record Challenge := {
  code : list Z;
  expiry : Z;
  used : bool;
  createdAt : Z;
}.

(** An entry of [sessions]. *)
Record Session := {
  s_deviceId : string;
  s_status : string;
  s_riskScore : RiskScore;
  s_biometricScores : float * float * float;
  s_expiry : Z;
  s_createdAt : Z;
  s_nonce : string;
}.

Record Stats := {
  totalChallenges : Z;
  totalAttestations : Z;
  successfulAttestations : Z;
  failedAttestations : Z;
  panicModeActivations : Z;
  totalVerifications : Z;
}.

Record State := {
  activeChallenges : gmap string Challenge;
  sessions : gmap string Session;
  stats : Stats;
}.

Definition init : State :=
  {| activeChallenges := ∅; sessions := ∅;
     stats := {| totalChallenges := 0; totalAttestations := 0;
                 successfulAttestations := 0; failedAttestations := 0;
                 panicModeActivations := 0; totalVerifications := 0 |} |}.

Definition with_challenges (m : gmap string Challenge) (st : State) : State :=
  {| activeChallenges := m; sessions := sessions st; stats := stats st |}.

Definition with_sessions (m : gmap string Session) (st : State) : State :=
  {| activeChallenges := activeChallenges st; sessions := m; stats := stats st |}.

Definition with_stats (f : Stats → Stats) (st : State) : State :=
  {| activeChallenges := activeChallenges st; sessions := sessions st;
     stats := f (stats st) |}.

(** [stats.totalChallenges++] and its siblings. *)
Definition totalChallenges_incr (s : Stats) : Stats :=
  {| totalChallenges := totalChallenges s + 1;
     totalAttestations := totalAttestations s;
     successfulAttestations := successfulAttestations s;
     failedAttestations := failedAttestations s;
     panicModeActivations := panicModeActivations s;
     totalVerifications := totalVerifications s |}.

Definition failedAttestations_incr (s : Stats) : Stats :=
  {| totalChallenges := totalChallenges s;
     totalAttestations := totalAttestations s;
     successfulAttestations := successfulAttestations s;
     failedAttestations := failedAttestations s + 1;
     panicModeActivations := panicModeActivations s;
     totalVerifications := totalVerifications s |}.

Definition panicModeActivations_incr (s : Stats) : Stats :=
  {| totalChallenges := totalChallenges s;
     totalAttestations := totalAttestations s;
     successfulAttestations := successfulAttestations s;
     failedAttestations := failedAttestations s;
     panicModeActivations := panicModeActivations s + 1;
     totalVerifications := totalVerifications s |}.

(** [stats.totalAttestations++; stats.successfulAttestations++] *)
Definition successfulAttestations_incr (s : Stats) : Stats :=
  {| totalChallenges := totalChallenges s;
     totalAttestations := totalAttestations s + 1;
     successfulAttestations := successfulAttestations s + 1;
     failedAttestations := failedAttestations s;
     panicModeActivations := panicModeActivations s;
     totalVerifications := totalVerifications s |}.

Definition totalVerifications_incr (s : Stats) : Stats :=
  {| totalChallenges := totalChallenges s;
     totalAttestations := totalAttestations s;
     successfulAttestations := successfulAttestations s;
     failedAttestations := failedAttestations s;
     panicModeActivations := panicModeActivations s;
     totalVerifications := totalVerifications s + 1 |}.

(** *** The cleanup timer *)

Definition cleanup (now : Z) (st : State) : State :=
  {| activeChallenges := filter (λ kv, ¬ (expiry kv.2 < now)) (activeChallenges st);
     sessions := filter (λ kv, ¬ (s_expiry kv.2 < now)) (sessions st);
     stats := stats st |}.

(** *** [POST /getChallenge] *)

Inductive ChallengeOutcome :=
| ChallengeIssued (nonce : string) (challengeCode : list Z) (expiry serverTime : Z).

(** [secretCode] is the array of the three [Math.floor(Math.random() * 10)]
    draws and [nonce] the hex string of [crypto.randomBytes(16)]. *)
Definition getChallenge (now : Z) (secretCode : list Z) (nonce : string)
    (st : State) : State * ChallengeOutcome :=
  let expiry := now + 60 * 1000 in
  let st := with_challenges
              (<[nonce := {| code := secretCode; expiry := expiry;
                             used := false; createdAt := now |}]>
                 (activeChallenges st)) st in
  let st := with_stats totalChallenges_incr st in
  (st, ChallengeIssued nonce secretCode expiry now).

(** *** [POST /attest] *)

Record AttestReq := {
  nonce : option string;
  deviceId : option string;
  userResponse : option UserResponse;
  biometricData : option Biometric;
}.

Inductive AttestOutcome :=
| MissingFields
| InvalidNonce
| ReplayDetected
| ChallengeExpired
| PanicApproved (panicToken : string)
| BadBiometricFormat
| Approved (validToken : string) (riskScore : RiskScore) (tokenExpiry : Z)
| Denied (reasons : list string).

(** Steps B to E of the handler: look the nonce up, refuse a used or an
    expired challenge, otherwise mark it used and delete it.  [Fresh] carries
    the handler's [challengeData] after [challengeData.used = true]. *)
Inductive Consumed :=
| NoEntry
| AlreadyUsed
| Expired
| Fresh (challengeData : Challenge).

Definition consume (now : Z) (nonce : string) (m : gmap string Challenge)
    : gmap string Challenge * Consumed :=
  match m !! nonce with
  | None => (m, NoEntry)
  | Some challengeData =>
    if used challengeData then (m, AlreadyUsed)
    else if expiry challengeData <? now then (delete nonce m, Expired)
    else
      let challengeData :=
        {| code := code challengeData; expiry := expiry challengeData;
           used := true; createdAt := createdAt challengeData |} in
      (delete nonce m, Fresh challengeData)
  end.

Definition attest (now : Z) (rnd : string) (req : AttestReq) (st : State)
    : State * AttestOutcome :=
  match nonce req, deviceId req, userResponse req, biometricData req with
  | Some nonce, Some deviceId, Some userResponse, Some biometricData =>
    if falsy (Some nonce) || falsy (Some deviceId) then (st, MissingFields) else
    match consume now nonce (activeChallenges st) with
    | (_, NoEntry) => (st, InvalidNonce)
    | (_, AlreadyUsed) => (with_stats failedAttestations_incr st, ReplayDetected)
    | (m, Expired) =>
      (with_stats failedAttestations_incr (with_challenges m st), ChallengeExpired)
    | (m, Fresh challengeData) =>
      let st := with_challenges m st in
      let serverCode := join (code challengeData) in
      let userCode := userCode_of userResponse in
      let panicCode := join (reverse (code challengeData)) in
      if String.eqb userCode panicCode then
        let panicToken := "DURESS_" +:+ rnd in
        (with_stats panicModeActivations_incr st, PanicApproved panicToken)
      else
        let codeMatch := String.eqb userCode serverCode in
        match motion biometricData, touch biometricData, pattern biometricData with
        | Some motion, Some touch, Some pattern =>
          let motionOK := motionOK_of motion in
          let touchOK := touchOK_of touch in
          let patternOK := patternOK_of pattern in
          let sensorsActive := sensorsActive_of motionOK touchOK patternOK in
          if codeMatch && bool_decide (2 ≤ sensorsActive)%nat then
            let validToken := "VALID_" +:+ rnd in
            let tokenExpiry := now + 5 * 60 * 1000 in
            let riskScore := classify (avgScore_of motion touch pattern) in
            let st := with_sessions
              (<[validToken := {| s_deviceId := deviceId;
                                  s_status := "VERIFIED";
                                  s_riskScore := riskScore;
                                  s_biometricScores := (motion, touch, pattern);
                                  s_expiry := tokenExpiry;
                                  s_createdAt := now;
                                  s_nonce := nonce |}]> (sessions st)) st in
            (with_stats successfulAttestations_incr st,
             Approved validToken riskScore tokenExpiry)
          else
            (with_stats failedAttestations_incr st,
             Denied (reasons_of codeMatch motionOK touchOK patternOK))
        | _, _, _ =>
          (with_stats failedAttestations_incr st, BadBiometricFormat)
        end
    end
  | _, _, _, _ => (st, MissingFields)
  end.

(** The response [/attest] sends for each outcome. *)
Definition attest_response (o : AttestOutcome) : Response :=
  match o with
  | MissingFields =>
      Http 400 [("success", JBool false); ("error", JStr "Missing required fields")]
  | InvalidNonce =>
      Http 403 [("success", JBool false); ("error", JStr "Invalid or expired nonce")]
  | ReplayDetected =>
      Http 403 [("success", JBool false);
                ("error", JStr "Nonce already used (replay attack detected)")]
  | ChallengeExpired =>
      Http 403 [("success", JBool false); ("error", JStr "Challenge expired")]
  | PanicApproved panicToken =>
      Http 200 [("success", JBool true); ("sessionToken", JStr panicToken);
                ("verdict", JStr "APPROVED_SILENT_ALARM");
                ("riskScore", JStr "CRITICAL")]
  | BadBiometricFormat =>
      Http 400 [("success", JBool false);
                ("error", JStr "Invalid biometric data format")]
  | Approved validToken riskScore tokenExpiry =>
      Http 200 [("success", JBool true); ("sessionToken", JStr validToken);
                ("verdict", JStr "APPROVED");
                ("riskScore", JStr (risk_str riskScore));
                ("expiry", JNum tokenExpiry)]
  | Denied reasons =>
      Http 401 [("success", JBool false); ("error", JStr "Verification failed");
                ("reasons", JStrs reasons)]
  end.

(** *** [POST /verify]: session validation *)

Inductive VerifyOutcome :=
| MissingToken
| SessionInvalid
| SessionExpired
| SessionValid (riskScore : RiskScore) (deviceId : string) (verifiedAt expiresAt : Z).

Definition verify (now : Z) (sessionToken : option string) (st : State)
    : State * VerifyOutcome :=
  if falsy sessionToken then (st, MissingToken) else
  match sessionToken with
  | None => (st, MissingToken)
  | Some sessionToken =>
    match sessions st !! sessionToken with
    | None => (with_stats totalVerifications_incr st, SessionInvalid)
    | Some session =>
      if s_expiry session <? now then
        (with_stats totalVerifications_incr
           (with_sessions (delete sessionToken (sessions st)) st),
         SessionExpired)
      else
        (with_stats totalVerifications_incr st,
         SessionValid (s_riskScore session) (s_deviceId session)
                      (s_createdAt session) (s_expiry session))
    end
  end.

Definition verify_response (o : VerifyOutcome) : Response :=
  match o with
  | MissingToken =>
      Http 400 [("valid", JBool false); ("error", JStr "Missing sessionToken")]
  | SessionInvalid =>
      Http 200 [("valid", JBool false); ("status", JStr "INVALID")]
  | SessionExpired =>
      Http 200 [("valid", JBool false); ("status", JStr "EXPIRED")]
  | SessionValid riskScore deviceId verifiedAt expiresAt =>
      Http 200 [("valid", JBool true); ("status", JStr "VALID");
                ("riskScore", JStr (risk_str riskScore));
                ("deviceId", JStr deviceId);
                ("verifiedAt", JNum verifiedAt);
                ("expiresAt", JNum expiresAt)]
  end.

(** *** The server as a transition system *)

Inductive Op :=
| OpGetChallenge (now : Z) (secretCode : list Z) (nonce : string)
| OpAttest (now : Z) (rnd : string) (req : AttestReq)
| OpVerify (now : Z) (sessionToken : option string)
| OpCleanup (now : Z).

Inductive Out :=
| OutGetChallenge (o : ChallengeOutcome)
| OutAttest (o : AttestOutcome)
| OutVerify (o : VerifyOutcome)
| OutCleanup.

Definition step (op : Op) (st : State) : State * Out :=
  match op with
  | OpGetChallenge now secretCode nonce =>
      prod_map id OutGetChallenge (getChallenge now secretCode nonce st)
  | OpAttest now rnd req => prod_map id OutAttest (attest now rnd req st)
  | OpVerify now sessionToken => prod_map id OutVerify (verify now sessionToken st)
  | OpCleanup now => (cleanup now st, OutCleanup)
  end.

Definition run : list Op → State → State * list (Op * Out) := run_trace step.

End Attest.

(** ** The production server: tenants, [/api/v1/challenge], [/api/v1/verify] *)

Module Server.

Inductive Status := active | blocked | expired.

Definition status_str (s : Status) : string :=
  match s with active => "active" | blocked => "blocked" | expired => "expired" end.

(** [status.toUpperCase()] *)
Definition status_upper (s : Status) : string :=
  match s with active => "ACTIVE" | blocked => "BLOCKED" | expired => "EXPIRED" end.

(** A row of the [clients] table, which is also the object
    [stmtGetClient.get] returns.  The numeric columns are modelled as
    integers, as the table declares them. *)
Record Client := {
  api_key : string;
  name : string;
  plan : string;
  status : Status;
  created_at : Z;
  expires_at : option Z;
  monthly_limit : Z;
  used_this_month : Z;
  last_reset_month : string;
  total_verifications : Z;
}.

(** An entry of [activeChallenges]. *)
Record Challenge := {
  code : list Z;
  expiry : Z;
  used : bool;
  createdAt : Z;
  apiKey : string;
  clientName : string;
}.

Record Stats := {
  totalChallenges : Z;
  totalVerifications : Z;
  successfulVerifications : Z;
  failedVerifications : Z;
  blockedRequests : Z;
}.

(** The [clients] table keyed by its primary key, the two in-memory maps
    and the counters.  Nothing in the program ever writes to [sessions];
    the cleanup timer reads the [expiry] of its entries, which is all an
    entry is here.  The [usage_logs] table is not part of the state: the
    handlers below append to it and never read it back.  Its one effect on
    them is its foreign key on [clients], which makes the [DELETE] of a
    client with log rows fail; whether it does is an input of
    [admin_delete]. *)
Record State := {
  clients : gmap string Client;
  activeChallenges : gmap string Challenge;
  sessions : gmap string Z;
  stats : Stats;
}.

Definition init : State :=
  {| clients := ∅; activeChallenges := ∅; sessions := ∅;
     stats := {| totalChallenges := 0; totalVerifications := 0;
                 successfulVerifications := 0; failedVerifications := 0;
                 blockedRequests := 0 |} |}.

Definition with_clients (db : gmap string Client) (st : State) : State :=
  {| clients := db; activeChallenges := activeChallenges st;
     sessions := sessions st; stats := stats st |}.

Definition with_challenges (m : gmap string Challenge) (st : State) : State :=
  {| clients := clients st; activeChallenges := m;
     sessions := sessions st; stats := stats st |}.

Definition with_stats (f : Stats → Stats) (st : State) : State :=
  {| clients := clients st; activeChallenges := activeChallenges st;
     sessions := sessions st; stats := f (stats st) |}.

Definition totalChallenges_incr (s : Stats) : Stats :=
  {| totalChallenges := totalChallenges s + 1;
     totalVerifications := totalVerifications s;
     successfulVerifications := successfulVerifications s;
     failedVerifications := failedVerifications s;
     blockedRequests := blockedRequests s |}.

Definition blockedRequests_incr (s : Stats) : Stats :=
  {| totalChallenges := totalChallenges s;
     totalVerifications := totalVerifications s;
     successfulVerifications := successfulVerifications s;
     failedVerifications := failedVerifications s;
     blockedRequests := blockedRequests s + 1 |}.

(** [stats.failedVerifications++] alone, as on a used or expired nonce. *)
Definition failedVerifications_incr (s : Stats) : Stats :=
  {| totalChallenges := totalChallenges s;
     totalVerifications := totalVerifications s;
     successfulVerifications := successfulVerifications s;
     failedVerifications := failedVerifications s + 1;
     blockedRequests := blockedRequests s |}.

(** [stats.totalVerifications++; stats.successfulVerifications++] *)
Definition verification_succeeded (s : Stats) : Stats :=
  {| totalChallenges := totalChallenges s;
     totalVerifications := totalVerifications s + 1;
     successfulVerifications := successfulVerifications s + 1;
     failedVerifications := failedVerifications s;
     blockedRequests := blockedRequests s |}.

(** [stats.totalVerifications++; stats.failedVerifications++] *)
Definition verification_failed (s : Stats) : Stats :=
  {| totalChallenges := totalChallenges s;
     totalVerifications := totalVerifications s + 1;
     successfulVerifications := successfulVerifications s;
     failedVerifications := failedVerifications s + 1;
     blockedRequests := blockedRequests s |}.

(** One reading of the clock: [Date.now()] and, of [new Date()], the local
    [getFullYear()] and [getMonth()].  A handler runs without interruption;
    all its readings are the same instant. *)
Record Clock := {
  now : Z;
  fullYear : Z;
  month : Z;
}.

(** [`${now.getFullYear()}-${now.getMonth()}`] *)
Definition thisMonth_of (clk : Clock) : string :=
  pretty (fullYear clk) +:+ "-" +:+ pretty (month clk).

(** [stmtUpdateClient.run(status, expires_at, used_this_month,
    last_reset_month, total_verifications, api_key)]: the [UPDATE] writes
    these five columns of the row with that key, if there is one. *)
Definition stmtUpdateClient (status' : Status) (expires_at' : option Z)
    (used_this_month' : Z) (last_reset_month' : string)
    (total_verifications' : Z) (key : string)
    (db : gmap string Client) : gmap string Client :=
  alter (λ c, {| api_key := api_key c; name := name c; plan := plan c;
                 status := status'; created_at := created_at c;
                 expires_at := expires_at'; monthly_limit := monthly_limit c;
                 used_this_month := used_this_month';
                 last_reset_month := last_reset_month';
                 total_verifications := total_verifications' |}) key db.

(** [checkMonthlyReset(client)] changes the object it is given and the
    table; both are returned. *)
Definition checkMonthlyReset (clk : Clock) (client : Client)
    (db : gmap string Client) : Client * gmap string Client :=
  let thisMonth := thisMonth_of clk in
  if bool_decide (last_reset_month client ≠ thisMonth) then
    let client :=
      {| api_key := api_key client; name := name client; plan := plan client;
         status := status client; created_at := created_at client;
         expires_at := expires_at client; monthly_limit := monthly_limit client;
         used_this_month := 0; last_reset_month := thisMonth;
         total_verifications := total_verifications client |} in
    (client,
     stmtUpdateClient (status client) (expires_at client) 0 thisMonth
                      (total_verifications client) (api_key client) db)
  else (client, db).

(** *** The [validateApiKey] middleware *)

Inductive GateDenial :=
| NoApiKey
| InvalidKey
| AccountNotActive (status : Status)
| SubscriptionExpired
| LimitReached (used limit : Z).

(** [client.expires_at && Date.now() > client.expires_at] *)
Definition subscription_over (clk : Clock) (client : Client) : bool :=
  match expires_at client with
  | None => false
  | Some e => negb (e =? 0) && (e <? now clk)
  end.

Definition validateApiKey (clk : Clock) (apiKey : option string) (st : State)
    : State * (GateDenial + Client) :=
  match apiKey with
  | None => (with_stats blockedRequests_incr st, inl NoApiKey)
  | Some apiKey =>
    if falsy (Some apiKey) then (with_stats blockedRequests_incr st, inl NoApiKey) else
    match clients st !! apiKey with
    | None => (with_stats blockedRequests_incr st, inl InvalidKey)
    | Some client =>
      match status client with
      | active =>
        if subscription_over clk client then
          let db := stmtUpdateClient expired (expires_at client)
                      (used_this_month client) (last_reset_month client)
                      (total_verifications client) (api_key client) (clients st) in
          (with_stats blockedRequests_incr (with_clients db st),
           inl SubscriptionExpired)
        else
          let '(client, db) := checkMonthlyReset clk client (clients st) in
          let st := with_clients db st in
          if (0 <? monthly_limit client) &&
             (monthly_limit client <=? used_this_month client) then
            (with_stats blockedRequests_incr st,
             inl (LimitReached (used_this_month client) (monthly_limit client)))
          else (st, inr client)
      | s => (with_stats blockedRequests_incr st, inl (AccountNotActive s))
      end
    end
  end.

Definition gate_response (d : GateDenial) : Response :=
  match d with
  | NoApiKey =>
      Http 401 [("success", JBool false); ("error", JStr "Missing API Key");
                ("code", JStr "NO_API_KEY")]
  | InvalidKey =>
      Http 401 [("success", JBool false); ("error", JStr "Invalid API Key");
                ("code", JStr "INVALID_KEY")]
  | AccountNotActive s =>
      Http 403 [("success", JBool false);
                ("error", JStr ("Account " +:+ status_str s));
                ("code", JStr ("ACCOUNT_" +:+ status_upper s))]
  | SubscriptionExpired =>
      Http 403 [("success", JBool false); ("error", JStr "Subscription expired");
                ("code", JStr "SUBSCRIPTION_EXPIRED")]
  | LimitReached used limit =>
      Http 429 [("success", JBool false); ("error", JStr "Monthly limit reached");
                ("code", JStr "LIMIT_REACHED"); ("used", JNum used);
                ("limit", JNum limit)]
  end.

(** *** The cleanup timer *)

Definition cleanup (now : Z) (st : State) : State :=
  {| clients := clients st;
     activeChallenges := filter (λ kv, ¬ (expiry kv.2 < now)) (activeChallenges st);
     sessions := filter (λ kv, ¬ (kv.2 < now)) (sessions st);
     stats := stats st |}.

(** *** [POST /api/v1/challenge] *)

Inductive ChallengeOutcome :=
| ChallengeIssued (nonce : string) (challengeCode : list Z) (expiry : Z).

Definition challenge_handler (clk : Clock) (secretCode : list Z) (nonce : string)
    (client : Client) (st : State) : State * ChallengeOutcome :=
  let expiry := now clk + 60000 in
  let st := with_challenges
              (<[nonce := {| code := secretCode; expiry := expiry; used := false;
                             createdAt := now clk; apiKey := api_key client;
                             clientName := name client |}]>
                 (activeChallenges st)) st in
  (with_stats totalChallenges_incr st, ChallengeIssued nonce secretCode expiry).

Definition api_challenge (clk : Clock) (secretCode : list Z) (nonce : string)
    (apiKey : option string) (st : State)
    : State * (GateDenial + ChallengeOutcome) :=
  match validateApiKey clk apiKey st with
  | (st, inl d) => (st, inl d)
  | (st, inr client) =>
      prod_map id inr (challenge_handler clk secretCode nonce client st)
  end.

(** *** [POST /api/v1/verify] *)

(** The body of a request.  The handler is modelled for sensor scores that
    are numbers or absent: here a score [None] is an absent field
    ([undefined]).  A score that is present and not a number (a string, a
    boolean, [null]) is compared and added by JavaScript's coercions, which
    this model does not describe; such requests are outside it. *)
Record VerifyReq := {
  nonce : option string;
  userResponse : option UserResponse;
  biometricData : option Biometric;
}.

Inductive VerifyOutcome :=
| MissingFields
| InvalidNonce
| ApiKeyMismatch
| NonceUsed
| ChallengeExpired
| Approved (riskScore : RiskScore) (clientName : string)
| Denied (reasons : list string).

(** The nonce checks of the handler: look the nonce up, compare its owner
    with the caller, refuse a used or an expired challenge, otherwise mark
    it used and delete it.  [Fresh] carries the handler's [challengeData]
    after [challengeData.used = true]. *)
Inductive Consumed :=
| NoEntry
| KeyMismatch
| AlreadyUsed
| Expired
| Fresh (challengeData : Challenge).

Definition consume (now : Z) (caller : string) (nonce : string)
    (m : gmap string Challenge) : gmap string Challenge * Consumed :=
  match m !! nonce with
  | None => (m, NoEntry)
  | Some challengeData =>
    if negb (String.eqb (apiKey challengeData) caller) then (m, KeyMismatch)
    else if used challengeData then (m, AlreadyUsed)
    else if expiry challengeData <? now then (delete nonce m, Expired)
    else
      let challengeData :=
        {| code := code challengeData; expiry := expiry challengeData;
           used := true; createdAt := createdAt challengeData;
           apiKey := apiKey challengeData;
           clientName := clientName challengeData |} in
      (delete nonce m, Fresh challengeData)
  end.

(** [const { motion = 0, touch = 0, pattern = 0 } = biometricData || {}]:
    the default stands in for an absent score ([undefined]) only. *)
Definition or_zero (x : option float) : float := default 0%float x.

Definition verify_handler (clk : Clock) (client : Client) (req : VerifyReq)
    (st : State) : State * VerifyOutcome :=
  match nonce req, userResponse req, biometricData req with
  | Some nonce, Some userResponse, Some biometricData =>
    if falsy (Some nonce) then (st, MissingFields) else
    match consume (now clk) (api_key client) nonce (activeChallenges st) with
    | (_, NoEntry) => (st, InvalidNonce)
    | (_, KeyMismatch) => (st, ApiKeyMismatch)
    | (_, AlreadyUsed) => (with_stats failedVerifications_incr st, NonceUsed)
    | (m, Expired) =>
      (with_stats failedVerifications_incr (with_challenges m st), ChallengeExpired)
    | (m, Fresh challengeData) =>
      let st := with_challenges m st in
      let serverCode := join (code challengeData) in
      let userCode := userCode_of userResponse in
      let motion := or_zero (motion biometricData) in
      let touch := or_zero (touch biometricData) in
      let pattern := or_zero (pattern biometricData) in
      let motionOK := motionOK_of motion in
      let touchOK := touchOK_of touch in
      let patternOK := patternOK_of pattern in
      let sensorsActive := sensorsActive_of motionOK touchOK patternOK in
      let codeMatch := String.eqb userCode serverCode in
      if codeMatch && bool_decide (1 ≤ sensorsActive)%nat then
        let avgScore := avgScore_of motion touch pattern in
        let riskScore := classify avgScore in
        let '(client, db) := checkMonthlyReset clk client (clients st) in
        let db := stmtUpdateClient (status client) (expires_at client)
                    (used_this_month client + 1) (last_reset_month client)
                    (total_verifications client + 1) (api_key client) db in
        (with_stats verification_succeeded (with_clients db st),
         Approved riskScore (name client))
      else
        (with_stats verification_failed st,
         Denied (reasons_of codeMatch motionOK touchOK patternOK))
    end
  | _, _, _ => (st, MissingFields)
  end.

Definition verify_response (o : VerifyOutcome) : Response :=
  match o with
  | MissingFields =>
      Http 400 [("success", JBool false); ("error", JStr "Missing fields")]
  | InvalidNonce =>
      Http 403 [("success", JBool false); ("error", JStr "Invalid or expired nonce")]
  | ApiKeyMismatch =>
      Http 403 [("success", JBool false); ("error", JStr "API key mismatch")]
  | NonceUsed =>
      Http 403 [("success", JBool false); ("error", JStr "Nonce already used")]
  | ChallengeExpired =>
      Http 403 [("success", JBool false); ("error", JStr "Challenge expired")]
  | Approved riskScore clientName =>
      Http 200 [("success", JBool true); ("allowed", JBool true);
                ("riskScore", JStr (risk_str riskScore));
                ("clientName", JStr clientName)]
  | Denied reasons =>
      Http 401 [("success", JBool false); ("allowed", JBool false);
                ("error", JStr "Verification failed"); ("reasons", JStrs reasons)]
  end.

(** The route: the gate, then the handler with the client the gate set. *)
Definition api_verify (clk : Clock) (apiKey : option string) (req : VerifyReq)
    (st : State) : State * (GateDenial + VerifyOutcome) :=
  match validateApiKey clk apiKey st with
  | (st, inl d) => (st, inl d)
  | (st, inr client) => prod_map id inr (verify_handler clk client req st)
  end.

(** *** The admin endpoints *)

(** [password !== ADMIN_PASSWORD] *)
Definition validateAdmin (ADMIN_PASSWORD : string) (password : option string) : bool :=
  bool_decide (password = Some ADMIN_PASSWORD).

(** The [PLANS] table of [/admin/clients/add]. *)
Definition PLANS (plan : option string) : option Z :=
  match plan with
  | Some p =>
    if String.eqb p "starter" then Some 5000
    else if String.eqb p "business" then Some 20000
    else if String.eqb p "enterprise" then Some 100000
    else if String.eqb p "unlimited" then Some 0
    else None
  | None => None
  end.

(** The plan names for which [PLANS[plan]] is not a number although the
    table has no such entry: the members every object inherits from
    [Object.prototype]. *)
Definition PLANS_inherited (plan : option string) : bool :=
  match plan with
  | Some p =>
    bool_decide (p ∈ ["constructor"; "hasOwnProperty"; "isPrototypeOf";
                      "propertyIsEnumerable"; "toLocaleString"; "toString";
                      "valueOf"; "__proto__"; "__defineGetter__";
                      "__defineSetter__"; "__lookupGetter__";
                      "__lookupSetter__"])
  | None => false
  end.

(** [!a] on a number that may be absent. *)
Definition falsy_num (a : option Z) : bool :=
  match a with
  | Some x => x =? 0
  | None => true
  end.

(** [a || b] on numbers that may be absent: zero is falsy. *)
Definition or_else (a : option Z) (b : Z) : Z :=
  match a with
  | Some x => if x =? 0 then b else x
  | None => b
  end.

(** [Math.ceil(x / 86400000)] for an integer [x]. *)
Definition ceil_days (x : Z) : Z := - ((- x) / 86400000).

Inductive AdminOutcome :=
| InvalidAdminPassword
| NameRequired
| InsertFailed
| ClientNotFound
| DeleteFailed
| ClientCreated (apiKey plan : string) (monthlyLimit : Z)
| ClientBlocked (name : string)
| ClientUnblocked (name : string)
| ClientRenewed (name : string) (days newExpiry daysLeft : Z)
| ClientDeleted (name : string)
| ClientList (total : nat).

(** [rnd] is the hex string of [crypto.randomBytes(16)] in [generateApiKey];
    [monthlyLimit] and [durationDays] are integers when they are present.
    The [INSERT] fails on a key that exists, and it fails when
    [monthlyLimit || PLANS[plan] || 5000] is a member inherited from
    [Object.prototype], which cannot be bound to the statement; the handler
    then answers 500 and nothing is stored. *)
Definition admin_add (ADMIN_PASSWORD : string) (password : option string)
    (clk : Clock) (rnd : string) (name : option string) (plan : option string)
    (monthlyLimit durationDays : option Z) (st : State) : State * AdminOutcome :=
  if negb (validateAdmin ADMIN_PASSWORD password) then (st, InvalidAdminPassword) else
  match name with
  | None => (st, NameRequired)
  | Some name =>
    if falsy (Some name) then (st, NameRequired) else
    let apiKey := "zk_live_" +:+ rnd in
    let days := or_else durationDays 30 in
    let thisMonth := thisMonth_of clk in
    let plan' := if falsy plan then "starter" else default "starter" plan in
    let limit := or_else monthlyLimit (or_else (PLANS plan) 5000) in
    if falsy_num monthlyLimit && PLANS_inherited plan
    then (st, InsertFailed) else
    match clients st !! apiKey with
    | Some _ => (st, InsertFailed)
    | None =>
      (with_clients
         (<[apiKey := {| api_key := apiKey; name := name; plan := plan';
                         status := active; created_at := now clk;
                         expires_at := Some (now clk + days * 86400000);
                         monthly_limit := limit; used_this_month := 0;
                         last_reset_month := thisMonth;
                         total_verifications := 0 |}]> (clients st)) st,
       ClientCreated apiKey plan' limit)
    end
  end.

Definition admin_block (ADMIN_PASSWORD : string) (password : option string)
    (apiKey : string) (st : State) : State * AdminOutcome :=
  if negb (validateAdmin ADMIN_PASSWORD password) then (st, InvalidAdminPassword) else
  match clients st !! apiKey with
  | None => (st, ClientNotFound)
  | Some client =>
    (with_clients
       (stmtUpdateClient blocked (expires_at client) (used_this_month client)
          (last_reset_month client) (total_verifications client) apiKey
          (clients st)) st,
     ClientBlocked (name client))
  end.

Definition admin_unblock (ADMIN_PASSWORD : string) (password : option string)
    (apiKey : string) (st : State) : State * AdminOutcome :=
  if negb (validateAdmin ADMIN_PASSWORD password) then (st, InvalidAdminPassword) else
  match clients st !! apiKey with
  | None => (st, ClientNotFound)
  | Some client =>
    (with_clients
       (stmtUpdateClient active (expires_at client) (used_this_month client)
          (last_reset_month client) (total_verifications client) apiKey
          (clients st)) st,
     ClientUnblocked (name client))
  end.

(** In [client.expires_at > now] and in the sum a [null] counts as 0. *)
Definition admin_renew (ADMIN_PASSWORD : string) (password : option string)
    (clk : Clock) (apiKey : string) (durationDays : option Z) (st : State)
    : State * AdminOutcome :=
  if negb (validateAdmin ADMIN_PASSWORD password) then (st, InvalidAdminPassword) else
  match clients st !! apiKey with
  | None => (st, ClientNotFound)
  | Some client =>
    let days := or_else durationDays 30 in
    let now := now clk in
    let baseTime := if now <? default 0 (expires_at client)
                    then default 0 (expires_at client) else now in
    let newExpiry := baseTime + days * 86400000 in
    (with_clients
       (stmtUpdateClient active (Some newExpiry) (used_this_month client)
          (last_reset_month client) (total_verifications client) apiKey
          (clients st)) st,
     ClientRenewed (name client) days newExpiry (ceil_days (newExpiry - now)))
  end.

(** [logged] tells whether [usage_logs] holds a row with this [api_key].
    If it does, the foreign key refuses the [DELETE], [stmtDeleteClient.run]
    throws, the request is answered 500 and the row stays. *)
Definition admin_delete (ADMIN_PASSWORD : string) (password : option string)
    (apiKey : string) (logged : bool) (st : State) : State * AdminOutcome :=
  if negb (validateAdmin ADMIN_PASSWORD password) then (st, InvalidAdminPassword) else
  match clients st !! apiKey with
  | None => (st, ClientNotFound)
  | Some client =>
    if logged then (st, DeleteFailed)
    else (with_clients (delete apiKey (clients st)) st, ClientDeleted (name client))
  end.

(** [GET /admin/clients]: [checkMonthlyReset] on every row that was read.
    The listing itself is not part of the outcome here, only its length. *)
Definition admin_list (ADMIN_PASSWORD : string) (password : option string)
    (clk : Clock) (st : State) : State * AdminOutcome :=
  if negb (validateAdmin ADMIN_PASSWORD password) then (st, InvalidAdminPassword) else
  (with_clients
     (map_fold (λ _ c db, (checkMonthlyReset clk c db).2) (clients st) (clients st))
     st,
   ClientList (size (clients st))).

(** *** The server as a transition system *)

Inductive Op :=
| OpChallenge (clk : Clock) (secretCode : list Z) (nonce : string)
    (apiKey : option string)
| OpVerify (clk : Clock) (apiKey : option string) (req : VerifyReq)
| OpCleanup (now : Z)
| OpAdminAdd (password : option string) (clk : Clock) (rnd : string)
    (name plan : option string) (monthlyLimit durationDays : option Z)
| OpAdminBlock (password : option string) (apiKey : string)
| OpAdminUnblock (password : option string) (apiKey : string)
| OpAdminRenew (password : option string) (clk : Clock) (apiKey : string)
    (durationDays : option Z)
| OpAdminDelete (password : option string) (apiKey : string) (logged : bool)
| OpAdminList (password : option string) (clk : Clock).

Inductive Out :=
| OutChallenge (o : GateDenial + ChallengeOutcome)
| OutVerify (o : GateDenial + VerifyOutcome)
| OutCleanup
| OutAdmin (o : AdminOutcome).

Definition step (ADMIN_PASSWORD : string) (op : Op) (st : State) : State * Out :=
  match op with
  | OpChallenge clk secretCode nonce apiKey =>
      prod_map id OutChallenge (api_challenge clk secretCode nonce apiKey st)
  | OpVerify clk apiKey req => prod_map id OutVerify (api_verify clk apiKey req st)
  | OpCleanup now => (cleanup now st, OutCleanup)
  | OpAdminAdd password clk rnd name plan monthlyLimit durationDays =>
      prod_map id OutAdmin
        (admin_add ADMIN_PASSWORD password clk rnd name plan monthlyLimit
           durationDays st)
  | OpAdminBlock password apiKey =>
      prod_map id OutAdmin (admin_block ADMIN_PASSWORD password apiKey st)
  | OpAdminUnblock password apiKey =>
      prod_map id OutAdmin (admin_unblock ADMIN_PASSWORD password apiKey st)
  | OpAdminRenew password clk apiKey durationDays =>
      prod_map id OutAdmin
        (admin_renew ADMIN_PASSWORD password clk apiKey durationDays st)
  | OpAdminDelete password apiKey logged =>
      prod_map id OutAdmin (admin_delete ADMIN_PASSWORD password apiKey logged st)
  | OpAdminList password clk =>
      prod_map id OutAdmin (admin_list ADMIN_PASSWORD password clk st)
  end.

Definition run (ADMIN_PASSWORD : string)
    : list Op → State → State * list (Op * Out) :=
  run_trace (step ADMIN_PASSWORD).

End Server.

(** ** Vocabulary of the statements *)

(** The challenge [c] is stored under the nonce [n] and a call at [now]
    passes the nonce, used and expiry checks of [/attest]. *)
Definition attest_passes_checks (now : Z) (n : string) (c : Attest.Challenge)
    (st : Attest.State) : Prop :=
  n ≠ "" ∧ Attest.activeChallenges st !! n = Some c ∧
  Attest.used c = false ∧ now ≤ Attest.expiry c.


(** A complete [/attest] request. *)
Definition attest_req (n d : string) (r : UserResponse) (b : Biometric)
    : Attest.AttestReq :=
  {| Attest.nonce := Some n; Attest.deviceId := Some d;
     Attest.userResponse := Some r; Attest.biometricData := Some b |}.

(** A complete [/api/v1/verify] request. *)
Definition verify_req (n : string) (r : UserResponse) (b : Biometric)
    : Server.VerifyReq :=
  {| Server.nonce := Some n; Server.userResponse := Some r;
     Server.biometricData := Some b |}.

(** Three sensor scores that are numbers. *)
Definition scores (m t p : float) : Biometric :=
  {| motion := Some m; touch := Some t; pattern := Some p |}.

(** *** One-time use: the events of a run *)

(** The request presents the nonce [n] to [/attest]. *)
Definition attest_presents (n : string) (op : Attest.Op) : bool :=
  match op with
  | Attest.OpAttest _ _ req => bool_decide (Attest.nonce req = Some n)
  | _ => false
  end.

(** The request is a [/getChallenge] that draws the nonce [n]. *)
Definition attest_issues (n : string) (op : Attest.Op) : Prop :=
  match op with
  | Attest.OpGetChallenge _ _ n' => n' = n
  | _ => False
  end.

(** The outcomes of [/attest] behind the nonce checks: the call marked the
    challenge used and deleted it. *)
Definition attest_consuming (o : Attest.AttestOutcome) : bool :=
  match o with
  | Attest.PanicApproved _ | Attest.BadBiometricFormat
  | Attest.Approved _ _ _ | Attest.Denied _ => true
  | _ => false
  end.

(** Approved, on either path, or a normal Denied. *)
Definition attest_decided (o : Attest.AttestOutcome) : bool :=
  match o with
  | Attest.PanicApproved _ | Attest.Approved _ _ _ | Attest.Denied _ => true
  | _ => false
  end.

Definition attest_consumes (n : string) (ev : Attest.Op * Attest.Out) : bool :=
  attest_presents n ev.1 &&
  match ev.2 with Attest.OutAttest o => attest_consuming o | _ => false end.

Definition attest_decides (n : string) (ev : Attest.Op * Attest.Out) : bool :=
  attest_presents n ev.1 &&
  match ev.2 with Attest.OutAttest o => attest_decided o | _ => false end.

(** What a call that presents [n] is answered once the entry is gone. *)
Definition attest_late (n : string) (ev : Attest.Op * Attest.Out) : Prop :=
  attest_presents n ev.1 = true →
  ev.2 = Attest.OutAttest Attest.InvalidNonce ∨
  ev.2 = Attest.OutAttest Attest.MissingFields.

(** The same for [/api/v1/verify]. *)
Definition server_presents (n : string) (op : Server.Op) : bool :=
  match op with
  | Server.OpVerify _ _ req => bool_decide (Server.nonce req = Some n)
  | _ => false
  end.

Definition server_issues (n : string) (op : Server.Op) : Prop :=
  match op with
  | Server.OpChallenge _ _ n' _ => n' = n
  | _ => False
  end.

(** Approved or Denied: the outcomes behind the nonce checks, which are
    also the decided ones. *)
Definition server_consuming (o : Server.GateDenial + Server.VerifyOutcome) : bool :=
  match o with
  | inr (Server.Approved _ _) | inr (Server.Denied _) => true
  | _ => false
  end.

Definition server_consumes (n : string) (ev : Server.Op * Server.Out) : bool :=
  server_presents n ev.1 &&
  match ev.2 with Server.OutVerify o => server_consuming o | _ => false end.

Definition server_late (n : string) (ev : Server.Op * Server.Out) : Prop :=
  server_presents n ev.1 = true →
  (∃ d, ev.2 = Server.OutVerify (inl d)) ∨
  ev.2 = Server.OutVerify (inr Server.InvalidNonce) ∨
  ev.2 = Server.OutVerify (inr Server.MissingFields).

(** *** The cleanup timer firing at the given times, in order *)

Definition attest_swept (times : list Z) (st : Attest.State) : Attest.State :=
  foldl (λ st t, Attest.cleanup t st) st times.

Definition server_swept (times : list Z) (st : Server.State) : Server.State :=
  foldl (λ st t, Server.cleanup t st) st times.

(** *** The client table *)

(** Every row is stored under its own [api_key], the primary key. *)
Definition db_keyed (db : gmap string Server.Client) : Prop :=
  ∀ k c, db !! k = Some c → Server.api_key c = k.

(** No tenant with a positive monthly limit has used more than the limit. *)
Definition quota_kept (db : gmap string Server.Client) : Prop :=
  ∀ k c, db !! k = Some c → 0 < Server.monthly_limit c →
    Server.used_this_month c ≤ Server.monthly_limit c.

Definition registry_ok (st : Server.State) : Prop :=
  db_keyed (Server.clients st) ∧ quota_kept (Server.clients st).

(** [used_this_month] as the monthly reset check leaves it. *)
Definition used_after_reset (clk : Server.Clock) (c : Server.Client) : Z :=
  if bool_decide (Server.last_reset_month c = Server.thisMonth_of clk)
  then Server.used_this_month c else 0.

(** An approval of [/attest], on either path. *)
Definition attest_approval (o : Attest.Out) : bool :=
  match o with
  | Attest.OutAttest (Attest.Approved _ _ _)
  | Attest.OutAttest (Attest.PanicApproved _) => true
  | _ => false
  end.

(** ** Concrete states and requests *)

(** The secure-mode server after one [/getChallenge] at time 0 that drew
    the code 4-1-9 and the nonce [a1b2]. *)
Definition attest_c419 : Attest.Challenge :=
  {| Attest.code := [4; 1; 9]; Attest.expiry := 60000; Attest.used := false;
     Attest.createdAt := 0 |}.

Definition attest_st419 : Attest.State :=
  (Attest.getChallenge 0 [4; 1; 9] "a1b2" Attest.init).1.

(** The same with the palindrome 3-1-3. *)
Definition attest_c313 : Attest.Challenge :=
  {| Attest.code := [3; 1; 3]; Attest.expiry := 60000; Attest.used := false;
     Attest.createdAt := 0 |}.

Definition attest_st313 : Attest.State :=
  (Attest.getChallenge 0 [3; 1; 3] "a1b2" Attest.init).1.

(** The production server on 2 November 2026 ([getMonth()] is 10), after the
    admin created the tenant Acme on the starter plan and Acme asked for a
    challenge that drew the code 4-1-9 and the nonce [a1b2]. *)
Definition clk0 : Server.Clock :=
  {| Server.now := 0; Server.fullYear := 2026; Server.month := 10 |}.

Definition clk_at (t : Z) : Server.Clock :=
  {| Server.now := t; Server.fullYear := 2026; Server.month := 10 |}.

Definition acme : Server.Client :=
  {| Server.api_key := "zk_live_00ff"; Server.name := "Acme";
     Server.plan := "starter"; Server.status := Server.active;
     Server.created_at := 0; Server.expires_at := Some (30 * 86400000);
     Server.monthly_limit := 5000; Server.used_this_month := 0;
     Server.last_reset_month := "2026-10"; Server.total_verifications := 0 |}.


Definition server_st419 : Server.State :=
  (Server.run "pw"
     [Server.OpAdminAdd (Some "pw") clk0 "00ff" (Some "Acme") (Some "starter")
        None None;
      Server.OpChallenge clk0 [4; 1; 9] "a1b2" (Some "zk_live_00ff")]
     Server.init).1.

(** Acme with its 5000 verifications of November 2026 used up. *)
Definition acme_full : Server.Client :=
  {| Server.api_key := "zk_live_00ff"; Server.name := "Acme";
     Server.plan := "starter"; Server.status := Server.active;
     Server.created_at := 0; Server.expires_at := Some (30 * 86400000);
     Server.monthly_limit := 5000; Server.used_this_month := 5000;
     Server.last_reset_month := "2026-10"; Server.total_verifications := 5000 |}.

Definition server_full : Server.State :=
  Server.with_clients {[ "zk_live_00ff" := acme_full ]} Server.init.

(** The right answer to the challenge 4-1-9 on the production server. *)
Definition verify_right : Server.VerifyReq :=
  verify_req "a1b2" (RArray [4; 1; 9]) (scores 0.9 0.9 0.9).

(** The right answer to the challenge 4-1-9, with lively sensors. *)
Definition attest_right : Attest.AttestReq :=
  attest_req "a1b2" "phone" (RArray [4; 1; 9]) (scores 0.9 0.9 0.9).

(** ** The first server of [server.js]: a bare nonce *)

(** The program of the first 82 lines of [server.js]: [/getChallenge] issues
    a nonce without a code and [/attest] accepts any non-empty
    [biometricData].  The nonce is marked used in place and stays in the
    store until the cleanup timer removes it. *)
Module Legacy.

(** An entry of [nonces]. *)
Record Nonce := {
  expiry : Z;
  used : bool;
}.

(** An entry of [sessions]; [deviceId] is stored as it came, present or not. *)
Record Session := {
  s_deviceId : option string;
  s_expiry : Z;
}.

Record State := {
  nonces : gmap string Nonce;
  sessions : gmap string Session;
}.

Definition init : State := {| nonces := ∅; sessions := ∅ |}.

(** The timer that fires every five minutes. *)
Definition cleanup (now : Z) (st : State) : State :=
  {| nonces := filter (λ kv, ¬ (expiry kv.2 < now)) (nonces st);
     sessions := filter (λ kv, ¬ (s_expiry kv.2 < now)) (sessions st) |}.

(** [nonce] is the hex string of [crypto.randomBytes(16)]; the answer is
    [{ success: true, nonce }]. *)
Definition getChallenge (now : Z) (nonce : string) (st : State) : State * string :=
  ({| nonces := <[nonce := {| expiry := now + 60000; used := false |}]> (nonces st);
      sessions := sessions st |},
   nonce).

(** A truthy [biometricData] as the handler looks at it: with a [length]
    (an array, a non-empty string) or without one (an object, a number). *)
Inductive Payload :=
| Sized (length : nat)
| Unsized.

(** The body of an [/attest] request; an absent or falsy [biometricData] is
    [None]. *)
Record AttestReq := {
  nonce : option string;
  deviceId : option string;
  biometricData : option Payload;
}.

(** 400 [Invalid Nonce], 403 [Replay Attack!], 403 [No Data], or 200 with
    the session token and the constant [riskScore: 0.1]. *)
Inductive AttestOutcome :=
| InvalidNonce
| ReplayAttack
| NoData
| Attested (sessionToken : string).

(** [rnd] is the hex string of [crypto.randomBytes(32)]. *)
Definition attest (now : Z) (rnd : string) (req : AttestReq) (st : State)
    : State * AttestOutcome :=
  match nonce req with
  | None => (st, InvalidNonce)
  | Some nonce =>
    match nonces st !! nonce with
    | None => (st, InvalidNonce)
    | Some nonceData =>
      if used nonceData then (st, ReplayAttack)
      else
        let st :=
          {| nonces := <[nonce := {| expiry := expiry nonceData; used := true |}]>
                         (nonces st);
             sessions := sessions st |} in
        match biometricData req with
        | None | Some (Sized 0) => (st, NoData)
        | Some _ =>
          let token := rnd in
          ({| nonces := nonces st;
              sessions := <[token := {| s_deviceId := deviceId req;
                                        s_expiry := now + 5 * 60 * 1000 |}]>
                            (sessions st) |},
           Attested token)
        end
    end
  end.

Inductive Op :=
| OpGetChallenge (now : Z) (nonce : string)
| OpAttest (now : Z) (rnd : string) (req : AttestReq)
| OpCleanup (now : Z).

Inductive Out :=
| OutGetChallenge (nonce : string)
| OutAttest (o : AttestOutcome)
| OutCleanup.

Definition step (op : Op) (st : State) : State * Out :=
  match op with
  | OpGetChallenge now nonce => prod_map id OutGetChallenge (getChallenge now nonce st)
  | OpAttest now rnd req => prod_map id OutAttest (attest now rnd req st)
  | OpCleanup now => (cleanup now st, OutCleanup)
  end.

Definition run : list Op → State → State * list (Op * Out) := run_trace step.

End Legacy.

(** ** [GET /admin/stats] of the production server *)

(** The numbers of the report; [uptime] is in seconds. *)
Record StatsReport := {
  r_uptime : Z;
  r_total : nat;
  r_active : nat;
  r_expired : nat;
  r_blocked : nat;
  r_verifications : Z;
  r_successful : Z;
  r_failed : Z;
  r_blockedRequests : Z;
  r_usageThisMonth : Z;
}.

Definition is_active (c : Server.Client) : bool :=
  match Server.status c with Server.active => true | _ => false end.

Definition is_blocked (c : Server.Client) : bool :=
  match Server.status c with Server.blocked => true | _ => false end.

(** [c.status === 'expired' || (c.expires_at && c.expires_at < now)] *)
Definition counts_expired (now : Z) (c : Server.Client) : bool :=
  match Server.status c with Server.expired => true | _ => false end ||
  match Server.expires_at c with
  | Some e => negb (e =? 0) && (e <? now)
  | None => false
  end.

(** [serverStartTime] is the [Date.now()] of the start of the process; the
    rows are those of [SELECT * FROM clients]. *)
Definition admin_stats (ADMIN_PASSWORD : string) (password : option string)
    (serverStartTime now : Z) (st : Server.State) : option StatsReport :=
  if negb (Server.validateAdmin ADMIN_PASSWORD password) then None else
  let clients := (map_to_list (Server.clients st)).*2 in
  Some {| r_uptime := (now - serverStartTime) / 1000;
          r_total := length clients;
          r_active := length (List.filter is_active clients);
          r_expired := length (List.filter (counts_expired now) clients);
          r_blocked := length (List.filter is_blocked clients);
          r_verifications := Server.totalVerifications (Server.stats st);
          r_successful := Server.successfulVerifications (Server.stats st);
          r_failed := Server.failedVerifications (Server.stats st);
          r_blockedRequests := Server.blockedRequests (Server.stats st);
          r_usageThisMonth :=
            foldl (λ sum c, sum + Server.used_this_month c) 0 clients |}.

(** ** Vocabulary of the further statements *)

(** Every stored challenge of the secure-mode server is unused and expires
    60 s after it was created. *)
Definition attest_store_ok (st : Attest.State) : Prop :=
  ∀ n c, Attest.activeChallenges st !! n = Some c →
    Attest.used c = false ∧ Attest.expiry c = Attest.createdAt c + 60000.

(** Every stored session was minted by a normal approval. *)
Definition attest_sessions_ok (st : Attest.State) : Prop :=
  ∀ tok s, Attest.sessions st !! tok = Some s →
    (∃ rnd, tok = "VALID_" +:+ rnd) ∧ Attest.s_status s = "VERIFIED" ∧
    Attest.s_riskScore s ≠ CRITICAL ∧
    Attest.s_expiry s = Attest.s_createdAt s + 300000.

Definition server_store_ok (st : Server.State) : Prop :=
  ∀ n c, Server.activeChallenges st !! n = Some c →
    Server.used c = false ∧ Server.expiry c = Server.createdAt c + 60000.

(** The [/attest] outcome in an event of a run, if it is one. *)
Definition attest_answer (ev : Attest.Op * Attest.Out) : option Attest.AttestOutcome :=
  match ev.2 with Attest.OutAttest o => Some o | _ => None end.

Definition server_answer (ev : Server.Op * Server.Out)
    : option (Server.GateDenial + Server.VerifyOutcome) :=
  match ev.2 with Server.OutVerify o => Some o | _ => None end.

(** An admin request of the production server. *)
Definition is_admin_op (op : Server.Op) : bool :=
  match op with
  | Server.OpChallenge _ _ _ _ | Server.OpVerify _ _ _ | Server.OpCleanup _ => false
  | _ => true
  end.

(** The password an admin request came with. *)
Definition admin_password (op : Server.Op) : option string :=
  match op with
  | Server.OpAdminAdd pw _ _ _ _ _ _ | Server.OpAdminBlock pw _
  | Server.OpAdminUnblock pw _ | Server.OpAdminRenew pw _ _ _
  | Server.OpAdminDelete pw _ _ | Server.OpAdminList pw _ => pw
  | _ => None
  end.

(** The row a monthly reset check at [clk] leaves of [c]. *)
Definition reset_row (clk : Server.Clock) (c : Server.Client) : Server.Client :=
  (Server.checkMonthlyReset clk c ∅).1.

(** The first server: the nonce is absent or already used. *)
Definition legacy_spent (n : string) (st : Legacy.State) : Prop :=
  match Legacy.nonces st !! n with
  | None => True
  | Some d => Legacy.used d = true
  end.

Definition legacy_presents (n : string) (op : Legacy.Op) : bool :=
  match op with
  | Legacy.OpAttest _ _ req => bool_decide (Legacy.nonce req = Some n)
  | _ => false
  end.

Definition legacy_issues (n : string) (op : Legacy.Op) : Prop :=
  match op with
  | Legacy.OpGetChallenge _ n' => n' = n
  | _ => False
  end.

(** The call got past the nonce checks: it marked the nonce used. *)
Definition legacy_consumes (n : string) (ev : Legacy.Op * Legacy.Out) : bool :=
  legacy_presents n ev.1 &&
  match ev.2 with
  | Legacy.OutAttest (Legacy.Attested _) | Legacy.OutAttest Legacy.NoData => true
  | _ => false
  end.

Definition legacy_late (n : string) (ev : Legacy.Op * Legacy.Out) : Prop :=
  legacy_presents n ev.1 = true →
  ev.2 = Legacy.OutAttest Legacy.ReplayAttack ∨
  ev.2 = Legacy.OutAttest Legacy.InvalidNonce.

(** The columns of a client row that no [UPDATE] of the program writes. *)
Definition same_identity (c c' : Server.Client) : Prop :=
  Server.api_key c' = Server.api_key c ∧ Server.name c' = Server.name c ∧
  Server.plan c' = Server.plan c ∧ Server.created_at c' = Server.created_at c ∧
  Server.monthly_limit c' = Server.monthly_limit c.

(** The same keys, and under each key a row with the same identity. *)
Definition db_updated (db db' : gmap string Server.Client) : Prop :=
  ∀ k, option_Forall2 same_identity (db !! k) (db' !! k).

(** The number of events of a run that satisfy [f]. *)
Definition count_events {A} (f : A → bool) (tr : list A) : Z :=
  Z.of_nat (length (List.filter f tr)).

Definition attest_ev_issued (ev : Attest.Op * Attest.Out) : bool :=
  match ev.2 with Attest.OutGetChallenge _ => true | _ => false end.

Definition attest_ev_panic (ev : Attest.Op * Attest.Out) : bool :=
  match ev.2 with Attest.OutAttest (Attest.PanicApproved _) => true | _ => false end.

Definition attest_ev_approved (ev : Attest.Op * Attest.Out) : bool :=
  match ev.2 with Attest.OutAttest (Attest.Approved _ _ _) => true | _ => false end.

(** Replay, expired, bad format or denied. *)
Definition attest_ev_failed (ev : Attest.Op * Attest.Out) : bool :=
  match ev.2 with
  | Attest.OutAttest Attest.ReplayDetected
  | Attest.OutAttest Attest.ChallengeExpired
  | Attest.OutAttest Attest.BadBiometricFormat
  | Attest.OutAttest (Attest.Denied _) => true
  | _ => false
  end.

(** A session validation that was given a token. *)
Definition attest_ev_validated (ev : Attest.Op * Attest.Out) : bool :=
  match ev.2 with
  | Attest.OutVerify Attest.MissingToken => false
  | Attest.OutVerify _ => true
  | _ => false
  end.

Definition server_ev_issued (ev : Server.Op * Server.Out) : bool :=
  match ev.2 with Server.OutChallenge (inr _) => true | _ => false end.

(** A request the API-key gate turned away. *)
Definition server_ev_blocked (ev : Server.Op * Server.Out) : bool :=
  match ev.2 with
  | Server.OutChallenge (inl _) | Server.OutVerify (inl _) => true
  | _ => false
  end.

Definition server_ev_approved (ev : Server.Op * Server.Out) : bool :=
  match ev.2 with Server.OutVerify (inr (Server.Approved _ _)) => true | _ => false end.

Definition server_ev_denied (ev : Server.Op * Server.Out) : bool :=
  match ev.2 with Server.OutVerify (inr (Server.Denied _)) => true | _ => false end.

(** Refused for a used or an expired nonce. *)
Definition server_ev_stale (ev : Server.Op * Server.Out) : bool :=
  match ev.2 with
  | Server.OutVerify (inr Server.NonceUsed)
  | Server.OutVerify (inr Server.ChallengeExpired) => true
  | _ => false
  end.

(** The same keys, and under each key a row with the same
    [total_verifications]. *)
Definition same_totals (db db' : gmap string Server.Client) : Prop :=
  ∀ k, option_Forall2
         (λ c c', Server.total_verifications c' = Server.total_verifications c)
         (db !! k) (db' !! k).

(** An approved verification of the tenant with the key [k]. *)
Definition server_billed (k : string) (ev : Server.Op * Server.Out) : bool :=
  match ev with
  | (Server.OpVerify _ key _, Server.OutVerify (inr (Server.Approved _ _))) =>
      bool_decide (key = Some k)
  | _ => false
  end.

(** A delete request for the key [k] that was carried out. *)
Definition server_deleted (k : string) (ev : Server.Op * Server.Out) : Prop :=
  match ev with
  | (Server.OpAdminDelete _ k' _, Server.OutAdmin (Server.ClientDeleted _)) => k' = k
  | _ => False
  end.

(** * Properties *)

(** ** Comparisons of binary64 numbers *)






(** ** The risk classes *)




Lemma classify_not_CRITICAL avg : classify avg ≠ CRITICAL.
Proof. unfold classify. by repeat case_match. Qed.

(** ** Counting the active sensors *)


Lemma sensorsActive_ge_2 a b c :
  bool_decide (2 ≤ sensorsActive_of a b c)%nat = (a && b) || (a && c) || (b && c).
Proof. by destruct a, b, c. Qed.

(** ** The nonce checks *)

Lemma attest_consume_fresh now n (m : gmap string Attest.Challenge) c :
  m !! n = Some c → Attest.used c = false → now ≤ Attest.expiry c →
  Attest.consume now n m =
    (delete n m,
     Attest.Fresh {| Attest.code := Attest.code c; Attest.expiry := Attest.expiry c;
                     Attest.used := true; Attest.createdAt := Attest.createdAt c |}).
Proof.
  intros Hm Hu He. unfold Attest.consume. rewrite Hm, Hu.
  by destruct (Z.ltb_spec (Attest.expiry c) now); [lia|].
Qed.


Lemma falsy_Some s : falsy (Some s) = false ↔ s ≠ "".
Proof.
  simpl. destruct (String.eqb_spec s ""); split; congruence.
Qed.

(** ** The monthly reset *)

Lemma checkMonthlyReset_client clk c db :
  let c' := (Server.checkMonthlyReset clk c db).1 in
  Server.api_key c' = Server.api_key c ∧ Server.name c' = Server.name c ∧
  Server.plan c' = Server.plan c ∧ Server.status c' = Server.status c ∧
  Server.created_at c' = Server.created_at c ∧
  Server.expires_at c' = Server.expires_at c ∧
  Server.monthly_limit c' = Server.monthly_limit c ∧
  Server.total_verifications c' = Server.total_verifications c ∧
  Server.last_reset_month c' = Server.thisMonth_of clk ∧
  Server.used_this_month c' =
    (if bool_decide (Server.last_reset_month c = Server.thisMonth_of clk)
     then Server.used_this_month c else 0).
Proof.
  unfold Server.checkMonthlyReset.
  destruct (decide (Server.last_reset_month c = Server.thisMonth_of clk)) as [E|E].
  - rewrite (bool_decide_eq_false_2 _) by (by intros ?).
    rewrite (bool_decide_eq_true_2 _ E). by simpl.
  - rewrite (bool_decide_eq_true_2 _ E), (bool_decide_eq_false_2 _ E). by simpl.
Qed.

(** ** The decision of the normal path *)


Lemma attest_normal now rnd n d r m t p c st :
  attest_passes_checks now n c st → d ≠ "" →
  userCode_of r ≠ join (reverse (Attest.code c)) →
  let codeMatch := String.eqb (userCode_of r) (join (Attest.code c)) in
  let two := (motionOK_of m && touchOK_of t) || (motionOK_of m && patternOK_of p)
             || (touchOK_of t && patternOK_of p) in
  (Attest.attest now rnd (attest_req n d r (scores m t p)) st).2 =
    if codeMatch && two
    then Attest.Approved ("VALID_" +:+ rnd) (classify (avgScore_of m t p))
                         (now + 5 * 60 * 1000)
    else Attest.Denied
           (reasons_of codeMatch (motionOK_of m) (touchOK_of t) (patternOK_of p)).
Proof.
  intros (Hn & Hc & Hu & He) Hd Hp. unfold Attest.attest, attest_req.
  cbn [Attest.nonce Attest.deviceId Attest.userResponse Attest.biometricData].
  apply falsy_Some in Hn, Hd. rewrite Hn, Hd.
  rewrite (attest_consume_fresh _ _ _ _ Hc Hu He).
  cbn [Attest.code orb]. apply String.eqb_neq in Hp. rewrite Hp.
  cbn [scores motion touch pattern]. rewrite sensorsActive_ge_2.
  by destruct (_ && _).
Qed.


Lemma attest_approved_risk now rnd req st tok risk e :
  (Attest.attest now rnd req st).2 = Attest.Approved tok risk e →
  ∃ b m t p, Attest.biometricData req = Some b ∧
    motion b = Some m ∧ touch b = Some t ∧ pattern b = Some p ∧
    risk = classify ((m + t + p) / 3)%float.
Proof.
  unfold Attest.attest. intros H.
  destruct (Attest.nonce req), (Attest.deviceId req), (Attest.userResponse req),
    (Attest.biometricData req) as [b|]; try done.
  destruct (_ || _); [done|].
  destruct (Attest.consume _ _ _) as [m' []]; try done.
  destruct (String.eqb _ _); [done|].
  destruct (motion b) as [m|] eqn:Hm, (touch b) as [t|] eqn:Ht,
    (pattern b) as [p|] eqn:Hp; try done.
  exists b, m, t, p. repeat split; try done.
  destruct (_ && _); [|done]. simpl in H. by injection H as _ <- _.
Qed.

Lemma half_is_MEDIUM : classify (avgScore_of 0.5 0.5 0.5) = MEDIUM.
Proof. reflexivity. Qed.










(** ** The panic path of [/attest] *)

Lemma attest_after_checks now rnd n d r b c st :
  attest_passes_checks now n c st → d ≠ "" →
  let st1 := Attest.with_challenges (delete n (Attest.activeChallenges st)) st in
  (userCode_of r = join (reverse (Attest.code c)) →
   Attest.attest now rnd (attest_req n d r b) st =
     (Attest.with_stats Attest.panicModeActivations_incr st1,
      Attest.PanicApproved ("DURESS_" +:+ rnd))) ∧
  (userCode_of r ≠ join (reverse (Attest.code c)) →
   ∃ st2, Attest.attest now rnd (attest_req n d r b) st = st2 ∧
     Attest.activeChallenges st2.1 = delete n (Attest.activeChallenges st) ∧
     Attest.panicModeActivations (Attest.stats st2.1) =
       Attest.panicModeActivations (Attest.stats st) ∧
     ((st2.2 = Attest.BadBiometricFormat ∧ Attest.sessions st2.1 = Attest.sessions st) ∨
      (∃ reasons, st2.2 = Attest.Denied reasons ∧
                  Attest.sessions st2.1 = Attest.sessions st) ∨
      (∃ risk s, st2.2 = Attest.Approved ("VALID_" +:+ rnd) risk (now + 5 * 60 * 1000) ∧
         risk ≠ CRITICAL ∧
         Attest.sessions st2.1 = <["VALID_" +:+ rnd := s]> (Attest.sessions st) ∧
         Attest.s_riskScore s = risk ∧ Attest.s_deviceId s = d ∧
         Attest.s_createdAt s = now ∧ Attest.s_expiry s = now + 5 * 60 * 1000 ∧
         Attest.s_nonce s = n ∧
         Attest.successfulAttestations (Attest.stats st2.1) =
           Attest.successfulAttestations (Attest.stats st) + 1))).
Proof.
  intros (Hn & Hc & Hu & He) Hd. unfold Attest.attest, attest_req.
  cbn [Attest.nonce Attest.deviceId Attest.userResponse Attest.biometricData].
  apply falsy_Some in Hn, Hd. rewrite Hn, Hd.
  rewrite (attest_consume_fresh _ _ _ _ Hc Hu He).
  cbn [Attest.code orb]. split.
  - intros Hp%String.eqb_eq. by rewrite Hp.
  - intros Hp%String.eqb_neq. rewrite Hp. eexists. split; [done|].
    destruct (motion b) as [m|], (touch b) as [t|], (pattern b) as [p|];
      try (by repeat split; try done; left).
    destruct (_ && _).
    + repeat split; try done. right. right. eexists _, _.
      repeat split; try done. apply classify_not_CRITICAL.
    + repeat split; try done. right. left. by eexists.
Qed.

(** C2. For every [/attest] call that passes the nonce, used and expiry
    checks (this server has no owner check), the result is the panic
    approval exactly when the submitted digits joined equal the stored
    digits reversed and joined.  The panic approval has the risk score
    CRITICAL and a token with the prefix [DURESS_], is given whatever
    [biometricData] holds, and is recorded in [panicModeActivations] and in
    none of the attestation counters; a normal approval has the prefix
    [VALID_], a risk score other than CRITICAL, and is recorded in
    [successfulAttestations] and not in [panicModeActivations].  There is
    no special case for palindromes: the stored code itself, when it reads
    the same reversed, takes the panic path. *)
Theorem panic_path now rnd n d r b c st :
  attest_passes_checks now n c st → d ≠ "" →
  let res := Attest.attest now rnd (attest_req n d r b) st in
  let reversed := userCode_of r = join (reverse (Attest.code c)) in
  ((∃ tok, res.2 = Attest.PanicApproved tok) ↔ reversed) ∧
  (reversed →
     res.2 = Attest.PanicApproved ("DURESS_" +:+ rnd) ∧
     field "riskScore" (Attest.attest_response res.2) = Some (JStr "CRITICAL") ∧
     Attest.panicModeActivations (Attest.stats res.1) =
       Attest.panicModeActivations (Attest.stats st) + 1 ∧
     Attest.totalAttestations (Attest.stats res.1) =
       Attest.totalAttestations (Attest.stats st) ∧
     Attest.successfulAttestations (Attest.stats res.1) =
       Attest.successfulAttestations (Attest.stats st) ∧
     Attest.failedAttestations (Attest.stats res.1) =
       Attest.failedAttestations (Attest.stats st)) ∧
  (∀ tok risk e, res.2 = Attest.Approved tok risk e →
     tok = "VALID_" +:+ rnd ∧ risk ≠ CRITICAL ∧
     Attest.panicModeActivations (Attest.stats res.1) =
       Attest.panicModeActivations (Attest.stats st) ∧
     Attest.successfulAttestations (Attest.stats res.1) =
       Attest.successfulAttestations (Attest.stats st) + 1) ∧
  (reverse (Attest.code c) = Attest.code c →
   userCode_of r = join (Attest.code c) →
   res.2 = Attest.PanicApproved ("DURESS_" +:+ rnd)).
Proof.
  intros Hc Hd res reversed.
  destruct (attest_after_checks now rnd n d r b c st Hc Hd) as [Hp Hnp].
  fold res in Hp, Hnp. cbv zeta in Hp, Hnp.
  assert (Hpanic : reversed → res.2 = Attest.PanicApproved ("DURESS_" +:+ rnd)).
  { intros H. by rewrite (Hp H). }
  split; [|split; [|split]].
  - split; [|by eauto]. intros [tok Htok].
    destruct (decide (userCode_of r = join (reverse (Attest.code c)))) as [|Hne];
      [done|].
    destruct (Hnp Hne) as (st2 & <- & _ & _ & [[H _]|[(? & H & _)|(? & ? & H & _)]]);
      congruence.
  - intros H. rewrite (Hp H). by repeat split.
  - intros tok risk e Hap.
    destruct (decide (userCode_of r = join (reverse (Attest.code c)))) as [Hr|Hne].
    { rewrite (Hpanic Hr) in Hap. discriminate. }
    destruct (Hnp Hne) as (st2 & <- & _ & Hpm & [[H _]|[(? & H & _)|(risk' & s & H & Hr & Hrest)]]);
      try congruence.
    rewrite H in Hap. injection Hap as <- <- <-.
    repeat split; try done. apply Hrest.
  - intros Hpal Hr. apply Hpanic. unfold reversed. by rewrite Hpal.
Qed.

Lemma panic_path_witness :
  (Attest.attest 1000 "c0de"
     (attest_req "a1b2" "phone" (RArray [3; 1; 3]) (scores 0.9 0.9 0.9))
     attest_st313).2 = Attest.PanicApproved "DURESS_c0de".
Proof.
  refine (proj2 (proj2 (proj2
    (panic_path 1000 "c0de" "a1b2" "phone" (RArray [3; 1; 3]) (scores 0.9 0.9 0.9)
       attest_c313 attest_st313 _ _))) _ _).
  - repeat split; try done.
  - discriminate.
  - reflexivity.
  - reflexivity.
Defined.

(** ** The two approval responses of [/attest] *)

Lemma attest_panic_token now rnd req st tok :
  (Attest.attest now rnd req st).2 = Attest.PanicApproved tok →
  tok = "DURESS_" +:+ rnd.
Proof.
  unfold Attest.attest. intros H.
  destruct (Attest.nonce req), (Attest.deviceId req), (Attest.userResponse req),
    (Attest.biometricData req) as [b|]; try done.
  destruct (_ || _); [done|].
  destruct (Attest.consume _ _ _) as [m' []]; try done.
  destruct (String.eqb _ _); [by injection H|].
  destruct (motion b), (touch b), (pattern b); try done.
  by destruct (_ && _).
Qed.

Lemma attest_valid_token now rnd req st tok risk e :
  (Attest.attest now rnd req st).2 = Attest.Approved tok risk e →
  tok = "VALID_" +:+ rnd ∧ e = now + 5 * 60 * 1000.
Proof.
  unfold Attest.attest. intros H.
  destruct (Attest.nonce req), (Attest.deviceId req), (Attest.userResponse req),
    (Attest.biometricData req) as [b|]; try done.
  destruct (_ || _); [done|].
  destruct (Attest.consume _ _ _) as [m' []]; try done.
  destruct (String.eqb _ _); [done|].
  destruct (motion b), (touch b), (pattern b); try done.
  destruct (_ && _); [|done]. simpl in H. by injection H as <- _ <-.
Qed.

(** C3, as amended.  The response of a panic approval has the fields
    [success], [sessionToken], [verdict] and [riskScore]; the response of a
    normal approval has these four and [expiry].  Both have status 200 and
    [success: true].  They differ in [riskScore] (CRITICAL against LOW,
    MEDIUM or HIGH), in [verdict] ([APPROVED_SILENT_ALARM] against
    [APPROVED]) and in the prefix of the token ([DURESS_] against
    [VALID_]). *)
Theorem approval_responses now rnd req st now' rnd' req' st' ptok tok risk e :
  (Attest.attest now rnd req st).2 = Attest.PanicApproved ptok →
  (Attest.attest now' rnd' req' st').2 = Attest.Approved tok risk e →
  let P := Attest.attest_response (Attest.PanicApproved ptok) in
  let N := Attest.attest_response (Attest.Approved tok risk e) in
  http_status P = 200 ∧ http_status N = 200 ∧
  fields P = ["success"; "sessionToken"; "verdict"; "riskScore"] ∧
  fields N = fields P ++ ["expiry"] ∧
  field "success" P = Some (JBool true) ∧ field "success" N = Some (JBool true) ∧
  field "riskScore" P = Some (JStr "CRITICAL") ∧
  field "riskScore" N = Some (JStr (risk_str risk)) ∧
  (risk = LOW ∨ risk = MEDIUM ∨ risk = HIGH) ∧
  field "verdict" P = Some (JStr "APPROVED_SILENT_ALARM") ∧
  field "verdict" N = Some (JStr "APPROVED") ∧
  field "sessionToken" P = Some (JStr ("DURESS_" +:+ rnd)) ∧
  field "sessionToken" N = Some (JStr ("VALID_" +:+ rnd')) ∧
  field "expiry" P = None ∧ field "expiry" N = Some (JNum (now' + 5 * 60 * 1000)).
Proof.
  intros HP HN.
  apply attest_panic_token in HP as ->.
  destruct (attest_approved_risk _ _ _ _ _ _ _ HN) as (? & ? & ? & ? & _ & _ & _ & _ & Hr).
  apply attest_valid_token in HN as [-> ->].
  repeat split; try done.
  rewrite Hr. unfold classify. repeat case_match; auto.
Qed.

Lemma approval_responses_witness :
  fields (Attest.attest_response (Attest.PanicApproved "DURESS_c0de")) =
    ["success"; "sessionToken"; "verdict"; "riskScore"] ∧
  fields (Attest.attest_response (Attest.Approved "VALID_c0de" LOW 301000)) =
    ["success"; "sessionToken"; "verdict"; "riskScore"; "expiry"].
Proof.
  pose proof (approval_responses
    1000 "c0de" (attest_req "a1b2" "phone" (RArray [9; 1; 4]) (scores 0.9 0.9 0.9))
    attest_st419
    1000 "c0de" (attest_req "a1b2" "phone" (RArray [4; 1; 9]) (scores 0.9 0.9 0.9))
    attest_st419
    "DURESS_c0de" "VALID_c0de" LOW 301000 eq_refl eq_refl)
    as (_ & _ & HP & HN & _).
  split; [exact HP | exact HN].
Defined.

(** C3 as stated fails: for the code 4-1-9 the reversed response is answered
    with four fields and the right response with five, and the two
    responses differ in [verdict] as well. *)
Lemma panic_response_distinguishable :
  let P := Attest.attest_response
    (Attest.attest 1000 "c0de"
       (attest_req "a1b2" "phone" (RArray [9; 1; 4]) (scores 0.9 0.9 0.9))
       attest_st419).2 in
  let N := Attest.attest_response
    (Attest.attest 1000 "c0de"
       (attest_req "a1b2" "phone" (RArray [4; 1; 9]) (scores 0.9 0.9 0.9))
       attest_st419).2 in
  fields P = ["success"; "sessionToken"; "verdict"; "riskScore"] ∧
  fields N = ["success"; "sessionToken"; "verdict"; "riskScore"; "expiry"] ∧
  fields P ≠ fields N ∧
  field "verdict" P = Some (JStr "APPROVED_SILENT_ALARM") ∧
  field "verdict" N = Some (JStr "APPROVED").
Proof. repeat split; try done. Qed.

(** ** Session validation *)



(** ** Renewing a tenant *)



(** ** One-time use *)

(** A transition system in which a key can be [gone] from the state: while
    it is gone no request consumes it, requests that do not issue it
    ([quiet]) leave it gone, and a request that consumes it leaves it gone. *)
Section OneTime.
Context {S O R : Type} (step : O → S → S * R).
Variables (gone : S → Prop) (quiet : O → Prop).
Variables (consumes : O * R → bool) (late : O * R → Prop).
Hypothesis gone_stays : ∀ op st, quiet op → gone st → gone (step op st).1.
Hypothesis gone_late : ∀ op st,
  gone st → late (op, (step op st).2) ∧ consumes (op, (step op st).2) = false.
Hypothesis consumes_gone : ∀ op st,
  consumes (op, (step op st).2) = true → gone (step op st).1.

Lemma run_trace_cons op ops st :
  run_trace step (op :: ops) st =
    ((run_trace step ops (step op st).1).1,
     (op, (step op st).2) :: (run_trace step ops (step op st).1).2).
Proof.
  simpl. destruct (step op st) as [st1 out]. simpl.
  by destruct (run_trace step ops st1).
Qed.

Lemma after_gone ops st :
  Forall quiet ops → gone st →
  Forall late (run_trace step ops st).2 ∧
  List.filter consumes (run_trace step ops st).2 = [].
Proof.
  intros Hq. revert st. induction Hq as [|op ops Hop _ IH]; intros st Hg.
  { by split. }
  rewrite run_trace_cons. cbn [snd List.filter].
  destruct (gone_late op st Hg) as [Hl Hc]. rewrite Hc.
  destruct (IH _ (gone_stays op st Hop Hg)) as [IH1 IH2].
  split; [by constructor|done].
Qed.

Lemma at_most_once ops st :
  Forall quiet ops →
  (length (List.filter consumes (run_trace step ops st).2) ≤ 1)%nat ∧
  ∀ pre ev post, (run_trace step ops st).2 = pre ++ ev :: post →
    consumes ev = true → Forall late post.
Proof.
  intros Hq. revert st. induction Hq as [|op ops Hop Hq IH]; intros st.
  { split; [simpl; lia|]. intros [|??] ?? [=]. }
  rewrite run_trace_cons. cbn [snd List.filter].
  destruct (consumes (op, (step op st).2)) eqn:Hc.
  - apply consumes_gone in Hc as Hg.
    destruct (after_gone ops _ Hq Hg) as [Hl Hn]. split.
    + rewrite Hn. simpl. lia.
    + intros [|ev' pre] ev post Heq Hev.
      * by injection Heq as <- <-.
      * injection Heq as _ Heq. rewrite Heq in Hl.
        apply Forall_app in Hl as [_ Hl]. by inversion Hl.
  - destruct (IH (step op st).1) as [IH1 IH2]. split; [done|].
    intros [|ev' pre] ev post Heq Hev.
    + injection Heq as <- <-. congruence.
    + injection Heq as _ Heq. by eapply IH2.
Qed.
End OneTime.

(** What one [/attest] call does with the nonce it presents. *)
Lemma attest_cases now rnd req st :
  let res := Attest.attest now rnd req st in
  (res.2 = Attest.MissingFields ∧ res.1 = st) ∨
  ∃ n, Attest.nonce req = Some n ∧
    ((res.2 = Attest.InvalidNonce ∧ res.1 = st ∧
      Attest.activeChallenges st !! n = None) ∨
     (res.2 = Attest.ReplayDetected ∧
      Attest.activeChallenges res.1 = Attest.activeChallenges st ∧
      ∃ c, Attest.activeChallenges st !! n = Some c ∧ Attest.used c = true) ∨
     (res.2 = Attest.ChallengeExpired ∧
      Attest.activeChallenges res.1 = delete n (Attest.activeChallenges st) ∧
      ∃ c, Attest.activeChallenges st !! n = Some c ∧ Attest.used c = false ∧
           Attest.expiry c < now) ∨
     (attest_consuming res.2 = true ∧
      Attest.activeChallenges res.1 = delete n (Attest.activeChallenges st) ∧
      ∃ c, Attest.activeChallenges st !! n = Some c ∧ Attest.used c = false ∧
           now ≤ Attest.expiry c ∧
           Attest.consume now n (Attest.activeChallenges st) =
             (delete n (Attest.activeChallenges st),
              Attest.Fresh {| Attest.code := Attest.code c;
                              Attest.expiry := Attest.expiry c;
                              Attest.used := true;
                              Attest.createdAt := Attest.createdAt c |}))).
Proof.
  unfold Attest.attest.
  destruct (Attest.nonce req) as [n|], (Attest.deviceId req) as [d|],
    (Attest.userResponse req) as [r|], (Attest.biometricData req) as [b|];
    try (by left).
  destruct (_ || _); [by left|]. right. exists n. split; [done|].
  unfold Attest.consume.
  destruct (Attest.activeChallenges st !! n) as [c|] eqn:Hc; [|by left].
  destruct (Attest.used c) eqn:Hu; [right; left; by eauto|].
  destruct (Z.ltb_spec (Attest.expiry c) now) as [He|He];
    [right; right; left; by eauto 10|].
  right. right. right. cbn [Attest.code].
  assert (∀ o st', attest_consuming o = true →
    Attest.activeChallenges st' = delete n (Attest.activeChallenges st) →
    attest_consuming (st', o).2 = true ∧
    Attest.activeChallenges (st', o).1 = delete n (Attest.activeChallenges st) ∧
      ∃ c0, Some c = Some c0 ∧ Attest.used c0 = false ∧ now ≤ Attest.expiry c0 ∧
       (delete n (Attest.activeChallenges st),
        Attest.Fresh {| Attest.code := Attest.code c;
                        Attest.expiry := Attest.expiry c; Attest.used := true;
                        Attest.createdAt := Attest.createdAt c |}) =
       (delete n (Attest.activeChallenges st),
        Attest.Fresh {| Attest.code := Attest.code c0;
                        Attest.expiry := Attest.expiry c0; Attest.used := true;
                        Attest.createdAt := Attest.createdAt c0 |})) as Hfin.
  { intros o st' Ho Hst'. repeat split; try done. by exists c. }
  destruct (String.eqb _ _); [by apply Hfin|].
  destruct (motion b), (touch b), (pattern b); try (by apply Hfin).
  destruct (_ && _); by apply Hfin.
Qed.

Lemma attest_gone_stays n op st :
  ¬ attest_issues n op → Attest.activeChallenges st !! n = None →
  Attest.activeChallenges (Attest.step op st).1 !! n = None.
Proof.
  intros Hq Hg. destruct op as [now code n'|now rnd req|now tok|now]; simpl.
  - rewrite lookup_insert_ne; [done|]. intros ->. by apply Hq.
  - destruct (attest_cases now rnd req st) as
      [[_ ->]|(k & _ & [(_ & -> & _)|[(_ & -> & _)|[(_ & -> & _)|(_ & -> & _)]]])];
      try done.
    + destruct (decide (k = n)) as [->|]; [apply lookup_delete_eq|].
      by rewrite lookup_delete_ne.
    + destruct (decide (k = n)) as [->|]; [apply lookup_delete_eq|].
      by rewrite lookup_delete_ne.
  - unfold Attest.verify. by repeat case_match.
  - apply map_lookup_filter_None_2. by left.
Qed.

Lemma attest_gone_late n op st :
  Attest.activeChallenges st !! n = None →
  attest_late n (op, (Attest.step op st).2) ∧
  attest_consumes n (op, (Attest.step op st).2) = false.
Proof.
  intros Hg. unfold attest_late, attest_consumes.
  destruct op as [now code n'|now rnd req|now tok|now]; simpl; try done.
  destruct (bool_decide_reflect (Attest.nonce req = Some n)) as [Hn|]; [|done].
  destruct (attest_cases now rnd req st) as
    [[-> _]|(k & Hk & [(-> & _)|[(_ & _ & c & Hc & _)|[(_ & _ & c & Hc & _)|
       (_ & _ & c & Hc & _)]]])]; try (split; by eauto);
    rewrite Hn in Hk; injection Hk as <-; congruence.
Qed.

Lemma attest_consumes_gone n op st :
  attest_consumes n (op, (Attest.step op st).2) = true →
  Attest.activeChallenges (Attest.step op st).1 !! n = None.
Proof.
  unfold attest_consumes.
  destruct op as [now code n'|now rnd req|now tok|now]; simpl; try done.
  destruct (bool_decide_reflect (Attest.nonce req = Some n)) as [Hn|]; [|done].
  simpl.
  destruct (attest_cases now rnd req st) as
    [[-> _]|(k & Hk & [(-> & _)|[(-> & _)|[(-> & _)|(_ & -> & _)]]])];
    try done.
  rewrite Hn in Hk. injection Hk as <-. intros _. apply lookup_delete_eq.
Qed.

Lemma filter_length_le {A} (f g : A → bool) (l : list A) :
  (∀ x, f x = true → g x = true) →
  (length (List.filter f l) ≤ length (List.filter g l))%nat.
Proof.
  intros Hfg. induction l as [|x l IH]; simpl; [lia|].
  destruct (f x) eqn:Hf.
  - rewrite (Hfg _ Hf). simpl. lia.
  - destruct (g x); simpl; lia.
Qed.

Lemma attest_one_time n ops st :
  Forall (λ op, ¬ attest_issues n op) ops →
  let tr := (Attest.run ops st).2 in
  (length (List.filter (attest_consumes n) tr) ≤ 1)%nat ∧
  (length (List.filter (attest_decides n) tr) ≤ 1)%nat ∧
  ∀ pre ev post, tr = pre ++ ev :: post →
    attest_consumes n ev = true → Forall (attest_late n) post.
Proof.
  intros Hq tr.
  destruct (at_most_once Attest.step
    (λ st, Attest.activeChallenges st !! n = None)
    (λ op, ¬ attest_issues n op) (attest_consumes n) (attest_late n)
    (attest_gone_stays n) (attest_gone_late n) (attest_consumes_gone n)
    ops st Hq) as [H1 H2].
  split; [done|]. split; [|done].
  etrans; [|exact H1]. apply filter_length_le.
  unfold attest_decides, attest_consumes. intros [op out].
  destruct (attest_presents n _); [|done]. simpl.
  destruct out as [|[]| |]; done.
Qed.

(** The gate reads and writes the [clients] table and a counter only. *)
Lemma validateApiKey_frame clk key st :
  Server.activeChallenges (Server.validateApiKey clk key st).1 =
    Server.activeChallenges st ∧
  Server.sessions (Server.validateApiKey clk key st).1 = Server.sessions st.
Proof.
  unfold Server.validateApiKey.
  destruct key as [key|]; [|done].
  destruct (falsy _); [done|].
  destruct (Server.clients st !! key) as [c|]; [|done].
  destruct (Server.status c); try done.
  destruct (Server.subscription_over clk c); [done|].
  destruct (Server.checkMonthlyReset clk c _). by destruct (_ && _).
Qed.

(** What one [/api/v1/verify] handler call does with the nonce it presents. *)
Lemma verify_handler_cases clk client req st :
  let res := Server.verify_handler clk client req st in
  (res.2 = Server.MissingFields ∧ res.1 = st) ∨
  ∃ n, Server.nonce req = Some n ∧
    ((res.2 = Server.InvalidNonce ∧ res.1 = st ∧
      Server.activeChallenges st !! n = None) ∨
     (res.2 = Server.ApiKeyMismatch ∧ res.1 = st ∧
      ∃ c, Server.activeChallenges st !! n = Some c ∧
           Server.apiKey c ≠ Server.api_key client) ∨
     (res.2 = Server.NonceUsed ∧
      Server.activeChallenges res.1 = Server.activeChallenges st ∧
      ∃ c, Server.activeChallenges st !! n = Some c ∧ Server.used c = true) ∨
     (res.2 = Server.ChallengeExpired ∧
      Server.activeChallenges res.1 = delete n (Server.activeChallenges st) ∧
      Server.clients res.1 = Server.clients st ∧
      ∃ c, Server.activeChallenges st !! n = Some c ∧
           Server.apiKey c = Server.api_key client ∧ Server.used c = false ∧
           Server.expiry c < Server.now clk) ∨
     (server_consuming (inr res.2) = true ∧
      Server.activeChallenges res.1 = delete n (Server.activeChallenges st) ∧
      ∃ c, Server.activeChallenges st !! n = Some c ∧
           Server.apiKey c = Server.api_key client ∧ Server.used c = false ∧
           Server.now clk ≤ Server.expiry c ∧
           Server.consume (Server.now clk) (Server.api_key client) n
             (Server.activeChallenges st) =
             (delete n (Server.activeChallenges st),
              Server.Fresh {| Server.code := Server.code c;
                              Server.expiry := Server.expiry c;
                              Server.used := true;
                              Server.createdAt := Server.createdAt c;
                              Server.apiKey := Server.apiKey c;
                              Server.clientName := Server.clientName c |}))).
Proof.
  unfold Server.verify_handler.
  destruct (Server.nonce req) as [n|], (Server.userResponse req) as [r|],
    (Server.biometricData req) as [b|]; try (by left).
  destruct (falsy _); [by left|]. right. exists n. split; [done|].
  unfold Server.consume.
  destruct (Server.activeChallenges st !! n) as [c|] eqn:Hc; [|by left].
  destruct (String.eqb_spec (Server.apiKey c) (Server.api_key client)) as [Hk|Hk];
    simpl; [|right; left; by eauto].
  destruct (Server.used c) eqn:Hu; [right; right; left; by eauto|].
  destruct (Z.ltb_spec (Server.expiry c) (Server.now clk)) as [He|He];
    [right; right; right; left; by eauto 10|].
  right. right. right. right. cbn [Server.code].
  destruct (_ && _).
  - destruct (Server.checkMonthlyReset _ _ _). simpl.
    repeat split; try done. by exists c.
  - simpl. repeat split; try done. by exists c.
Qed.

Lemma admin_frame pw op st :
  match op with
  | Server.OpChallenge _ _ _ _ | Server.OpVerify _ _ _ | Server.OpCleanup _ => True
  | _ => Server.activeChallenges (Server.step pw op st).1 =
           Server.activeChallenges st ∧
         Server.sessions (Server.step pw op st).1 = Server.sessions st
  end.
Proof.
  destruct op; try done; simpl;
    unfold Server.admin_add, Server.admin_block, Server.admin_unblock,
      Server.admin_renew, Server.admin_delete, Server.admin_list;
    destruct (negb _); try done; repeat case_match; done.
Qed.

Lemma server_gone_stays pw n op st :
  ¬ server_issues n op → Server.activeChallenges st !! n = None →
  Server.activeChallenges (Server.step pw op st).1 !! n = None.
Proof.
  intros Hq Hg. pose proof (admin_frame pw op st) as Hadm.
  destruct op as [clk code n' key|clk key req|now| | | | | |];
    try (by rewrite (proj1 Hadm)); simpl.
  - unfold Server.api_challenge.
    pose proof (validateApiKey_frame clk key st) as [Hf _].
    destruct (Server.validateApiKey clk key st) as [st1 [d|client]]; simpl in *.
    + by rewrite Hf.
    + rewrite lookup_insert_ne; [by rewrite Hf|]. intros ->. by apply Hq.
  - unfold Server.api_verify.
    pose proof (validateApiKey_frame clk key st) as [Hf _].
    destruct (Server.validateApiKey clk key st) as [st1 [d|client]]; simpl in *.
    + by rewrite Hf.
    + rewrite <- Hf in Hg.
      destruct (verify_handler_cases clk client req st1) as
        [[_ ->]|(k & _ & [(_ & -> & _)|[(_ & -> & _)|[(_ & -> & _)|
           [(_ & -> & _)|(_ & -> & _)]]]])]; try done.
      * destruct (decide (k = n)) as [->|]; [apply lookup_delete_eq|].
        by rewrite lookup_delete_ne.
      * destruct (decide (k = n)) as [->|]; [apply lookup_delete_eq|].
        by rewrite lookup_delete_ne.
  - apply map_lookup_filter_None_2. by left.
Qed.

Lemma server_gone_late pw n op st :
  Server.activeChallenges st !! n = None →
  server_late n (op, (Server.step pw op st).2) ∧
  server_consumes n (op, (Server.step pw op st).2) = false.
Proof.
  intros Hg. unfold server_late, server_consumes.
  destruct op as [clk code n' key|clk key req|now| | | | | |]; simpl; try done.
  destruct (bool_decide_reflect (Server.nonce req = Some n)) as [Hn|]; [|done].
  unfold Server.api_verify.
  pose proof (validateApiKey_frame clk key st) as [Hf _].
  destruct (Server.validateApiKey clk key st) as [st1 [d|client]]; simpl in *.
  { split; [|done]. intros _. left. by eexists. }
  rewrite <- Hf in Hg.
  destruct (verify_handler_cases clk client req st1) as
    [[-> _]|(k & Hk & [(-> & _)|[(_ & _ & c & Hc & _)|[(_ & _ & c & Hc & _)|
       [(_ & _ & _ & c & Hc & _)|(_ & _ & c & Hc & _)]]]])];
    try (split; by eauto);
    rewrite Hn in Hk; injection Hk as <-; congruence.
Qed.

Lemma server_consumes_gone pw n op st :
  server_consumes n (op, (Server.step pw op st).2) = true →
  Server.activeChallenges (Server.step pw op st).1 !! n = None.
Proof.
  unfold server_consumes.
  destruct op as [clk code n' key|clk key req|now| | | | | |]; simpl; try done.
  destruct (bool_decide_reflect (Server.nonce req = Some n)) as [Hn|]; [|done].
  unfold Server.api_verify.
  destruct (Server.validateApiKey clk key st) as [st1 [d|client]]; simpl; [done|].
  destruct (verify_handler_cases clk client req st1) as
    [[-> _]|(k & Hk & [(-> & _)|[(-> & _)|[(-> & _)|[(-> & _)|(_ & -> & _)]]]])];
    try done.
  rewrite Hn in Hk. injection Hk as <-. intros _. apply lookup_delete_eq.
Qed.

Lemma server_one_time pw n ops st :
  Forall (λ op, ¬ server_issues n op) ops →
  let tr := (Server.run pw ops st).2 in
  (length (List.filter (server_consumes n) tr) ≤ 1)%nat ∧
  ∀ pre ev post, tr = pre ++ ev :: post →
    server_consumes n ev = true → Forall (server_late n) post.
Proof.
  intros Hq tr.
  exact (at_most_once (Server.step pw)
    (λ st, Server.activeChallenges st !! n = None)
    (λ op, ¬ server_issues n op) (server_consumes n) (server_late n)
    (server_gone_stays pw n) (server_gone_late pw n) (server_consumes_gone pw n)
    ops st Hq).
Qed.

(** C1, as amended.  A call that presents a nonce either stops before or at
    the nonce checks, answering missing fields, invalid nonce, owner
    mismatch (production server), nonce already used or challenge expired,
    and then writes no [used] flag; or it passes them, and then the stored
    challenge had [used = false], the handler sets it to [true] and deletes
    the entry, and the call answers Approved, a normal Denied or, in
    [/attest], the bad-biometric-format error.  In any run that does not
    issue the nonce again, at most one call passes the checks on it, so at
    most one is answered Approved or Denied and [used] goes from false to
    true at most once; every later call that presents the nonce is answered
    invalid nonce (or missing fields, or a denial of the API-key gate). *)
Theorem one_time_use :
  ((∀ now rnd req st n,
      Attest.nonce req = Some n →
      let res := Attest.attest now rnd req st in
      (attest_consuming res.2 = true →
         Attest.activeChallenges res.1 = delete n (Attest.activeChallenges st) ∧
         ∃ c, Attest.activeChallenges st !! n = Some c ∧ Attest.used c = false ∧
           (Attest.consume now n (Attest.activeChallenges st)).2 =
             Attest.Fresh {| Attest.code := Attest.code c;
                             Attest.expiry := Attest.expiry c;
                             Attest.used := true;
                             Attest.createdAt := Attest.createdAt c |}) ∧
      (attest_consuming res.2 = false →
         (res.2 = Attest.MissingFields ∨ res.2 = Attest.InvalidNonce ∨
          res.2 = Attest.ReplayDetected ∨ res.2 = Attest.ChallengeExpired) ∧
         ∀ k c, Attest.activeChallenges res.1 !! k = Some c →
                Attest.activeChallenges st !! k = Some c)) ∧
   (∀ n ops st,
      Forall (λ op, ¬ attest_issues n op) ops →
      let tr := (Attest.run ops st).2 in
      (length (List.filter (attest_consumes n) tr) ≤ 1)%nat ∧
      (length (List.filter (attest_decides n) tr) ≤ 1)%nat ∧
      ∀ pre ev post, tr = pre ++ ev :: post →
        attest_consumes n ev = true → Forall (attest_late n) post)) ∧
  ((∀ clk client req st n,
      Server.nonce req = Some n →
      let res := Server.verify_handler clk client req st in
      (server_consuming (inr res.2) = true →
         Server.activeChallenges res.1 = delete n (Server.activeChallenges st) ∧
         ∃ c, Server.activeChallenges st !! n = Some c ∧ Server.used c = false ∧
           (Server.consume (Server.now clk) (Server.api_key client) n
              (Server.activeChallenges st)).2 =
             Server.Fresh {| Server.code := Server.code c;
                             Server.expiry := Server.expiry c;
                             Server.used := true;
                             Server.createdAt := Server.createdAt c;
                             Server.apiKey := Server.apiKey c;
                             Server.clientName := Server.clientName c |}) ∧
      (server_consuming (inr res.2) = false →
         (res.2 = Server.MissingFields ∨ res.2 = Server.InvalidNonce ∨
          res.2 = Server.ApiKeyMismatch ∨ res.2 = Server.NonceUsed ∨
          res.2 = Server.ChallengeExpired) ∧
         ∀ k c, Server.activeChallenges res.1 !! k = Some c →
                Server.activeChallenges st !! k = Some c)) ∧
   (∀ pw n ops st,
      Forall (λ op, ¬ server_issues n op) ops →
      let tr := (Server.run pw ops st).2 in
      (length (List.filter (server_consumes n) tr) ≤ 1)%nat ∧
      ∀ pre ev post, tr = pre ++ ev :: post →
        server_consumes n ev = true → Forall (server_late n) post)).
Proof.
  split; split.
  - intros now rnd req st n Hn res. subst res.
    destruct (attest_cases now rnd req st) as
      [[Ho Hst]|(k & Hk & [(Ho & Hst & _)|[(Ho & Hst & _)|[(Ho & Hst & _)|
         (Ho & Hst & c & Hc & Hu & _ & Hf)]]])];
      try (rewrite Hn in Hk; injection Hk as <-); rewrite ?Ho.
    + split; [done|]. intros _. split; [by auto|]. by rewrite Hst.
    + split; [done|]. intros _. split; [by auto|]. by rewrite Hst.
    + split; [done|]. intros _. split; [by auto|]. by rewrite Hst.
    + split; [done|]. intros _. split; [by auto 6|]. rewrite Hst.
      intros k c Hkc. apply lookup_delete_Some in Hkc. tauto.
    + split; [|congruence]. intros _. split; [done|].
      exists c. by rewrite Hf.
  - apply attest_one_time.
  - intros clk client req st n Hn res. subst res.
    destruct (verify_handler_cases clk client req st) as
      [[Ho Hst]|(k & Hk & [(Ho & Hst & _)|[(Ho & Hst & _)|[(Ho & Hst & _)|
         [(Ho & Hst & _)|(Ho & Hst & c & Hc & _ & Hu & _ & Hf)]]]])];
      try (rewrite Hn in Hk; injection Hk as <-); rewrite ?Ho.
    + split; [done|]. intros _. split; [by auto|]. by rewrite Hst.
    + split; [done|]. intros _. split; [by auto|]. by rewrite Hst.
    + split; [done|]. intros _. split; [by auto|]. by rewrite Hst.
    + split; [done|]. intros _. split; [by auto 6|]. by rewrite Hst.
    + split; [done|]. intros _. split; [by auto 7|]. rewrite Hst.
      intros k c Hkc. apply lookup_delete_Some in Hkc. tauto.
    + split; [|congruence]. intros _. split; [done|].
      exists c. by rewrite Hf.
  - apply server_one_time.
Qed.

Lemma one_time_use_witness :
  (length (List.filter (attest_consumes "a1b2")
     (Attest.run
        [Attest.OpAttest 1000%Z "c0de" attest_right;
         Attest.OpCleanup 1500%Z;
         Attest.OpAttest 2000%Z "beef" attest_right]
        attest_st419).2) ≤ 1)%nat.
Proof.
  refine (proj1 (proj2 (proj1 one_time_use) "a1b2" _ attest_st419 _)).
  repeat constructor; simpl; tauto.
Defined.

(** C1 as stated fails on [/attest]: a first call with a wrong code and a
    [biometricData] whose [motion] is not a number passes the nonce checks
    and is answered with the bad-format error, which is neither an
    approval, nor a normal denial, nor a replay or invalid-nonce outcome;
    it has used the nonce up, so the right answer that follows is refused. *)
Lemma bad_format_consumes_nonce :
  (Attest.run
     [Attest.OpAttest 1000 "c0de"
        (attest_req "a1b2" "phone" (RArray [0; 0; 0])
           {| motion := None; touch := Some 0.5%float; pattern := Some 0.5%float |});
      Attest.OpAttest 2000 "beef"
        (attest_req "a1b2" "phone" (RArray [4; 1; 9]) (scores 0.9 0.9 0.9))]
     attest_st419).2.*2 =
    [Attest.OutAttest Attest.BadBiometricFormat;
     Attest.OutAttest Attest.InvalidNonce] ∧
  Attest.attest_response Attest.BadBiometricFormat =
    Http 400 [("success", JBool false);
              ("error", JStr "Invalid biometric data format")].
Proof. split; reflexivity. Qed.

(** ** Expired challenges *)





Lemma server_swept_clients times st :
  Server.clients (server_swept times st) = Server.clients st.
Proof.
  revert st. induction times as [|t times IH]; intros st; [done|].
  exact (IH (Server.cleanup t st)).
Qed.

Lemma attest_swept_sessions_None times st tok :
  Attest.sessions st !! tok = None →
  Attest.sessions (attest_swept times st) !! tok = None.
Proof.
  revert st. induction times as [|t times IH]; intros st Hn; [done|].
  apply (IH (Attest.cleanup t st)). simpl. apply map_lookup_filter_None_2. by left.
Qed.

Lemma attest_expired_entry now rnd n d r b c st :
  n ≠ "" → d ≠ "" → Attest.used c = false → Attest.expiry c < now →
  let res := Attest.attest now rnd (attest_req n d r b) st in
  (Attest.activeChallenges st !! n = Some c →
   res.2 = Attest.ChallengeExpired ∧
   Attest.activeChallenges res.1 = delete n (Attest.activeChallenges st) ∧
   Attest.sessions res.1 = Attest.sessions st) ∧
  (Attest.activeChallenges st !! n = None →
   res.2 = Attest.InvalidNonce ∧ res.1 = st).
Proof.
  intros Hn%falsy_Some Hd%falsy_Some Hu He. unfold Attest.attest, attest_req.
  cbn [Attest.nonce Attest.deviceId Attest.userResponse Attest.biometricData].
  rewrite Hn, Hd. unfold Attest.consume. cbn [orb]. split; intros ->; [|done].
  rewrite Hu. by destruct (Z.ltb_spec (Attest.expiry c) now); [|lia].
Qed.





(** ** The client table under the gate and the handlers *)

Lemma stmtUpdateClient_lookup s e u l t key db k :
  Server.stmtUpdateClient s e u l t key db !! k =
    if decide (key = k) then
      (λ c, {| Server.api_key := Server.api_key c; Server.name := Server.name c;
               Server.plan := Server.plan c; Server.status := s;
               Server.created_at := Server.created_at c;
               Server.expires_at := e;
               Server.monthly_limit := Server.monthly_limit c;
               Server.used_this_month := u; Server.last_reset_month := l;
               Server.total_verifications := t |}) <$> db !! k
    else db !! k.
Proof.
  unfold Server.stmtUpdateClient. rewrite lookup_alter.
  by destruct (decide (key = k)) as [->|].
Qed.

Lemma stmtUpdateClient_keyed s e u l t key db :
  db_keyed db → db_keyed (Server.stmtUpdateClient s e u l t key db).
Proof.
  intros Hk k c. rewrite stmtUpdateClient_lookup.
  destruct (decide (key = k)) as [->|]; [|apply Hk].
  destruct (db !! k) as [c0|] eqn:E; [|done].
  intros [= <-]. simpl. by apply Hk.
Qed.

Lemma stmtUpdateClient_quota s e u l t key db :
  quota_kept db →
  (∀ c, db !! key = Some c → 0 < Server.monthly_limit c →
        u ≤ Server.monthly_limit c) →
  quota_kept (Server.stmtUpdateClient s e u l t key db).
Proof.
  intros Hq Hu k c. rewrite stmtUpdateClient_lookup.
  destruct (decide (key = k)) as [->|]; [|apply Hq].
  destruct (db !! k) as [c0|] eqn:E; [|done].
  intros [= <-]. simpl. by apply Hu.
Qed.

Lemma checkMonthlyReset_keyed clk c db :
  db_keyed db → db_keyed (Server.checkMonthlyReset clk c db).2.
Proof.
  intros Hk. unfold Server.checkMonthlyReset. case_bool_decide; [|done].
  by apply stmtUpdateClient_keyed.
Qed.

Lemma checkMonthlyReset_quota clk c db :
  quota_kept db → quota_kept (Server.checkMonthlyReset clk c db).2.
Proof.
  intros Hq. unfold Server.checkMonthlyReset. case_bool_decide; [|done].
  apply stmtUpdateClient_quota; [done|]. intros; simpl; lia.
Qed.

(** After the reset check the row of the client is the client object. *)
Lemma checkMonthlyReset_row clk c db k :
  db !! k = Some c → Server.api_key c = k →
  (Server.checkMonthlyReset clk c db).2 =
    <[k := (Server.checkMonthlyReset clk c db).1]> db.
Proof.
  intros Hc <-. unfold Server.checkMonthlyReset. case_bool_decide; simpl.
  - apply map_eq. intros k'. rewrite stmtUpdateClient_lookup.
    destruct (decide (Server.api_key c = k')) as [<-|].
    + by rewrite Hc, lookup_insert_eq.
    + by rewrite lookup_insert_ne.
  - by rewrite insert_id.
Qed.

(** The gate on a stored, active client whose subscription is not over. *)
Lemma validateApiKey_active clk key st c :
  key ≠ "" → Server.clients st !! key = Some c → Server.api_key c = key →
  Server.status c = Server.active → Server.subscription_over clk c = false →
  let c' := (Server.checkMonthlyReset clk c (Server.clients st)).1 in
  let st' := Server.with_clients (<[key := c']> (Server.clients st)) st in
  Server.validateApiKey clk (Some key) st =
    if (0 <? Server.monthly_limit c) &&
       (Server.monthly_limit c <=? used_after_reset clk c)
    then (Server.with_stats Server.blockedRequests_incr st',
          inl (Server.LimitReached (used_after_reset clk c)
                 (Server.monthly_limit c)))
    else (st', inr c').
Proof.
  intros Hkey%falsy_Some Hc Hk Hs Hover. unfold Server.validateApiKey.
  rewrite Hkey, Hc, Hs, Hover.
  pose proof (checkMonthlyReset_client clk c (Server.clients st))
    as (_ & _ & _ & _ & _ & _ & Hlim & _ & _ & Hused).
  pose proof (checkMonthlyReset_row clk c (Server.clients st) key Hc Hk) as Hrow.
  destruct (Server.checkMonthlyReset clk c (Server.clients st)) as [c1 db1].
  simpl in *. subst db1. unfold used_after_reset. by rewrite Hlim, Hused.
Qed.

Lemma validateApiKey_registry clk key st :
  registry_ok st →
  registry_ok (Server.validateApiKey clk key st).1 ∧
  ∀ client, (Server.validateApiKey clk key st).2 = inr client →
    key = Some (Server.api_key client) ∧
    Server.clients (Server.validateApiKey clk key st).1
      !! Server.api_key client = Some client ∧
    (0 < Server.monthly_limit client →
     Server.used_this_month client < Server.monthly_limit client).
Proof.
  intros [Hk Hq]. unfold Server.validateApiKey.
  destruct key as [key|]; [|done].
  destruct (falsy (Some key)) eqn:Hf; [done|].
  destruct (Server.clients st !! key) as [c|] eqn:Hc; [|done].
  destruct (Server.status c); try done.
  destruct (Server.subscription_over clk c).
  { split; [|done]. split; simpl.
    - by apply stmtUpdateClient_keyed.
    - apply stmtUpdateClient_quota; [done|].
      intros c0 Hc0. rewrite (Hk _ _ Hc) in Hc0. rewrite Hc in Hc0.
      injection Hc0 as <-. by apply (Hq key). }
  pose proof (checkMonthlyReset_client clk c (Server.clients st))
    as (Hkey & _).
  pose proof (checkMonthlyReset_row clk c (Server.clients st) key Hc (Hk _ _ Hc))
    as Hrow.
  pose proof (checkMonthlyReset_keyed clk c (Server.clients st) Hk) as Hk'.
  pose proof (checkMonthlyReset_quota clk c (Server.clients st) Hq) as Hq'.
  destruct (Server.checkMonthlyReset clk c (Server.clients st)) as [c1 db1].
  simpl in *.
  destruct (0 <? Server.monthly_limit c1) eqn:H0;
    [destruct (Server.monthly_limit c1 <=? Server.used_this_month c1) eqn:H1|];
    simpl; (split; [done|]); try done; intros client [= <-];
    rewrite Hkey, (Hk _ _ Hc), Hrow, lookup_insert_eq; repeat split; lia.
Qed.

Lemma verify_handler_registry clk client req st :
  registry_ok st →
  Server.clients st !! Server.api_key client = Some client →
  (0 < Server.monthly_limit client →
   Server.used_this_month client < Server.monthly_limit client) →
  registry_ok (Server.verify_handler clk client req st).1.
Proof.
  intros [Hk Hq] Hc Hlim. unfold Server.verify_handler.
  destruct (Server.nonce req) as [n|], (Server.userResponse req) as [r|],
    (Server.biometricData req) as [b|]; try done.
  destruct (falsy _); [done|].
  destruct (Server.consume _ _ _ _) as [m []]; try done.
  destruct (_ && _); [|done].
  cbn [Server.clients Server.with_challenges].
  pose proof (checkMonthlyReset_client clk client (Server.clients st))
    as (Hkey & _ & _ & _ & _ & _ & Hl & _ & _ & Hu).
  pose proof (checkMonthlyReset_row clk client (Server.clients st) _ Hc eq_refl)
    as Hrow.
  pose proof (checkMonthlyReset_keyed clk client (Server.clients st) Hk) as Hk'.
  pose proof (checkMonthlyReset_quota clk client (Server.clients st) Hq) as Hq'.
  destruct (Server.checkMonthlyReset clk client (Server.clients st)) as [c1 db1].
  simpl in *. split; simpl.
  - by apply stmtUpdateClient_keyed.
  - apply stmtUpdateClient_quota; [done|].
    intros c0. rewrite Hrow, Hkey, lookup_insert_eq. intros [= <-].
    rewrite Hu, Hl. case_bool_decide; lia.
Qed.

Lemma step_registry pw op st :
  registry_ok st → registry_ok (Server.step pw op st).1.
Proof.
  intros Hok. destruct op; simpl.
  - unfold Server.api_challenge.
    destruct (validateApiKey_registry clk apiKey st Hok) as [Hg _].
    by destruct (Server.validateApiKey clk apiKey st) as [st1 [d|client]].
  - unfold Server.api_verify.
    destruct (validateApiKey_registry clk apiKey st Hok) as [Hg Hc].
    destruct (Server.validateApiKey clk apiKey st) as [st1 [d|client]]; [done|].
    simpl in *. destruct (Hc client eq_refl) as (_ & Hrow & Hlim).
    by apply verify_handler_registry.
  - done.
  - unfold Server.admin_add. destruct (negb _); [done|].
    destruct name as [name|]; [|done]. destruct (falsy _); [done|].
    destruct (_ && _); [done|].
    destruct (Server.clients st !! _) eqn:Hnew; [done|].
    destruct Hok as [Hk Hq]. split; simpl.
    + intros k c [[<- <-]|[_ ?]]%lookup_insert_Some; [done|by apply Hk].
    + intros k c [[<- <-]|[_ ?]]%lookup_insert_Some; [simpl; lia|by apply (Hq k)].
  - unfold Server.admin_block. destruct (negb _); [done|].
    destruct (Server.clients st !! apiKey) as [c|] eqn:Hc; [|done].
    destruct Hok as [Hk Hq]. split; simpl.
    + by apply stmtUpdateClient_keyed.
    + apply stmtUpdateClient_quota; [done|].
      intros c0 Hc0. rewrite Hc in Hc0. injection Hc0 as <-. by apply (Hq apiKey).
  - unfold Server.admin_unblock. destruct (negb _); [done|].
    destruct (Server.clients st !! apiKey) as [c|] eqn:Hc; [|done].
    destruct Hok as [Hk Hq]. split; simpl.
    + by apply stmtUpdateClient_keyed.
    + apply stmtUpdateClient_quota; [done|].
      intros c0 Hc0. rewrite Hc in Hc0. injection Hc0 as <-. by apply (Hq apiKey).
  - unfold Server.admin_renew. destruct (negb _); [done|].
    destruct (Server.clients st !! apiKey) as [c|] eqn:Hc; [|done].
    destruct Hok as [Hk Hq]. split; simpl.
    + by apply stmtUpdateClient_keyed.
    + apply stmtUpdateClient_quota; [done|].
      intros c0 Hc0. rewrite Hc in Hc0. injection Hc0 as <-. by apply (Hq apiKey).
  - unfold Server.admin_delete. destruct (negb _); [done|].
    destruct (Server.clients st !! apiKey) as [c|] eqn:Hc; [|done].
    destruct logged; [done|].
    destruct Hok as [Hk Hq]. split; simpl.
    + intros k c' [_ ?]%lookup_delete_Some. by apply Hk.
    + intros k c' [_ ?]%lookup_delete_Some. by apply (Hq k).
  - unfold Server.admin_list. destruct (negb _); [done|].
    destruct Hok as [Hk Hq]. unfold registry_ok. simpl.
    apply (map_fold_weak_ind (λ db _, db_keyed db ∧ quota_kept db)); [done|].
    intros k c m db _ [Hk' Hq']. split.
    + by apply checkMonthlyReset_keyed.
    + by apply checkMonthlyReset_quota.
Qed.

Lemma run_registry pw ops st :
  registry_ok st → registry_ok (Server.run pw ops st).1.
Proof.
  revert st. induction ops as [|op ops IH]; intros st Hok; [done|].
  unfold Server.run. rewrite run_trace_cons. simpl.
  apply IH. by apply step_registry.
Qed.

Lemma init_registry : registry_ok Server.init.
Proof. split; intros k c; simpl; by rewrite lookup_empty. Qed.

(** ** The monthly quota *)

(** C6, as amended.  For every active tenant with a positive
    [monthly_limit] whose subscription is not over, the gate first applies
    the monthly reset: when the calendar year-month differs from
    [last_reset_month] the row gets [used_this_month = 0] and the new month,
    otherwise it keeps its usage.  With the usage so obtained the gate
    answers LIMIT_REACHED exactly when [used_this_month >= monthly_limit]
    and admits the tenant otherwise; so a tenant is admitted again after a
    month rollover.  In every state the server reaches, the usage of a
    tenant with a positive limit does not exceed the limit.  A tenant whose
    limit is 0 or negative is never limited: the gate admits it whatever its
    usage, and every LIMIT_REACHED answer is for a positive limit that the
    usage has reached.  (The limit and the usage are integers.) *)
Theorem monthly_quota :
  (∀ clk key st c,
     key ≠ "" → Server.clients st !! key = Some c → Server.api_key c = key →
     Server.status c = Server.active → Server.subscription_over clk c = false →
     0 < Server.monthly_limit c →
     let res := Server.validateApiKey clk (Some key) st in
     let used := used_after_reset clk c in
     (Server.last_reset_month c ≠ Server.thisMonth_of clk → used = 0) ∧
     (Server.last_reset_month c = Server.thisMonth_of clk →
      used = Server.used_this_month c) ∧
     (∃ c', Server.clients res.1 !! key = Some c' ∧
        Server.used_this_month c' = used ∧
        Server.last_reset_month c' = Server.thisMonth_of clk ∧
        Server.monthly_limit c' = Server.monthly_limit c ∧
        Server.total_verifications c' = Server.total_verifications c ∧
        Server.status c' = Server.status c ∧
        Server.expires_at c' = Server.expires_at c) ∧
     (Server.monthly_limit c ≤ used →
      res.2 = inl (Server.LimitReached used (Server.monthly_limit c))) ∧
     (used < Server.monthly_limit c →
      ∃ c', res.2 = inr c' ∧ Server.used_this_month c' = used) ∧
     (Server.last_reset_month c ≠ Server.thisMonth_of clk →
      ∃ c', res.2 = inr c' ∧ Server.used_this_month c' = 0)) ∧
  (∀ used limit,
     field "code" (Server.gate_response (Server.LimitReached used limit)) =
       Some (JStr "LIMIT_REACHED")) ∧
  (∀ pw ops st, registry_ok st → registry_ok (Server.run pw ops st).1) ∧
  (∀ pw ops k c,
     Server.clients (Server.run pw ops Server.init).1 !! k = Some c →
     0 < Server.monthly_limit c →
     Server.used_this_month c ≤ Server.monthly_limit c) ∧
  (∀ clk key st c,
     key ≠ "" → Server.clients st !! key = Some c → Server.api_key c = key →
     Server.status c = Server.active → Server.subscription_over clk c = false →
     Server.monthly_limit c ≤ 0 →
     ∃ c', (Server.validateApiKey clk (Some key) st).2 = inr c' ∧
       Server.used_this_month c' = used_after_reset clk c) ∧
  (∀ clk key st used limit,
     (Server.validateApiKey clk key st).2 = inl (Server.LimitReached used limit) →
     0 < limit ∧ limit ≤ used ∧
     ∃ k c, key = Some k ∧ Server.clients st !! k = Some c ∧
       Server.monthly_limit c = limit ∧ used_after_reset clk c = used).
Proof.
  split; [|split; [done|split; [|split; [|split]]]].
  - intros clk key st c Hkey Hc Hk Hs Hover Hpos res used.
    pose proof (validateApiKey_active clk key st c Hkey Hc Hk Hs Hover) as Hg.
    cbv zeta in Hg. fold res in Hg.
    pose proof (checkMonthlyReset_client clk c (Server.clients st))
      as (_ & _ & _ & Hst & _ & Hex & Hlim & Htot & Hlast & Hused).
    fold (used_after_reset clk c) in Hused. fold used in Hused, Hg.
    assert (Hroll : Server.last_reset_month c ≠ Server.thisMonth_of clk → used = 0).
    { intros Hne. unfold used, used_after_reset. by rewrite bool_decide_eq_false_2. }
    assert (Hrow : ∃ c', Server.clients res.1 !! key = Some c' ∧
        Server.used_this_month c' = used ∧
        Server.last_reset_month c' = Server.thisMonth_of clk ∧
        Server.monthly_limit c' = Server.monthly_limit c ∧
        Server.total_verifications c' = Server.total_verifications c ∧
        Server.status c' = Server.status c ∧
        Server.expires_at c' = Server.expires_at c).
    { exists (Server.checkMonthlyReset clk c (Server.clients st)).1.
      split; [|by repeat split].
      rewrite Hg. destruct (_ && _); simpl; apply lookup_insert_eq. }
    assert (Hadm : used < Server.monthly_limit c →
      ∃ c', res.2 = inr c' ∧ Server.used_this_month c' = used).
    { intros Hlt. rewrite Hg.
      destruct (Z.leb_spec (Server.monthly_limit c) used); [lia|].
      rewrite andb_false_r. by eexists. }
    split; [done|]. split.
    { intros He. unfold used, used_after_reset. by rewrite bool_decide_eq_true_2. }
    split; [done|]. split; [|split; [done|]].
    + intros Hle. rewrite Hg.
      destruct (Z.ltb_spec 0 (Server.monthly_limit c)); [|lia].
      by destruct (Z.leb_spec (Server.monthly_limit c) used); [|lia].
    + intros Hne. rewrite <- (Hroll Hne). apply Hadm. rewrite (Hroll Hne). lia.
  - apply run_registry.
  - intros pw ops k c Hc.
    destruct (run_registry pw ops Server.init init_registry) as [_ Hq].
    by apply (Hq k).
  - intros clk key st c Hkey Hc Hk Hs Hover Hle.
    rewrite (validateApiKey_active clk key st c Hkey Hc Hk Hs Hover).
    destruct (Z.ltb_spec 0 (Server.monthly_limit c)); [lia|]. simpl.
    eexists. split; [done|].
    by destruct (checkMonthlyReset_client clk c (Server.clients st))
      as (_ & _ & _ & _ & _ & _ & _ & _ & _ & ?).
  - intros clk key st used limit. unfold Server.validateApiKey.
    destruct key as [k|]; [|done].
    destruct (falsy (Some k)); [done|].
    destruct (Server.clients st !! k) as [c|] eqn:Hc; [|done].
    destruct (Server.status c); try done.
    destruct (Server.subscription_over clk c); [done|].
    pose proof (checkMonthlyReset_client clk c (Server.clients st))
      as (_ & _ & _ & _ & _ & _ & Hlim & _ & _ & Hused).
    destruct (Server.checkMonthlyReset clk c (Server.clients st)) as [c1 db1].
    simpl in Hlim, Hused.
    destruct (Z.ltb_spec 0 (Server.monthly_limit c1)); [|done].
    destruct (Z.leb_spec (Server.monthly_limit c1) (Server.used_this_month c1));
      [|done].
    simpl. intros [= <- <-]. split; [done|]. split; [done|].
    exists k, c. by repeat split.
Qed.

Lemma monthly_quota_witness :
  (Server.validateApiKey (clk_at 1000) (Some "zk_live_00ff") server_full).2 =
    inl (Server.LimitReached 5000 5000) ∧
  ∃ c, (Server.validateApiKey
          {| Server.now := 1000; Server.fullYear := 2026; Server.month := 11 |}
          (Some "zk_live_00ff") server_full).2 = inr c ∧
       Server.used_this_month c = 0.
Proof.
  destruct monthly_quota as [Hgate _]. split.
  - refine (proj1 (proj2 (proj2 (proj2
      (Hgate (clk_at 1000) "zk_live_00ff" server_full acme_full _ _ _ _ _ _)))) _);
      done.
  - refine (proj2 (proj2 (proj2 (proj2 (proj2
      (Hgate {| Server.now := 1000; Server.fullYear := 2026; Server.month := 11 |}
         "zk_live_00ff" server_full acme_full _ _ _ _ _ _))))) _); done.
Defined.

(** C6 as stated fails for a negative limit: the admin creates Acme with
    [monthlyLimit = -1]; the limit is not 0 and the usage 0 is not below
    it, yet the gate admits Acme. *)
Lemma negative_limit_admitted :
  let st := (Server.admin_add "pw" (Some "pw") clk0 "00ff" (Some "Acme")
               (Some "starter") (Some (-1)) None Server.init).1 in
  ∃ c, Server.clients st !! "zk_live_00ff" = Some c ∧
    Server.status c = Server.active ∧
    Server.monthly_limit c = -1 ∧ Server.monthly_limit c ≠ 0 ∧
    Server.last_reset_month c = Server.thisMonth_of clk0 ∧
    Server.monthly_limit c ≤ Server.used_this_month c ∧
    (Server.validateApiKey clk0 (Some "zk_live_00ff") st).2 = inr c.
Proof. eexists. repeat split; try done. Qed.

(** ** What an approval leaves behind *)

Lemma attest_sessions now rnd req st :
  let res := Attest.attest now rnd req st in
  (∃ risk s d,
     res.2 = Attest.Approved ("VALID_" +:+ rnd) risk (now + 5 * 60 * 1000) ∧
     Attest.sessions res.1 = <["VALID_" +:+ rnd := s]> (Attest.sessions st) ∧
     Attest.deviceId req = Some d ∧ Attest.s_deviceId s = d ∧
     Attest.s_riskScore s = risk ∧ Attest.s_createdAt s = now ∧
     Attest.s_expiry s = now + 5 * 60 * 1000) ∨
  ((∀ tok risk e, res.2 ≠ Attest.Approved tok risk e) ∧
   Attest.sessions res.1 = Attest.sessions st).
Proof.
  unfold Attest.attest.
  destruct (Attest.nonce req) as [n|], (Attest.deviceId req) as [d|],
    (Attest.userResponse req) as [r|], (Attest.biometricData req) as [b|];
    try (by right).
  destruct (_ || _); [by right|].
  destruct (Attest.consume _ _ _) as [m []]; try (by right).
  destruct (String.eqb _ _); [by right|].
  destruct (motion b), (touch b), (pattern b); try (by right).
  destruct (_ && _); [|by right].
  left. by eexists _, _, _.
Qed.

Lemma attest_step_sessions op st tok s :
  Attest.sessions (Attest.step op st).1 !! tok = Some s →
  Attest.sessions st !! tok = Some s ∨ attest_approval (Attest.step op st).2 = true.
Proof.
  destruct op as [now code n|now rnd req|now t|now]; simpl.
  - by left.
  - destruct (attest_sessions now rnd req st) as
      [(risk & s' & d & -> & _)|[_ ->]]; [by right|by left].
  - unfold Attest.verify. destruct (falsy t); [by left|].
    destruct t as [t|]; [|by left].
    destruct (Attest.sessions st !! t) eqn:Ht; [|by left].
    destruct (_ <? _); [|by left]. simpl.
    intros [_ ?]%lookup_delete_Some. by left.
  - intros [? _]%map_lookup_filter_Some. by left.
Qed.

Lemma verify_handler_sessions clk client req st :
  Server.sessions (Server.verify_handler clk client req st).1 = Server.sessions st.
Proof.
  unfold Server.verify_handler.
  destruct (Server.nonce req), (Server.userResponse req),
    (Server.biometricData req); try done.
  destruct (falsy _); [done|].
  destruct (Server.consume _ _ _ _) as [m []]; try done.
  destruct (_ && _); [|done]. by destruct (Server.checkMonthlyReset _ _ _).
Qed.

Lemma server_step_sessions pw op st tok v :
  Server.sessions (Server.step pw op st).1 !! tok = Some v →
  Server.sessions st !! tok = Some v.
Proof.
  pose proof (admin_frame pw op st) as Hadm.
  destruct op; try (by rewrite (proj2 Hadm)); simpl.
  - unfold Server.api_challenge.
    pose proof (validateApiKey_frame clk apiKey st) as [_ Hf].
    destruct (Server.validateApiKey clk apiKey st) as [st1 [d|client]];
      simpl in *; by rewrite Hf.
  - unfold Server.api_verify.
    pose proof (validateApiKey_frame clk apiKey st) as [_ Hf].
    destruct (Server.validateApiKey clk apiKey st) as [st1 [d|client]];
      simpl in *; [by rewrite Hf|].
    by rewrite verify_handler_sessions, Hf.
  - by intros [? _]%map_lookup_filter_Some.
Qed.

(** An approval by the handler writes the usage of the client it was given. *)
Lemma verify_handler_usage clk client req st risk nm :
  Server.clients st !! Server.api_key client = Some client →
  (Server.verify_handler clk client req st).2 = Server.Approved risk nm →
  ∃ c', Server.clients (Server.verify_handler clk client req st).1 =
          <[Server.api_key client := c']> (Server.clients st) ∧
    Server.used_this_month c' = used_after_reset clk client + 1 ∧
    Server.total_verifications c' = Server.total_verifications client + 1 ∧
    Server.last_reset_month c' = Server.thisMonth_of clk ∧
    Server.api_key c' = Server.api_key client ∧
    Server.name c' = Server.name client ∧ Server.plan c' = Server.plan client ∧
    Server.status c' = Server.status client ∧
    Server.created_at c' = Server.created_at client ∧
    Server.expires_at c' = Server.expires_at client ∧
    Server.monthly_limit c' = Server.monthly_limit client.
Proof.
  intros Hc. unfold Server.verify_handler.
  destruct (Server.nonce req) as [n|], (Server.userResponse req) as [r|],
    (Server.biometricData req) as [b|]; try done.
  destruct (falsy _); [done|].
  destruct (Server.consume _ _ _ _) as [m []]; try done.
  destruct (_ && _); [|done].
  cbn [Server.clients Server.with_challenges].
  pose proof (checkMonthlyReset_client clk client (Server.clients st))
    as (Hkey & Hname & Hplan & Hst & Hcr & Hex & Hl & Htot & Hlast & Hu).
  pose proof (checkMonthlyReset_row clk client (Server.clients st) _ Hc eq_refl)
    as Hrow.
  destruct (Server.checkMonthlyReset clk client (Server.clients st)) as [c1 db1].
  simpl in *. intros _. subst db1.
  eexists. split.
  - apply map_eq. intros k. rewrite stmtUpdateClient_lookup, Hkey.
    destruct (decide (Server.api_key client = k)) as [<-|].
    + by rewrite !lookup_insert_eq.
    + by rewrite !lookup_insert_ne.
  - simpl. unfold used_after_reset. by rewrite Hu, Htot.
Qed.

Lemma api_verify_approved clk key req st risk nm :
  db_keyed (Server.clients st) →
  (Server.api_verify clk (Some key) req st).2 = inr (Server.Approved risk nm) →
  ∃ c c', Server.clients st !! key = Some c ∧
    Server.clients (Server.api_verify clk (Some key) req st).1 =
      <[key := c']> (Server.clients st) ∧
    Server.used_this_month c' = used_after_reset clk c + 1 ∧
    Server.total_verifications c' = Server.total_verifications c + 1 ∧
    Server.last_reset_month c' = Server.thisMonth_of clk ∧
    Server.api_key c' = key ∧
    Server.name c' = Server.name c ∧ Server.plan c' = Server.plan c ∧
    Server.status c' = Server.status c ∧
    Server.created_at c' = Server.created_at c ∧
    Server.expires_at c' = Server.expires_at c ∧
    Server.monthly_limit c' = Server.monthly_limit c.
Proof.
  intros Hk. unfold Server.api_verify.
  destruct (falsy (Some key)) eqn:Hf.
  { unfold Server.validateApiKey. by rewrite Hf. }
  destruct (Server.clients st !! key) as [c|] eqn:Hc;
    [|unfold Server.validateApiKey; by rewrite Hf, Hc].
  destruct (Server.status c) eqn:Hs;
    try (unfold Server.validateApiKey; by rewrite Hf, Hc, Hs).
  destruct (Server.subscription_over clk c) eqn:Hover;
    [unfold Server.validateApiKey; by rewrite Hf, Hc, Hs, Hover|].
  apply falsy_Some in Hf.
  rewrite (validateApiKey_active clk key st c Hf Hc (Hk _ _ Hc) Hs Hover).
  destruct (_ && _); [done|]. simpl.
  pose proof (checkMonthlyReset_client clk c (Server.clients st))
    as (Hkey & Hname & Hplan & Hst & Hcr & Hex & Hl & Htot & Hlast & Hu).
  set (c1 := (Server.checkMonthlyReset clk c (Server.clients st)).1) in *.
  set (st1 := Server.with_clients (<[key:=c1]> (Server.clients st)) st).
  intros [= Hap].
  assert (Server.clients st1 !! Server.api_key c1 = Some c1) as Hrow.
  { rewrite Hkey, (Hk _ _ Hc). apply lookup_insert_eq. }
  destruct (verify_handler_usage clk c1 req st1 risk nm Hrow Hap)
    as (c' & Hdb & Hu' & Ht' & Hl' & Hk' & Hn' & Hp' & Hs' & Hc' & He' & Hm').
  exists c, c'. split; [done|]. split.
  { rewrite Hdb, Hkey, (Hk _ _ Hc). simpl. apply insert_insert_eq. }
  assert (used_after_reset clk c1 = used_after_reset clk c) as Hsame.
  { unfold used_after_reset at 1. rewrite Hlast.
    rewrite bool_decide_eq_true_2 by done. exact Hu. }
  rewrite Hu', Hsame, Ht', Htot, Hk', Hkey, (Hk _ _ Hc), Hn', Hname, Hp', Hplan,
    Hs', Hst, Hc', Hcr, He', Hex, Hm', Hl. by repeat split.
Qed.

(** C4, as amended.  Every normal-path approval of [/attest] mints a
    session: the returned token is stored with the risk score, device,
    issue time and expiry, and validating it up to its expiry succeeds;
    the secure-mode server keeps no client registry.  In that server a
    session is created only by an approval of [/attest].  Every approval of
    [/api/v1/verify] records usage for the caller's tenant
    ([used_this_month], after the monthly reset check, and
    [total_verifications] grow by one, no other row changes); it mints no
    session and its response carries no token.  The production server
    never creates a session. *)
Theorem approval_effects :
  (∀ now rnd req st tok risk e,
     (Attest.attest now rnd req st).2 = Attest.Approved tok risk e →
     let st' := (Attest.attest now rnd req st).1 in
     ∃ s, Attest.sessions st' !! tok = Some s ∧
       Attest.s_riskScore s = risk ∧ Attest.s_expiry s = e ∧
       Attest.s_createdAt s = now ∧
       Attest.deviceId req = Some (Attest.s_deviceId s) ∧
       ∀ t, t ≤ e →
         (Attest.verify t (Some tok) st').2 =
           Attest.SessionValid risk (Attest.s_deviceId s) now e) ∧
  (∀ op st tok s,
     Attest.sessions (Attest.step op st).1 !! tok = Some s →
     Attest.sessions st !! tok = Some s ∨
     attest_approval (Attest.step op st).2 = true) ∧
  (∀ clk key req st risk nm,
     db_keyed (Server.clients st) →
     (Server.api_verify clk (Some key) req st).2 =
       inr (Server.Approved risk nm) →
     let st' := (Server.api_verify clk (Some key) req st).1 in
     (∃ c c', Server.clients st !! key = Some c ∧
        Server.clients st' !! key = Some c' ∧
        Server.used_this_month c' = used_after_reset clk c + 1 ∧
        Server.total_verifications c' = Server.total_verifications c + 1 ∧
        Server.last_reset_month c' = Server.thisMonth_of clk ∧
        Server.api_key c' = key ∧ Server.name c' = Server.name c ∧
        Server.plan c' = Server.plan c ∧ Server.status c' = Server.status c ∧
        Server.created_at c' = Server.created_at c ∧
        Server.expires_at c' = Server.expires_at c ∧
        Server.monthly_limit c' = Server.monthly_limit c) ∧
     (∀ k, k ≠ key → Server.clients st' !! k = Server.clients st !! k) ∧
     Server.sessions st' = Server.sessions st ∧
     fields (Server.verify_response (Server.Approved risk nm)) =
       ["success"; "allowed"; "riskScore"; "clientName"]) ∧
  (∀ pw op st tok v,
     Server.sessions (Server.step pw op st).1 !! tok = Some v →
     Server.sessions st !! tok = Some v).
Proof.
  split; [|split; [apply attest_step_sessions|split;
    [|apply server_step_sessions]]].
  - intros now rnd req st tok risk e Hap st'.
    destruct (attest_sessions now rnd req st) as
      [(risk' & s & d & Ho & Hs & Hd & Hsd & Hr & Hc & He)|[Hno _]];
      [|by destruct (Hno _ _ _ Hap)].
    rewrite Ho in Hap. injection Hap as <- <- <-.
    exists s. subst st'. rewrite Hs, lookup_insert_eq.
    repeat split; try done; [by rewrite Hsd|].
    intros t Ht. unfold Attest.verify.
    assert (falsy (Some ("VALID_" +:+ rnd)) = false) as -> by done.
    rewrite Hs, lookup_insert_eq.
    destruct (Z.ltb_spec (Attest.s_expiry s) t); [lia|]. simpl.
    by rewrite Hr, Hc, He.
  - intros clk key req st risk nm Hk Hap st'.
    destruct (api_verify_approved clk key req st risk nm Hk Hap)
      as (c & c' & Hc & Hdb & Hrest).
    fold st' in Hdb. repeat split.
    + exists c, c'. split; [done|]. split; [|done].
      rewrite Hdb. apply lookup_insert_eq.
    + intros k Hne. rewrite Hdb. by apply lookup_insert_ne.
    + subst st'. unfold Server.api_verify.
      pose proof (validateApiKey_frame clk (Some key) st) as [_ Hf].
      destruct (Server.validateApiKey clk (Some key) st) as [st1 [d|client]];
        simpl in *; [done|]. by rewrite verify_handler_sessions.
Qed.

Lemma approval_effects_witness :
  (Attest.verify 2000 (Some "VALID_c0de")
     (Attest.attest 1000 "c0de" attest_right attest_st419).1).2 =
    Attest.SessionValid LOW "phone" 1000 301000 ∧
  Server.sessions
    (Server.api_verify (clk_at 1000) (Some "zk_live_00ff") verify_right
       server_st419).1 = Server.sessions server_st419.
Proof.
  destruct approval_effects as (Ha & _ & Hs & _). split.
  - destruct (Ha 1000 "c0de" attest_right attest_st419 "VALID_c0de" LOW 301000
                eq_refl) as (s & Hs1 & _ & _ & _ & Hd & Hv).
    injection Hd as Hd. rewrite <- Hd in Hv. apply Hv. lia.
  - refine (proj1 (proj2 (proj2
      (Hs (clk_at 1000) "zk_live_00ff" verify_right server_st419 LOW "Acme" _ _)))).
    + exact (proj1 (run_registry "pw" _ Server.init init_registry)).
    + reflexivity.
Defined.

(** C4 as stated fails on the production server: the right answer to the
    challenge 4-1-9 is approved, and no session exists afterwards, nor does
    the response carry a token that could be validated. *)
Lemma production_approval_mints_no_session :
  let res := Server.api_verify (clk_at 1000) (Some "zk_live_00ff") verify_right
               server_st419 in
  res.2 = inr (Server.Approved LOW "Acme") ∧
  Server.sessions res.1 = ∅ ∧
  field "sessionToken" (Server.verify_response (Server.Approved LOW "Acme")) = None.
Proof. repeat split; try done. Qed.

(** ** Supplements *)

(** Joined digits determine the digits: on arrays of single digits the
    comparison of the joined strings is the comparison of the arrays. *)
Lemma pretty_digit (d : Z) : 0 ≤ d < 10 → ∃ a, pretty d = String a "".
Proof.
  intros Hd.
  assert (d = 0 ∨ d = 1 ∨ d = 2 ∨ d = 3 ∨ d = 4 ∨ d = 5 ∨ d = 6 ∨ d = 7 ∨
          d = 8 ∨ d = 9) as Hcases by lia.
  repeat (destruct Hcases as [->|Hcases]; [by eexists|]).
  subst. by eexists.
Qed.

Lemma pretty_digit_inj (d1 d2 : Z) :
  0 ≤ d1 < 10 → 0 ≤ d2 < 10 → pretty d1 = pretty d2 → d1 = d2.
Proof. intros _ _. apply (inj pretty). Qed.

Lemma string_app_cons a (s t : string) : String a s +:+ t = String a (s +:+ t).
Proof. reflexivity. Qed.

Lemma string_app_empty (s : string) : s +:+ "" = s.
Proof.
  induction s as [|a s IH]; [done|]. by rewrite string_app_cons, IH.
Qed.

Lemma join_cons (d : Z) (l : list Z) : join (d :: l) = pretty d +:+ join l.
Proof.
  unfold join. destruct l as [|d' l]; simpl; [by rewrite string_app_empty|done].
Qed.

Lemma join_digits_inj (l1 l2 : list Z) :
  Forall (λ d, 0 ≤ d < 10) l1 → Forall (λ d, 0 ≤ d < 10) l2 →
  join l1 = join l2 → l1 = l2.
Proof.
  intros H1. revert l2. induction H1 as [|d1 l1 Hd1 _ IH]; intros l2 H2.
  - destruct H2 as [|d2 l2 Hd2 _]; [done|].
    destruct (pretty_digit d2 Hd2) as [a Ha].
    by rewrite join_cons, Ha, string_app_cons.
  - destruct H2 as [|d2 l2 Hd2 H2].
    { destruct (pretty_digit d1 Hd1) as [a Ha].
      by rewrite join_cons, Ha, string_app_cons. }
    destruct (pretty_digit d1 Hd1) as [a1 Ha1].
    destruct (pretty_digit d2 Hd2) as [a2 Ha2].
    rewrite !join_cons, Ha1, Ha2, !string_app_cons.
    change ("" +:+ join l1) with (join l1). change ("" +:+ join l2) with (join l2).
    intros [= -> Hrest]. f_equal.
    + apply pretty_digit_inj; [done..|]. by rewrite Ha1, Ha2.
    + by apply IH.
Qed.

(** The token of a panic approval is not in the session store: validating
    it answers INVALID. *)
Lemma panic_token_is_not_a_session :
  let res := Attest.attest 1000 "c0de"
    (attest_req "a1b2" "phone" (RArray [9; 1; 4]) (scores 0.9 0.9 0.9))
    attest_st419 in
  res.2 = Attest.PanicApproved "DURESS_c0de" ∧
  Attest.sessions res.1 = ∅ ∧
  (Attest.verify 2000 (Some "DURESS_c0de") res.1).2 = Attest.SessionInvalid.
Proof. repeat split; try done. Qed.

(** The production server has no panic path: the reversed code is a wrong
    code. *)
Lemma production_reversed_code_denied :
  (Server.verify_handler (clk_at 1000) acme
     (verify_req "a1b2" (RArray [9; 1; 4]) (scores 0.9 0.9 0.9))
     server_st419).2 = Server.Denied ["Wrong code"].
Proof. reflexivity. Qed.

(** The class boundaries at the values the thresholds are written with:
    both are exclusive. *)
Lemma classify_boundaries :
  classify 0.71 = LOW ∧ classify 0.7 = MEDIUM ∧
  classify 0.41 = MEDIUM ∧ classify 0.4 = HIGH.
Proof. repeat split. Qed.

(** Three scores of 0.4 average, in binary64, to a number above 0.4. *)
Lemma average_is_rounded : classify (avgScore_of 0.4 0.4 0.4) = MEDIUM.
Proof. reflexivity. Qed.

(** * Further properties of the code *)

(** ** Invariants of a run *)

(** A property of the state that every request keeps, together with a
    property of every answer given in a state that has it. *)
Section RunInvariant.
Context {S O R : Type} (step : O → S → S * R).
Variables (Inv : S → Prop) (Good : O * R → Prop).
Hypothesis step_inv : ∀ op st,
  Inv st → Inv (step op st).1 ∧ Good (op, (step op st).2).

Lemma run_invariant ops st :
  Inv st →
  Inv (run_trace step ops st).1 ∧ Forall Good (run_trace step ops st).2.
Proof.
  revert st. induction ops as [|op ops IH]; intros st Hst; [by split|].
  rewrite run_trace_cons. cbn [fst snd].
  destruct (step_inv op st Hst) as [H1 Hg].
  destruct (IH _ H1) as [H2 Hall]. split; [done|by constructor].
Qed.
End RunInvariant.

(** ** Stored challenges are unused: the replay answers are never given *)

Lemma attest_verify_challenges now tok st :
  Attest.activeChallenges (Attest.verify now tok st).1 = Attest.activeChallenges st.
Proof. unfold Attest.verify. by repeat case_match. Qed.

Lemma attest_step_store op st :
  attest_store_ok st →
  attest_store_ok (Attest.step op st).1 ∧
  attest_answer (op, (Attest.step op st).2) ≠ Some Attest.ReplayDetected.
Proof.
  intros Hok. destruct op as [now code n|now rnd req|now tok|now]; simpl.
  - split; [|done]. intros k c. simpl.
    intros [[<- <-]|[_ Hc]]%lookup_insert_Some; [|by apply (Hok k)].
    split; [done|]. simpl. lia.
  - unfold attest_answer. simpl.
    destruct (attest_cases now rnd req st) as
      [[Ho ->]|(k & _ & [(Ho & -> & _)|[(Ho & Hst & c & Hc & Hu)|[(Ho & Hst & _)|
         (Ho & Hst & _)]]])]; rewrite ?Ho.
    + by split.
    + by split.
    + destruct (Hok _ _ Hc) as [Hf _]. congruence.
    + split; [|done]. intros k' c'. rewrite Hst.
      intros [_ ?]%lookup_delete_Some. by apply (Hok k').
    + split.
      * intros k' c'. rewrite Hst. intros [_ ?]%lookup_delete_Some. by apply (Hok k').
      * intros [= Heq]. rewrite Heq in Ho. discriminate.
  - split; [|done]. intros k c. rewrite attest_verify_challenges. apply Hok.
  - split; [|done]. intros k c [? _]%map_lookup_filter_Some. by apply (Hok k).
Qed.

(** X1. In every run of the secure-mode server from its start, every stored
    challenge is unused and expires 60 s after its creation, and no
    [/attest] call is answered with the replay error: a nonce that was used
    is gone, so a replayed nonce is answered as an invalid one. *)
Theorem attest_replay_never_answered ops :
  attest_store_ok (Attest.run ops Attest.init).1 ∧
  Forall (λ ev, attest_answer ev ≠ Some Attest.ReplayDetected)
    (Attest.run ops Attest.init).2.
Proof.
  apply (run_invariant Attest.step attest_store_ok
    (λ ev, attest_answer ev ≠ Some Attest.ReplayDetected)).
  - intros op st. apply attest_step_store.
  - intros n c. simpl. by rewrite lookup_empty.
Qed.

Lemma server_step_store pw op st :
  server_store_ok st →
  server_store_ok (Server.step pw op st).1 ∧
  server_answer (op, (Server.step pw op st).2) ≠ Some (inr Server.NonceUsed).
Proof.
  intros Hok. pose proof (admin_frame pw op st) as Hadm.
  destruct op as [clk code n key|clk key req|now| | | | | |];
    try (split; [|done]; intros k c; rewrite (proj1 Hadm); apply Hok); simpl.
  - split; [|done]. unfold Server.api_challenge.
    pose proof (validateApiKey_frame clk key st) as [Hf _].
    destruct (Server.validateApiKey clk key st) as [st1 [d|client]]; simpl in *.
    + intros k c. rewrite Hf. apply Hok.
    + intros k c. simpl. intros [[<- <-]|[_ Hc]]%lookup_insert_Some.
      * split; [done|]. simpl. lia.
      * rewrite Hf in Hc. by apply (Hok k).
  - unfold server_answer, Server.api_verify. simpl.
    pose proof (validateApiKey_frame clk key st) as [Hf _].
    destruct (Server.validateApiKey clk key st) as [st1 [d|client]]; simpl in *.
    { split; [|done]. intros k c. rewrite Hf. apply Hok. }
    assert (server_store_ok st1) as Hok1.
    { intros k c. rewrite Hf. apply Hok. }
    destruct (verify_handler_cases clk client req st1) as
      [[Ho ->]|(k & _ & [(Ho & -> & _)|[(Ho & -> & _)|[(Ho & Hst & c & Hc & Hu)|
         [(Ho & Hst & _)|(Ho & Hst & _)]]]])]; rewrite ?Ho.
    + by split.
    + by split.
    + by split.
    + destruct (Hok1 _ _ Hc) as [Hf' _]. congruence.
    + split; [|done]. intros k' c'. rewrite Hst.
      intros [_ ?]%lookup_delete_Some. by apply (Hok1 k').
    + split.
      * intros k' c'. rewrite Hst. intros [_ ?]%lookup_delete_Some.
        by apply (Hok1 k').
      * intros [= Heq]. rewrite Heq in Ho. discriminate.
  - split; [|done]. intros k c [? _]%map_lookup_filter_Some. by apply (Hok k).
Qed.

(** X2. The same on the production server: in every run from its start,
    whatever the admin password and the requests, every stored challenge is
    unused and expires 60 s after its creation, and no [/api/v1/verify]
    call is answered [Nonce already used]. *)
Theorem server_nonce_used_never_answered pw ops :
  server_store_ok (Server.run pw ops Server.init).1 ∧
  Forall (λ ev, server_answer ev ≠ Some (inr Server.NonceUsed))
    (Server.run pw ops Server.init).2.
Proof.
  apply (run_invariant (Server.step pw) server_store_ok
    (λ ev, server_answer ev ≠ Some (inr Server.NonceUsed))).
  - intros op st. apply server_step_store.
  - intros n c. simpl. by rewrite lookup_empty.
Qed.

(** ** Stored sessions *)

Lemma attest_session_minted now rnd req st :
  Attest.sessions (Attest.attest now rnd req st).1 = Attest.sessions st ∨
  ∃ s, Attest.sessions (Attest.attest now rnd req st).1 =
         <["VALID_" +:+ rnd := s]> (Attest.sessions st) ∧
    Attest.s_status s = "VERIFIED" ∧ Attest.s_riskScore s ≠ CRITICAL ∧
    Attest.s_createdAt s = now ∧ Attest.s_expiry s = now + 300000.
Proof.
  unfold Attest.attest.
  destruct (Attest.nonce req) as [n|], (Attest.deviceId req) as [d|],
    (Attest.userResponse req) as [r|], (Attest.biometricData req) as [b|];
    try (by left).
  destruct (_ || _); [by left|].
  destruct (Attest.consume _ _ _) as [m []]; try (by left).
  destruct (String.eqb _ _); [by left|].
  destruct (motion b), (touch b), (pattern b); try (by left).
  destruct (_ && _); [|by left].
  right. eexists. split; [done|]. simpl. repeat split; try done.
  apply classify_not_CRITICAL.
Qed.

Lemma attest_step_sessions_ok op st :
  attest_sessions_ok st → attest_sessions_ok (Attest.step op st).1.
Proof.
  intros Hok. destruct op as [now code n|now rnd req|now tok|now]; simpl.
  - done.
  - destruct (attest_session_minted now rnd req st) as
      [Heq|(s & Heq & Hs & Hr & Hc & He)]; intros tok s'; rewrite Heq;
      [apply Hok|].
    intros [[<- <-]|[_ ?]]%lookup_insert_Some; [|by apply (Hok tok)].
    repeat split; try done; [by eexists|lia].
  - unfold Attest.verify. destruct (falsy tok); [done|].
    destruct tok as [tok|]; [|done].
    destruct (Attest.sessions st !! tok); [|done].
    destruct (_ <? _); [|done]. simpl.
    intros tok' s'. simpl. intros [_ ?]%lookup_delete_Some. by apply (Hok tok').
  - intros tok s. simpl. intros [? _]%map_lookup_filter_Some. by apply (Hok tok).
Qed.

(** X3. In every run of the secure-mode server from its start, every
    stored session has a token with the prefix [VALID_], the status
    VERIFIED, a risk score other than CRITICAL, and an expiry 300 s after
    its creation: no session is ever stored for a panic approval. *)
Theorem attest_sessions_are_normal ops :
  attest_sessions_ok (Attest.run ops Attest.init).1.
Proof.
  apply (run_invariant Attest.step attest_sessions_ok (λ _, True)).
  - intros op st Hok. split; [by apply attest_step_sessions_ok|done].
  - intros tok s. simpl. by rewrite lookup_empty.
Qed.

(** ** The counters count the answers *)

Lemma count_events_cons {A} (f : A → bool) (ev : A) (tr : list A) :
  count_events f (ev :: tr) = Z.b2z (f ev) + count_events f tr.
Proof. unfold count_events. simpl. destruct (f ev); simpl; lia. Qed.

Lemma attest_step_counters op st :
  let s := Attest.stats st in
  let s' := Attest.stats (Attest.step op st).1 in
  let ev := (op, (Attest.step op st).2) in
  Attest.totalChallenges s' = Attest.totalChallenges s + Z.b2z (attest_ev_issued ev) ∧
  Attest.totalAttestations s' =
    Attest.totalAttestations s + Z.b2z (attest_ev_approved ev) ∧
  Attest.successfulAttestations s' =
    Attest.successfulAttestations s + Z.b2z (attest_ev_approved ev) ∧
  Attest.failedAttestations s' =
    Attest.failedAttestations s + Z.b2z (attest_ev_failed ev) ∧
  Attest.panicModeActivations s' =
    Attest.panicModeActivations s + Z.b2z (attest_ev_panic ev) ∧
  Attest.totalVerifications s' =
    Attest.totalVerifications s + Z.b2z (attest_ev_validated ev).
Proof.
  destruct op as [now code n|now rnd req|now tok|now]; simpl.
  - repeat split; lia.
  - unfold Attest.attest, Attest.consume.
    repeat case_match; simpl; repeat split; lia.
  - unfold Attest.verify. repeat case_match; simpl; repeat split; lia.
  - repeat split; lia.
Qed.

Lemma attest_run_counters ops st :
  let s := Attest.stats st in
  let s' := Attest.stats (Attest.run ops st).1 in
  let tr := (Attest.run ops st).2 in
  Attest.totalChallenges s' =
    Attest.totalChallenges s + count_events attest_ev_issued tr ∧
  Attest.totalAttestations s' =
    Attest.totalAttestations s + count_events attest_ev_approved tr ∧
  Attest.successfulAttestations s' =
    Attest.successfulAttestations s + count_events attest_ev_approved tr ∧
  Attest.failedAttestations s' =
    Attest.failedAttestations s + count_events attest_ev_failed tr ∧
  Attest.panicModeActivations s' =
    Attest.panicModeActivations s + count_events attest_ev_panic tr ∧
  Attest.totalVerifications s' =
    Attest.totalVerifications s + count_events attest_ev_validated tr.
Proof.
  revert st. induction ops as [|op ops IH]; intros st.
  { unfold count_events. simpl. repeat split; lia. }
  cbv zeta. unfold Attest.run. rewrite run_trace_cons. cbn [fst snd].
  rewrite !count_events_cons.
  pose proof (attest_step_counters op st) as Hstep. cbv zeta in Hstep.
  pose proof (IH (Attest.step op st).1) as Hrun. cbv zeta in Hrun.
  unfold Attest.run in Hrun.
  destruct Hstep as (H1 & H2 & H3 & H4 & H5 & H6).
  destruct Hrun as (R1 & R2 & R3 & R4 & R5 & R6).
  rewrite R1, R2, R3, R4, R5, R6, H1, H2, H3, H4, H5, H6.
  repeat split; lia.
Qed.

(** X4. After any run of the secure-mode server from its start the
    counters are exact counts of the answers given: [totalChallenges] of
    the challenges issued, [successfulAttestations] and [totalAttestations]
    both of the normal approvals, [panicModeActivations] of the panic
    approvals, [failedAttestations] of the replay, expired, bad-format and
    denied answers, and [totalVerifications] of the session validations
    that were given a token.  So [totalAttestations] leaves out every
    failure and every panic approval, and a call with missing fields or an
    unknown nonce is counted nowhere. *)
Theorem attest_counters_count_answers ops :
  let s := Attest.stats (Attest.run ops Attest.init).1 in
  let tr := (Attest.run ops Attest.init).2 in
  Attest.totalChallenges s = count_events attest_ev_issued tr ∧
  Attest.totalAttestations s = count_events attest_ev_approved tr ∧
  Attest.successfulAttestations s = count_events attest_ev_approved tr ∧
  Attest.failedAttestations s = count_events attest_ev_failed tr ∧
  Attest.panicModeActivations s = count_events attest_ev_panic tr ∧
  Attest.totalVerifications s = count_events attest_ev_validated tr.
Proof. exact (attest_run_counters ops Attest.init). Qed.

Lemma validateApiKey_counters clk key st :
  let s := Server.stats st in
  let res := Server.validateApiKey clk key st in
  Server.totalChallenges (Server.stats res.1) = Server.totalChallenges s ∧
  Server.totalVerifications (Server.stats res.1) = Server.totalVerifications s ∧
  Server.successfulVerifications (Server.stats res.1) =
    Server.successfulVerifications s ∧
  Server.failedVerifications (Server.stats res.1) = Server.failedVerifications s ∧
  Server.blockedRequests (Server.stats res.1) =
    Server.blockedRequests s + (if res.2 is inl _ then 1 else 0).
Proof.
  unfold Server.validateApiKey.
  destruct key as [key|]; [|simpl; repeat split; lia].
  destruct (falsy _); [simpl; repeat split; lia|].
  destruct (Server.clients st !! key) as [c|]; [|simpl; repeat split; lia].
  destruct (Server.status c); try (simpl; repeat split; lia).
  destruct (Server.subscription_over clk c); [simpl; repeat split; lia|].
  destruct (Server.checkMonthlyReset clk c _).
  destruct (_ && _); simpl; repeat split; lia.
Qed.

Lemma verify_handler_counters clk client req st :
  let s := Server.stats st in
  let res := Server.verify_handler clk client req st in
  let ev := (Server.OpVerify clk None req, Server.OutVerify (inr res.2)) in
  Server.totalChallenges (Server.stats res.1) = Server.totalChallenges s ∧
  Server.totalVerifications (Server.stats res.1) =
    Server.totalVerifications s + Z.b2z (server_ev_approved ev)
      + Z.b2z (server_ev_denied ev) ∧
  Server.successfulVerifications (Server.stats res.1) =
    Server.successfulVerifications s + Z.b2z (server_ev_approved ev) ∧
  Server.failedVerifications (Server.stats res.1) =
    Server.failedVerifications s + Z.b2z (server_ev_denied ev)
      + Z.b2z (server_ev_stale ev) ∧
  Server.blockedRequests (Server.stats res.1) = Server.blockedRequests s.
Proof.
  unfold Server.verify_handler.
  destruct (Server.nonce req) as [n|], (Server.userResponse req) as [r|],
    (Server.biometricData req) as [b|]; try (simpl; repeat split; lia).
  destruct (falsy _); [simpl; repeat split; lia|].
  destruct (Server.consume _ _ _ _) as [m []]; try (simpl; repeat split; lia).
  destruct (_ && _); [|simpl; repeat split; lia].
  destruct (Server.checkMonthlyReset _ _ _). simpl. repeat split; lia.
Qed.

Lemma server_step_counters pw op st :
  let s := Server.stats st in
  let s' := Server.stats (Server.step pw op st).1 in
  let ev := (op, (Server.step pw op st).2) in
  Server.totalChallenges s' = Server.totalChallenges s + Z.b2z (server_ev_issued ev) ∧
  Server.totalVerifications s' =
    Server.totalVerifications s + Z.b2z (server_ev_approved ev)
      + Z.b2z (server_ev_denied ev) ∧
  Server.successfulVerifications s' =
    Server.successfulVerifications s + Z.b2z (server_ev_approved ev) ∧
  Server.failedVerifications s' =
    Server.failedVerifications s + Z.b2z (server_ev_denied ev)
      + Z.b2z (server_ev_stale ev) ∧
  Server.blockedRequests s' = Server.blockedRequests s + Z.b2z (server_ev_blocked ev).
Proof.
  destruct op as [clk code n key|clk key req|now| | | | | |]; simpl;
    try (unfold Server.admin_add, Server.admin_block, Server.admin_unblock,
           Server.admin_renew, Server.admin_delete, Server.admin_list;
         repeat case_match; simpl; repeat split; lia).
  - unfold Server.api_challenge.
    pose proof (validateApiKey_counters clk key st) as Hg. cbv zeta in Hg.
    destruct (Server.validateApiKey clk key st) as [st1 [d|client]];
      simpl in *; repeat split; lia.
  - unfold Server.api_verify.
    pose proof (validateApiKey_counters clk key st) as Hg. cbv zeta in Hg.
    destruct (Server.validateApiKey clk key st) as [st1 [d|client]]; simpl in *.
    { repeat split; lia. }
    pose proof (verify_handler_counters clk client req st1) as Hh.
    cbv zeta in Hh. unfold server_ev_approved, server_ev_denied, server_ev_stale,
      server_ev_blocked in *. simpl in *.
    destruct Hh as (H1 & H2 & H3 & H4 & H5).
    rewrite H1, H2, H3, H4, H5. repeat split; lia.
Qed.

Lemma server_run_counters pw ops st :
  let s := Server.stats st in
  let s' := Server.stats (Server.run pw ops st).1 in
  let tr := (Server.run pw ops st).2 in
  Server.totalChallenges s' =
    Server.totalChallenges s + count_events server_ev_issued tr ∧
  Server.totalVerifications s' =
    Server.totalVerifications s + count_events server_ev_approved tr
      + count_events server_ev_denied tr ∧
  Server.successfulVerifications s' =
    Server.successfulVerifications s + count_events server_ev_approved tr ∧
  Server.failedVerifications s' =
    Server.failedVerifications s + count_events server_ev_denied tr
      + count_events server_ev_stale tr ∧
  Server.blockedRequests s' =
    Server.blockedRequests s + count_events server_ev_blocked tr.
Proof.
  revert st. induction ops as [|op ops IH]; intros st.
  { unfold count_events. simpl. repeat split; lia. }
  cbv zeta. unfold Server.run. rewrite run_trace_cons. cbn [fst snd].
  rewrite !count_events_cons.
  pose proof (server_step_counters pw op st) as Hstep. cbv zeta in Hstep.
  pose proof (IH (Server.step pw op st).1) as Hrun. cbv zeta in Hrun.
  unfold Server.run in Hrun.
  destruct Hstep as (H1 & H2 & H3 & H4 & H5).
  destruct Hrun as (R1 & R2 & R3 & R4 & R5).
  rewrite R1, R2, R3, R4, R5, H1, H2, H3, H4, H5.
  repeat split; lia.
Qed.

(** X5. After any run of the production server from its start:
    [totalChallenges] counts the challenges issued, [blockedRequests] the
    requests the API-key gate turned away, [successfulVerifications] the
    approvals, [totalVerifications] the approvals and the denials, and
    [failedVerifications] the denials and the refusals for an expired (or
    used) nonce.  So a refusal for an expired nonce is a failed verification
    that is not in [totalVerifications], and a refusal for an unknown nonce,
    a foreign nonce or missing fields is counted nowhere. *)
Theorem server_counters_count_answers pw ops :
  let s := Server.stats (Server.run pw ops Server.init).1 in
  let tr := (Server.run pw ops Server.init).2 in
  Server.totalChallenges s = count_events server_ev_issued tr ∧
  Server.totalVerifications s =
    count_events server_ev_approved tr + count_events server_ev_denied tr ∧
  Server.successfulVerifications s = count_events server_ev_approved tr ∧
  Server.failedVerifications s =
    count_events server_ev_denied tr + count_events server_ev_stale tr ∧
  Server.blockedRequests s = count_events server_ev_blocked tr.
Proof. exact (server_run_counters pw ops Server.init). Qed.

(** ** What no request changes in a client row *)

Lemma same_identity_refl c : same_identity c c.
Proof. by repeat split. Qed.

Lemma same_identity_trans c1 c2 c3 :
  same_identity c1 c2 → same_identity c2 c3 → same_identity c1 c3.
Proof.
  intros (?&?&?&?&?) (?&?&?&?&?). repeat split; congruence.
Qed.

Lemma db_updated_refl db : db_updated db db.
Proof.
  intros k. destruct (db !! k); constructor. apply same_identity_refl.
Qed.

Lemma db_updated_trans db1 db2 db3 :
  db_updated db1 db2 → db_updated db2 db3 → db_updated db1 db3.
Proof.
  intros H12 H23 k. specialize (H12 k). specialize (H23 k).
  destruct H12 as [c1 c2 H12|]; inversion H23; subst; constructor.
  by eapply same_identity_trans.
Qed.

Lemma stmtUpdateClient_updated s e u l t key db :
  db_updated db (Server.stmtUpdateClient s e u l t key db).
Proof.
  intros k. rewrite stmtUpdateClient_lookup.
  destruct (decide (key = k)) as [->|]; [|apply db_updated_refl].
  destruct (db !! k); constructor. by repeat split.
Qed.

Lemma checkMonthlyReset_updated clk c db :
  db_updated db (Server.checkMonthlyReset clk c db).2.
Proof.
  unfold Server.checkMonthlyReset. case_bool_decide; [|apply db_updated_refl].
  apply stmtUpdateClient_updated.
Qed.

Lemma validateApiKey_updated clk key st :
  db_updated (Server.clients st) (Server.clients (Server.validateApiKey clk key st).1).
Proof.
  unfold Server.validateApiKey.
  destruct key as [key|]; [|apply db_updated_refl].
  destruct (falsy _); [apply db_updated_refl|].
  destruct (Server.clients st !! key) as [c|]; [|apply db_updated_refl].
  destruct (Server.status c); try apply db_updated_refl.
  destruct (Server.subscription_over clk c); [apply stmtUpdateClient_updated|].
  pose proof (checkMonthlyReset_updated clk c (Server.clients st)) as Hu.
  destruct (Server.checkMonthlyReset clk c _). by destruct (_ && _).
Qed.

Lemma verify_handler_updated clk client req st :
  db_updated (Server.clients st)
    (Server.clients (Server.verify_handler clk client req st).1).
Proof.
  unfold Server.verify_handler.
  destruct (Server.nonce req) as [n|], (Server.userResponse req) as [r|],
    (Server.biometricData req) as [b|]; try apply db_updated_refl.
  destruct (falsy _); [apply db_updated_refl|].
  destruct (Server.consume _ _ _ _) as [m []]; try apply db_updated_refl.
  destruct (_ && _); [|apply db_updated_refl].
  pose proof (checkMonthlyReset_updated clk client (Server.clients st)) as Hu.
  cbn [Server.clients Server.with_challenges].
  destruct (Server.checkMonthlyReset clk client _). simpl in *.
  eapply db_updated_trans; [exact Hu|apply stmtUpdateClient_updated].
Qed.

(** Every row after a request is a row from before with the same identity,
    or the row a successful [/admin/clients/add] has just inserted. *)
Lemma server_step_rows pw op st k c' :
  Server.clients (Server.step pw op st).1 !! k = Some c' →
  (∃ c, Server.clients st !! k = Some c ∧ same_identity c c') ∨
  (Server.clients st !! k = None ∧ Server.monthly_limit c' ≠ 0 ∧
   Server.status c' = Server.active ∧ Server.used_this_month c' = 0 ∧
   Server.total_verifications c' = 0 ∧ Server.api_key c' = k ∧
   ∃ rnd, k = "zk_live_" +:+ rnd).
Proof.
  assert (∀ db', db_updated (Server.clients st) db' → db' !! k = Some c' →
    ∃ c, Server.clients st !! k = Some c ∧ same_identity c c') as Hupd.
  { intros db' Hu Hk. specialize (Hu k). rewrite Hk in Hu.
    inversion Hu; subst. by eexists. }
  assert (Server.clients st !! k = Some c' →
    ∃ c, Server.clients st !! k = Some c ∧ same_identity c c') as Hsame.
  { intros ?. exists c'. split; [done|apply same_identity_refl]. }
  destruct op as [clk code n key|clk key req|now|pw' clk rnd name plan lim days
    |pw' key|pw' key|pw' clk key days|pw' key logged|pw' clk]; simpl.
  - intros Hk. left. apply (Hupd _ (validateApiKey_updated clk key st)).
    unfold Server.api_challenge in Hk.
    by destruct (Server.validateApiKey clk key st) as [st1 [d|client]].
  - intros Hk. left. unfold Server.api_verify in Hk.
    pose proof (validateApiKey_updated clk key st) as Hg.
    destruct (Server.validateApiKey clk key st) as [st1 [d|client]]; simpl in *.
    + by apply (Hupd _ Hg).
    + apply (Hupd (Server.clients (Server.verify_handler clk client req st1).1));
        [|done].
      eapply db_updated_trans; [exact Hg|apply verify_handler_updated].
  - intros Hk. left. by apply Hsame.
  - unfold Server.admin_add. destruct (negb _); [by left; apply Hsame|].
    destruct name as [name|]; [|by left; apply Hsame].
    destruct (falsy _); [by left; apply Hsame|].
    destruct (_ && _); [by left; apply Hsame|].
    destruct (Server.clients st !! ("zk_live_" +:+ rnd)) eqn:Hnew;
      [by left; apply Hsame|].
    simpl. intros [[<- <-]|[_ ?]]%lookup_insert_Some; [|by left; apply Hsame].
    right. simpl. repeat split; try done; [|by eexists].
    unfold Server.or_else.
    destruct lim as [x|]; [destruct (Z.eqb_spec x 0); [|done]|];
      (destruct (Server.PLANS plan) as [y|]; [|done]);
      by destruct (Z.eqb_spec y 0).
  - unfold Server.admin_block. destruct (negb _); [by left; apply Hsame|].
    destruct (Server.clients st !! key) eqn:Hrow; [|by left; apply Hsame].
    intros Hk. left. apply (Hupd _ (stmtUpdateClient_updated _ _ _ _ _ _ _) Hk).
  - unfold Server.admin_unblock. destruct (negb _); [by left; apply Hsame|].
    destruct (Server.clients st !! key) eqn:Hrow; [|by left; apply Hsame].
    intros Hk. left. apply (Hupd _ (stmtUpdateClient_updated _ _ _ _ _ _ _) Hk).
  - unfold Server.admin_renew. destruct (negb _); [by left; apply Hsame|].
    destruct (Server.clients st !! key) eqn:Hrow; [|by left; apply Hsame].
    intros Hk. left. apply (Hupd _ (stmtUpdateClient_updated _ _ _ _ _ _ _) Hk).
  - unfold Server.admin_delete. destruct (negb _); [by left; apply Hsame|].
    destruct (Server.clients st !! key) eqn:Hrow; [|by left; apply Hsame].
    destruct logged; [by left; apply Hsame|].
    simpl. intros [_ ?]%lookup_delete_Some. left. by apply Hsame.
  - unfold Server.admin_list. destruct (negb _); [by left; apply Hsame|].
    simpl. intros Hk. left. revert Hk. apply Hupd.
    apply (map_fold_weak_ind (λ db' _, db_updated (Server.clients st) db'));
      [apply db_updated_refl|].
    intros i x m db' _ Hu.
    eapply db_updated_trans; [exact Hu|apply checkMonthlyReset_updated].
Qed.

(** X6. No request of the production server, whether to the API or to the
    admin endpoints, changes the key, name, plan, creation time or monthly
    limit of a stored client: a row that is there before and after a
    request has all five as before. *)
Theorem client_identity_is_fixed pw op st k c c' :
  Server.clients st !! k = Some c →
  Server.clients (Server.step pw op st).1 !! k = Some c' →
  Server.api_key c' = Server.api_key c ∧ Server.name c' = Server.name c ∧
  Server.plan c' = Server.plan c ∧ Server.created_at c' = Server.created_at c ∧
  Server.monthly_limit c' = Server.monthly_limit c.
Proof.
  intros Hc Hc'.
  destruct (server_step_rows pw op st k c' Hc') as [(c0 & Hc0 & Hid)|[Hnone _]];
    [|congruence].
  rewrite Hc in Hc0. by injection Hc0 as <-.
Qed.

Lemma client_identity_is_fixed_witness :
  ∃ c', Server.clients
          (Server.step "pw"
             (Server.OpAdminRenew (Some "pw") (clk_at 1000) "zk_live_00ff" (Some 7))
             server_st419).1 !! "zk_live_00ff" = Some c' ∧
    Server.monthly_limit c' = 5000 ∧ Server.name c' = "Acme".
Proof.
  eexists. split; [reflexivity|].
  destruct (client_identity_is_fixed "pw"
    (Server.OpAdminRenew (Some "pw") (clk_at 1000) "zk_live_00ff" (Some 7))
    server_st419 "zk_live_00ff" acme _ eq_refl eq_refl) as (_ & Hn & _ & _ & Hl).
  split; [exact Hl|exact Hn].
Defined.

Lemma server_step_limits pw op st :
  (∀ k c, Server.clients st !! k = Some c →
     Server.monthly_limit c ≠ 0 ∧ Server.api_key c = k ∧
     ∃ rnd, k = "zk_live_" +:+ rnd) →
  ∀ k c, Server.clients (Server.step pw op st).1 !! k = Some c →
     Server.monthly_limit c ≠ 0 ∧ Server.api_key c = k ∧
     ∃ rnd, k = "zk_live_" +:+ rnd.
Proof.
  intros Hinv k c' Hc'.
  destruct (server_step_rows pw op st k c' Hc') as
    [(c & Hc & (Hk & _ & _ & _ & Hl))|(_ & Hl & _ & _ & _ & Hk & Hrnd)]; [|done].
  destruct (Hinv k c Hc) as (H0 & Hkey & Hrnd). rewrite Hl, Hk. done.
Qed.

(** X7. In every state the production server reaches from its start, every
    client is stored under its own key, the key begins with [zk_live_], and
    its monthly limit is not 0: [monthlyLimit || PLANS[plan] || 5000] turns
    the 0 of the unlimited plan, like an absent or zero [monthlyLimit], into
    5000, so a client created on the unlimited plan is limited to 5000. *)
Theorem stored_limit_is_never_zero :
  (∀ pw ops k c,
     Server.clients (Server.run pw ops Server.init).1 !! k = Some c →
     Server.monthly_limit c ≠ 0 ∧ Server.api_key c = k ∧
     ∃ rnd, k = "zk_live_" +:+ rnd) ∧
  (∀ pw clk rnd name durationDays st key plan limit,
     (Server.admin_add pw (Some pw) clk rnd name (Some "unlimited") None
        durationDays st).2 = Server.ClientCreated key plan limit →
     plan = "unlimited" ∧ limit = 5000 ∧
     ∃ c, Server.clients
            (Server.admin_add pw (Some pw) clk rnd name (Some "unlimited") None
               durationDays st).1 !! key = Some c ∧
          Server.monthly_limit c = 5000).
Proof.
  split.
  - intros pw ops.
    apply (run_invariant (Server.step pw)
      (λ st, ∀ k c, Server.clients st !! k = Some c →
         Server.monthly_limit c ≠ 0 ∧ Server.api_key c = k ∧
         ∃ rnd, k = "zk_live_" +:+ rnd) (λ _, True)).
    + intros op st Hinv. split; [by apply server_step_limits|done].
    + intros k c. simpl. by rewrite lookup_empty.
  - intros pw clk rnd name days st key plan limit. unfold Server.admin_add.
    destruct (negb _); [done|]. destruct name as [name|]; [|done].
    destruct (falsy (Some name)); [done|].
    destruct (_ && _); [done|].
    destruct (Server.clients st !! ("zk_live_" +:+ rnd)); [done|].
    simpl. intros [= <- <- <-]. repeat split.
    eexists. by rewrite lookup_insert_eq.
Qed.

(** X8. An admin request whose password is not the configured one changes
    nothing and is answered [Invalid admin password], whichever of the six
    admin endpoints it is sent to and whatever else it carries; the stats
    endpoint gives it no report. *)
Theorem wrong_password_changes_nothing pw op st :
  is_admin_op op = true → admin_password op ≠ Some pw →
  Server.step pw op st = (st, Server.OutAdmin Server.InvalidAdminPassword) ∧
  ∀ start now, admin_stats pw (admin_password op) start now st = None.
Proof.
  intros Hop Hpw.
  assert (Server.validateAdmin pw (admin_password op) = false) as Hv.
  { unfold Server.validateAdmin. by apply bool_decide_eq_false_2. }
  split.
  - destruct op; try done; simpl in *;
      unfold Server.admin_add, Server.admin_block, Server.admin_unblock,
        Server.admin_renew, Server.admin_delete, Server.admin_list;
      by rewrite Hv.
  - intros start now. unfold admin_stats. by rewrite Hv.
Qed.

Lemma wrong_password_changes_nothing_witness :
  Server.step "pw" (Server.OpAdminDelete (Some "guess") "zk_live_00ff" false)
    server_st419 =
    (server_st419, Server.OutAdmin Server.InvalidAdminPassword).
Proof.
  refine (proj1 (wrong_password_changes_nothing "pw"
    (Server.OpAdminDelete (Some "guess") "zk_live_00ff" false) server_st419 _ _)).
  - reflexivity.
  - discriminate.
Defined.

(** ** The life of a tenant *)

Lemma validateApiKey_not_active clk key st c :
  key ≠ "" → Server.clients st !! key = Some c →
  Server.status c ≠ Server.active →
  Server.validateApiKey clk (Some key) st =
    (Server.with_stats Server.blockedRequests_incr st,
     inl (Server.AccountNotActive (Server.status c))).
Proof.
  intros Hkey%falsy_Some Hc Hs. unfold Server.validateApiKey.
  rewrite Hkey, Hc. by destruct (Server.status c).
Qed.

Lemma api_challenge_denied clk code n key st d :
  (Server.validateApiKey clk key st).2 = inl d →
  (Server.api_challenge clk code n key st).2 = inl d ∧
  Server.activeChallenges (Server.api_challenge clk code n key st).1 =
    Server.activeChallenges st.
Proof.
  unfold Server.api_challenge.
  pose proof (validateApiKey_frame clk key st) as [Hf _].
  destruct (Server.validateApiKey clk key st) as [st1 [d'|client]]; simpl in *;
    [|done]. by intros [= ->].
Qed.

Lemma api_verify_denied clk key req st d :
  (Server.validateApiKey clk key st).2 = inl d →
  (Server.api_verify clk key req st).2 = inl d ∧
  Server.activeChallenges (Server.api_verify clk key req st).1 =
    Server.activeChallenges st.
Proof.
  unfold Server.api_verify.
  pose proof (validateApiKey_frame clk key st) as [Hf _].
  destruct (Server.validateApiKey clk key st) as [st1 [d'|client]]; simpl in *;
    [|done]. by intros [= ->].
Qed.

(** X9. When the gate meets an active client whose [expires_at] is set and
    in the past, it answers SUBSCRIPTION_EXPIRED and writes the status
    expired to the row, leaving the other columns; a request with that key
    that comes next, at whatever time, is answered ACCOUNT_EXPIRED by the
    gate, and neither issues a challenge nor consumes one. *)
Theorem subscription_expiry_is_recorded clk key st c e :
  key ≠ "" → Server.clients st !! key = Some c → Server.api_key c = key →
  Server.status c = Server.active →
  Server.expires_at c = Some e → e ≠ 0 → e < Server.now clk →
  let res := Server.validateApiKey clk (Some key) st in
  res.2 = inl Server.SubscriptionExpired ∧
  (∃ c', Server.clients res.1 !! key = Some c' ∧
     Server.status c' = Server.expired ∧
     Server.expires_at c' = Server.expires_at c ∧
     Server.used_this_month c' = Server.used_this_month c ∧
     Server.last_reset_month c' = Server.last_reset_month c ∧
     Server.total_verifications c' = Server.total_verifications c) ∧
  (∀ clk', (Server.validateApiKey clk' (Some key) res.1).2 =
             inl (Server.AccountNotActive Server.expired)) ∧
  (∀ clk' code n,
     (Server.api_challenge clk' code n (Some key) res.1).2 =
       inl (Server.AccountNotActive Server.expired) ∧
     Server.activeChallenges (Server.api_challenge clk' code n (Some key) res.1).1 =
       Server.activeChallenges st) ∧
  (∀ clk' req,
     (Server.api_verify clk' (Some key) req res.1).2 =
       inl (Server.AccountNotActive Server.expired) ∧
     Server.activeChallenges (Server.api_verify clk' (Some key) req res.1).1 =
       Server.activeChallenges st) ∧
  field "code" (Server.gate_response (Server.AccountNotActive Server.expired)) =
    Some (JStr "ACCOUNT_EXPIRED").
Proof.
  intros Hkey Hc Hk Hs He H0 Hlt res.
  assert (Server.subscription_over clk c = true) as Hover.
  { unfold Server.subscription_over. rewrite He.
    destruct (Z.eqb_spec e 0); [done|]. simpl. by apply Z.ltb_lt. }
  assert (res = (Server.with_stats Server.blockedRequests_incr
            (Server.with_clients
               (Server.stmtUpdateClient Server.expired (Server.expires_at c)
                  (Server.used_this_month c) (Server.last_reset_month c)
                  (Server.total_verifications c) key (Server.clients st)) st),
          inl Server.SubscriptionExpired)) as Hres.
  { subst res. unfold Server.validateApiKey.
    apply falsy_Some in Hkey. by rewrite Hkey, Hc, Hs, Hover, Hk. }
  assert (∃ c', Server.clients res.1 !! key = Some c' ∧
     Server.status c' = Server.expired ∧
     Server.expires_at c' = Server.expires_at c ∧
     Server.used_this_month c' = Server.used_this_month c ∧
     Server.last_reset_month c' = Server.last_reset_month c ∧
     Server.total_verifications c' = Server.total_verifications c) as Hrow.
  { rewrite Hres. simpl. rewrite stmtUpdateClient_lookup, Hc.
    rewrite decide_True by done. by eexists. }
  destruct Hrow as (c' & Hc' & Hs' & Hrest).
  assert (∀ clk', Server.validateApiKey clk' (Some key) res.1 =
    (Server.with_stats Server.blockedRequests_incr res.1,
     inl (Server.AccountNotActive Server.expired))) as Hgate.
  { intros clk'. rewrite <- Hs'.
    apply validateApiKey_not_active; [done..|]. by rewrite Hs'. }
  assert (Server.activeChallenges res.1 = Server.activeChallenges st) as Hch.
  { by rewrite Hres. }
  split; [by rewrite Hres|]. split; [by exists c'|].
  split; [intros clk'; by rewrite Hgate|].
  split; [|split; [|done]].
  - intros clk' code n.
    destruct (api_challenge_denied clk' code n (Some key) res.1
      (Server.AccountNotActive Server.expired)) as [-> ->]; [by rewrite Hgate|done].
  - intros clk' req.
    destruct (api_verify_denied clk' (Some key) req res.1
      (Server.AccountNotActive Server.expired)) as [-> ->]; [by rewrite Hgate|done].
Qed.

Lemma subscription_expiry_is_recorded_witness :
  (Server.validateApiKey (clk_at (31 * 86400000)) (Some "zk_live_00ff")
     server_st419).2 = inl Server.SubscriptionExpired.
Proof.
  refine (proj1 (subscription_expiry_is_recorded (clk_at (31 * 86400000))
    "zk_live_00ff" server_st419 acme (30 * 86400000) _ _ _ _ _ _ _)); try done.
Defined.

(** X10. After the admin has blocked a stored client, every request with
    its key is answered ACCOUNT_BLOCKED by the gate at any time: no
    challenge is issued and a pending challenge is neither verified nor
    consumed.  Only the status column is written, so unblocking a client
    that was active before the block restores the client table as it was. *)
Theorem block_then_unblock pw key st c :
  key ≠ "" → Server.clients st !! key = Some c →
  let st1 := (Server.admin_block pw (Some pw) key st).1 in
  (∃ c', Server.clients st1 !! key = Some c' ∧
     Server.status c' = Server.blocked ∧
     Server.expires_at c' = Server.expires_at c ∧
     Server.used_this_month c' = Server.used_this_month c ∧
     Server.last_reset_month c' = Server.last_reset_month c ∧
     Server.total_verifications c' = Server.total_verifications c) ∧
  (∀ clk code n,
     (Server.api_challenge clk code n (Some key) st1).2 =
       inl (Server.AccountNotActive Server.blocked) ∧
     Server.activeChallenges (Server.api_challenge clk code n (Some key) st1).1 =
       Server.activeChallenges st) ∧
  (∀ clk req,
     (Server.api_verify clk (Some key) req st1).2 =
       inl (Server.AccountNotActive Server.blocked) ∧
     Server.activeChallenges (Server.api_verify clk (Some key) req st1).1 =
       Server.activeChallenges st) ∧
  (Server.status c = Server.active →
   Server.clients (Server.admin_unblock pw (Some pw) key st1).1 =
     Server.clients st) ∧
  field "code" (Server.gate_response (Server.AccountNotActive Server.blocked)) =
    Some (JStr "ACCOUNT_BLOCKED").
Proof.
  intros Hkey Hc st1.
  assert (st1 = Server.with_clients
    (Server.stmtUpdateClient Server.blocked (Server.expires_at c)
       (Server.used_this_month c) (Server.last_reset_month c)
       (Server.total_verifications c) key (Server.clients st)) st) as Hst1.
  { subst st1. unfold Server.admin_block, Server.validateAdmin.
    rewrite bool_decide_eq_true_2 by done. by rewrite Hc. }
  set (c1 := {| Server.api_key := Server.api_key c; Server.name := Server.name c;
                Server.plan := Server.plan c; Server.status := Server.blocked;
                Server.created_at := Server.created_at c;
                Server.expires_at := Server.expires_at c;
                Server.monthly_limit := Server.monthly_limit c;
                Server.used_this_month := Server.used_this_month c;
                Server.last_reset_month := Server.last_reset_month c;
                Server.total_verifications := Server.total_verifications c |}).
  assert (Server.clients st1 !! key = Some c1) as Hc1.
  { rewrite Hst1. simpl. rewrite stmtUpdateClient_lookup, Hc.
    by rewrite decide_True. }
  assert (∀ clk, Server.validateApiKey clk (Some key) st1 =
    (Server.with_stats Server.blockedRequests_incr st1,
     inl (Server.AccountNotActive Server.blocked))) as Hgate.
  { intros clk. by apply (validateApiKey_not_active clk key st1 c1). }
  assert (Server.activeChallenges st1 = Server.activeChallenges st) as Hch.
  { by rewrite Hst1. }
  split; [by exists c1|]. split; [|split; [|split; [|done]]].
  - intros clk code n.
    destruct (api_challenge_denied clk code n (Some key) st1
      (Server.AccountNotActive Server.blocked)) as [-> ->]; [by rewrite Hgate|done].
  - intros clk req.
    destruct (api_verify_denied clk (Some key) req st1
      (Server.AccountNotActive Server.blocked)) as [-> ->]; [by rewrite Hgate|done].
  - intros Hact. unfold Server.admin_unblock, Server.validateAdmin.
    rewrite bool_decide_eq_true_2 by done. rewrite Hc1. simpl.
    rewrite Hst1. simpl. apply map_eq. intros k.
    rewrite !stmtUpdateClient_lookup.
    destruct (decide (key = k)) as [<-|]; [|done].
    rewrite Hc. simpl. rewrite <- Hact. by destruct c.
Qed.

Lemma block_then_unblock_witness :
  Server.clients
    (Server.admin_unblock "pw" (Some "pw") "zk_live_00ff"
       (Server.admin_block "pw" (Some "pw") "zk_live_00ff" server_st419).1).1 =
    Server.clients server_st419.
Proof.
  refine (proj1 (proj2 (proj2 (proj2
    (block_then_unblock "pw" "zk_live_00ff" server_st419 acme _ _)))) _); done.
Defined.

(** X11. Renewing a stored client for a positive number of days (the
    default 30 included) makes the gate let it through the status and the
    expiry checks at the time of the renewal, whatever its status and
    expiry were: it is admitted, unless its monthly limit is positive and
    reached, in which case it is answered LIMIT_REACHED. *)
Theorem renew_reactivates pw clk key durationDays st c :
  key ≠ "" → Server.clients st !! key = Some c → Server.api_key c = key →
  0 < Server.or_else durationDays 30 →
  let st1 := (Server.admin_renew pw (Some pw) clk key durationDays st).1 in
  let res := Server.validateApiKey clk (Some key) st1 in
  let used := used_after_reset clk c in
  (0 < Server.monthly_limit c ∧ Server.monthly_limit c ≤ used →
   res.2 = inl (Server.LimitReached used (Server.monthly_limit c))) ∧
  (¬ (0 < Server.monthly_limit c ∧ Server.monthly_limit c ≤ used) →
   ∃ c', res.2 = inr c' ∧ Server.status c' = Server.active ∧
     Server.api_key c' = key ∧ Server.used_this_month c' = used).
Proof.
  intros Hkey Hc Hk Hdays st1 res used.
  set (e1 := (if Server.now clk <? default 0 (Server.expires_at c)
              then default 0 (Server.expires_at c) else Server.now clk)
             + Server.or_else durationDays 30 * 86400000).
  set (c1 := {| Server.api_key := Server.api_key c; Server.name := Server.name c;
                Server.plan := Server.plan c; Server.status := Server.active;
                Server.created_at := Server.created_at c;
                Server.expires_at := Some e1;
                Server.monthly_limit := Server.monthly_limit c;
                Server.used_this_month := Server.used_this_month c;
                Server.last_reset_month := Server.last_reset_month c;
                Server.total_verifications := Server.total_verifications c |}).
  assert (Server.clients st1 !! key = Some c1) as Hc1.
  { subst st1. unfold Server.admin_renew, Server.validateAdmin.
    rewrite bool_decide_eq_true_2 by done. rewrite Hc. simpl.
    rewrite stmtUpdateClient_lookup, Hc. by rewrite decide_True. }
  assert (Server.now clk < e1) as He1.
  { subst e1. destruct (Z.ltb_spec (Server.now clk)
      (default 0 (Server.expires_at c))); lia. }
  assert (Server.subscription_over clk c1 = false) as Hover.
  { unfold Server.subscription_over. simpl.
    destruct (Z.ltb_spec e1 (Server.now clk)); [lia|]. apply andb_false_r. }
  pose proof (validateApiKey_active clk key st1 c1 Hkey Hc1 Hk eq_refl Hover)
    as Hg. cbv zeta in Hg. fold res in Hg.
  pose proof (checkMonthlyReset_client clk c1 (Server.clients st1))
    as (Hk' & _ & _ & Hs' & _ & _ & _ & _ & _ & Hu').
  change (used_after_reset clk c1) with used in Hg.
  change (Server.monthly_limit c1) with (Server.monthly_limit c) in Hg.
  split.
  - intros [Hpos Hle]. rewrite Hg.
    destruct (Z.ltb_spec 0 (Server.monthly_limit c)); [|lia].
    by destruct (Z.leb_spec (Server.monthly_limit c) used); [|lia].
  - intros Hno. rewrite Hg.
    destruct (Z.ltb_spec 0 (Server.monthly_limit c)),
      (Z.leb_spec (Server.monthly_limit c) used); simpl; try lia;
      (eexists; split; [done|]; by rewrite Hs', Hk', Hu').
Qed.

Lemma renew_reactivates_witness :
  ∃ c', (Server.validateApiKey (clk_at (31 * 86400000)) (Some "zk_live_00ff")
           (Server.admin_renew "pw" (Some "pw") (clk_at (31 * 86400000))
              "zk_live_00ff" None server_st419).1).2 = inr c' ∧
    Server.status c' = Server.active.
Proof.
  destruct (proj2 (renew_reactivates "pw" (clk_at (31 * 86400000)) "zk_live_00ff"
    None server_st419 acme ltac:(discriminate) eq_refl eq_refl eq_refl))
    as (c' & Hr & Hs & _).
  - intros [_ H]. vm_compute in H. by apply H.
  - exists c'. by split.
Defined.

(** ** Issuing a challenge and answering it *)

Lemma validateApiKey_admitted clk key st client :
  (Server.validateApiKey clk key st).2 = inr client →
  ∃ k c, key = Some k ∧ k ≠ "" ∧ Server.clients st !! k = Some c ∧
    Server.status c = Server.active ∧ Server.subscription_over clk c = false ∧
    client = (Server.checkMonthlyReset clk c (Server.clients st)).1 ∧
    Server.clients (Server.validateApiKey clk key st).1 =
      (Server.checkMonthlyReset clk c (Server.clients st)).2 ∧
    Server.stats (Server.validateApiKey clk key st).1 = Server.stats st.
Proof.
  unfold Server.validateApiKey.
  destruct key as [k|]; [|done].
  destruct (falsy (Some k)) eqn:Hf; [done|].
  destruct (Server.clients st !! k) as [c|] eqn:Hc; [|done].
  destruct (Server.status c) eqn:Hs; try done.
  destruct (Server.subscription_over clk c) eqn:Hover; [done|].
  destruct (Server.checkMonthlyReset clk c (Server.clients st)) as [c1 db1] eqn:Hr.
  destruct (_ && _); [done|]. simpl. intros [= <-].
  exists k, c. repeat split; try done; [by apply falsy_Some|by rewrite Hr..].
Qed.

(** X12. A challenge request that the gate turns away issues nothing: the
    challenge store and [totalChallenges] are as before.  A request that is
    let through stores, under the nonce drawn, the code drawn, unused, with
    an expiry 60 s after now and the key and name of the calling client,
    replacing whatever was stored under that nonce; it answers with the
    nonce, the code and the expiry, and counts no usage: the client row is
    the one the monthly reset check leaves. *)
Theorem challenge_issuance clk code n key st :
  let res := Server.api_challenge clk code n key st in
  match res.2 with
  | inl d =>
      (Server.validateApiKey clk key st).2 = inl d ∧
      Server.activeChallenges res.1 = Server.activeChallenges st ∧
      Server.totalChallenges (Server.stats res.1) =
        Server.totalChallenges (Server.stats st)
  | inr o =>
      o = Server.ChallengeIssued n code (Server.now clk + 60000) ∧
      ∃ k c, key = Some k ∧ Server.clients st !! k = Some c ∧
        Server.activeChallenges res.1 =
          <[n := {| Server.code := code; Server.expiry := Server.now clk + 60000;
                    Server.used := false; Server.createdAt := Server.now clk;
                    Server.apiKey := Server.api_key c;
                    Server.clientName := Server.name c |}]>
            (Server.activeChallenges st) ∧
        Server.clients res.1 = (Server.checkMonthlyReset clk c (Server.clients st)).2 ∧
        Server.totalChallenges (Server.stats res.1) =
          Server.totalChallenges (Server.stats st) + 1
  end.
Proof.
  cbv zeta. unfold Server.api_challenge.
  pose proof (validateApiKey_frame clk key st) as [Hf _].
  pose proof (validateApiKey_counters clk key st) as (Ht & _). cbv zeta in Ht.
  pose proof (validateApiKey_admitted clk key st) as Hadm.
  destruct (Server.validateApiKey clk key st) as [st1 [d|client]]; simpl in *.
  { by repeat split. }
  destruct (Hadm client eq_refl) as (k & c & -> & _ & Hc & _ & _ & -> & Hdb & Hst).
  pose proof (checkMonthlyReset_client clk c (Server.clients st))
    as (Hk & Hname & _).
  split; [done|]. exists k, c. rewrite Hk, Hname, Hf, Ht. by repeat split.
Qed.





(** X14. On the secure-mode server a challenge issued at [now] is approved
    when the code drawn, if it does not read the same reversed, is sent back
    with sensor scores of which at least two are active at any time up to
    60 s later, the bound included, and the session minted is valid for
    300 s from the answer; more than 60 s after the issue the same request
    is answered [Challenge expired]. *)
Theorem attest_round_trip now code n st now' rnd d m t p :
  n ≠ "" → d ≠ "" →
  let st1 := (Attest.getChallenge now code n st).1 in
  let req := attest_req n d (RArray code) (scores m t p) in
  (now' ≤ now + 60000 →
   join (reverse code) ≠ join code →
   (motionOK_of m && touchOK_of t) || (motionOK_of m && patternOK_of p)
     || (touchOK_of t && patternOK_of p) = true →
   (Attest.attest now' rnd req st1).2 =
     Attest.Approved ("VALID_" +:+ rnd) (classify (avgScore_of m t p))
       (now' + 300000) ∧
   ∀ t', t' ≤ now' + 300000 →
     (Attest.verify t' (Some ("VALID_" +:+ rnd)) (Attest.attest now' rnd req st1).1).2 =
       Attest.SessionValid (classify (avgScore_of m t p)) d now' (now' + 300000)) ∧
  (now + 60000 < now' →
   (Attest.attest now' rnd req st1).2 = Attest.ChallengeExpired).
Proof.
  intros Hn Hd st1 req. subst req.
  set (c := {| Attest.code := code; Attest.expiry := now + 60 * 1000;
               Attest.used := false; Attest.createdAt := now |}).
  assert (Attest.activeChallenges st1 !! n = Some c) as Hc.
  { subst st1. simpl. apply lookup_insert_eq. }
  split.
  - intros Hle Hpal Hs.
    assert (attest_passes_checks now' n c st1) as Hchk.
    { repeat split; try done; simpl; lia. }
    assert (userCode_of (RArray code) ≠ join (reverse (Attest.code c))) as Hnp.
    { simpl. congruence. }
    destruct (attest_after_checks now' rnd n d (RArray code) (scores m t p) c st1
      Hchk Hd) as [_ Hnorm].
    destruct (Hnorm Hnp) as (res & Hres & _ & _ & Hcases).
    pose proof (attest_normal now' rnd n d (RArray code) m t p c st1 Hchk Hd Hnp)
      as Hout. cbv zeta in Hout. simpl userCode_of in Hout. simpl Attest.code in Hout.
    rewrite String.eqb_refl, Hs in Hout. simpl in Hout.
    split; [exact Hout|].
    intros t' Ht'. rewrite <- Hres in Hcases. rewrite Hout in Hcases.
    destruct Hcases as [[? _]|[(? & ? & _)|(risk & s & Heq & _ & Hsess & Hr & Hdev
      & Hcr & Hex & _)]]; try done.
    injection Heq as <-.
    unfold Attest.verify.
    assert (falsy (Some ("VALID_" +:+ rnd)) = false) as -> by done.
    rewrite Hsess, lookup_insert_eq.
    destruct (Z.ltb_spec (Attest.s_expiry s) t'); [lia|]. simpl.
    by rewrite Hr, Hdev, Hcr, Hex.
  - intros Hlt.
    destruct (attest_expired_entry now' rnd n d (RArray code) (scores m t p) c st1
      Hn Hd eq_refl) as [H _]; [simpl; lia|].
    by destruct (H Hc) as [-> _].
Qed.

Lemma attest_round_trip_witness :
  (Attest.attest 60000 "c0de"
     (attest_req "a1b2" "phone" (RArray [4; 1; 9]) (scores 0.5 0.5 0))
     (Attest.getChallenge 0 [4; 1; 9] "a1b2" Attest.init).1).2 =
    Attest.Approved "VALID_c0de" HIGH 360000.
Proof.
  refine (proj1 (proj1 (attest_round_trip 0 [4; 1; 9] "a1b2" Attest.init 60000
    "c0de" "phone" 0.5%float 0.5%float 0%float _ _) _ _ _)).
  - discriminate.
  - discriminate.
  - lia.
  - discriminate.
  - reflexivity.
Defined.

(** ** The cleanup timer *)

Lemma sweep_sweep {A} (exp : A → Z) (m : gmap string A) t1 t2 :
  filter (λ kv, ¬ (exp kv.2 < t2)) (filter (λ kv, ¬ (exp kv.2 < t1)) m) =
  filter (λ kv, ¬ (exp kv.2 < Z.max t1 t2)) m.
Proof.
  apply map_filter_strong_ext. intros i x. rewrite map_lookup_filter_Some.
  simpl. split.
  - intros [H1 [H2 H3]]. split; [lia|done].
  - intros [H1 H2]. repeat split; [lia|done|lia].
Qed.

Lemma sweep_lookup {A} (exp : A → Z) (m : gmap string A) t k :
  filter (λ kv, ¬ (exp kv.2 < t)) m !! k =
    match m !! k with
    | Some x => if decide (exp x < t) then None else Some x
    | None => None
    end.
Proof.
  destruct (m !! k) as [x|] eqn:Hk.
  - destruct (decide (exp x < t)).
    + apply map_lookup_filter_None_2. right. intros x' Hx'. simpl.
      rewrite Hk in Hx'. injection Hx' as <-. tauto.
    + by apply map_lookup_filter_Some_2.
  - apply map_lookup_filter_None_2. by left.
Qed.

(** X15. Two firings of the cleanup timer amount to one at the later of the
    two times, on each of the three servers; an entry whose expiry is not
    before the time of the firing is kept, the one that expires at that very
    time included. *)
Theorem cleanup_twice :
  (∀ t1 t2 st,
     Attest.cleanup t2 (Attest.cleanup t1 st) = Attest.cleanup (Z.max t1 t2) st) ∧
  (∀ t1 t2 st,
     Server.cleanup t2 (Server.cleanup t1 st) = Server.cleanup (Z.max t1 t2) st) ∧
  (∀ t1 t2 st,
     Legacy.cleanup t2 (Legacy.cleanup t1 st) = Legacy.cleanup (Z.max t1 t2) st) ∧
  (∀ t st n c,
     Attest.activeChallenges st !! n = Some c → t ≤ Attest.expiry c →
     Attest.activeChallenges (Attest.cleanup t st) !! n = Some c) ∧
  (∀ t st tok s,
     Attest.sessions st !! tok = Some s → t ≤ Attest.s_expiry s →
     Attest.sessions (Attest.cleanup t st) !! tok = Some s) ∧
  (∀ t st n c,
     Server.activeChallenges st !! n = Some c → t ≤ Server.expiry c →
     Server.activeChallenges (Server.cleanup t st) !! n = Some c).
Proof.
  repeat split.
  - intros t1 t2 st. unfold Attest.cleanup. simpl.
    by rewrite (sweep_sweep Attest.expiry), (sweep_sweep Attest.s_expiry).
  - intros t1 t2 st. unfold Server.cleanup. simpl.
    by rewrite (sweep_sweep Server.expiry), (sweep_sweep id).
  - intros t1 t2 st. unfold Legacy.cleanup. simpl.
    by rewrite (sweep_sweep Legacy.expiry), (sweep_sweep Legacy.s_expiry).
  - intros t st n c Hc He. simpl. apply map_lookup_filter_Some_2; [done|]. simpl. lia.
  - intros t st n c Hc He. simpl. apply map_lookup_filter_Some_2; [done|]. simpl. lia.
  - intros t st n c Hc He. simpl. apply map_lookup_filter_Some_2; [done|]. simpl. lia.
Qed.

Lemma cleanup_twice_witness :
  Attest.activeChallenges (Attest.cleanup 60000 attest_st419) !! "a1b2" =
    Some attest_c419.
Proof.
  refine (proj1 (proj2 (proj2 (proj2 cleanup_twice))) 60000 attest_st419 "a1b2"
    attest_c419 _ _).
  - reflexivity.
  - simpl. lia.
Defined.

(** X16. A firing of the cleanup timer before a request changes no
    decision: the request is answered as it would have been without the
    firing, except that a nonce that would have been refused as expired (or
    as used, or as another tenant's) may be refused as invalid, and a
    session that would have been reported EXPIRED may be reported INVALID. *)
Theorem sweeping_changes_no_decision :
  (∀ t now rnd req st,
     t ≤ now →
     let a := (Attest.attest now rnd req st).2 in
     let b := (Attest.attest now rnd req (Attest.cleanup t st)).2 in
     b = a ∨
     (b = Attest.InvalidNonce ∧
      (a = Attest.ChallengeExpired ∨ a = Attest.ReplayDetected))) ∧
  (∀ t now tok st,
     t ≤ now →
     let a := (Attest.verify now tok st).2 in
     let b := (Attest.verify now tok (Attest.cleanup t st)).2 in
     b = a ∨ (b = Attest.SessionInvalid ∧ a = Attest.SessionExpired)) ∧
  (∀ t clk client req st,
     t ≤ Server.now clk →
     let a := (Server.verify_handler clk client req st).2 in
     let b := (Server.verify_handler clk client req (Server.cleanup t st)).2 in
     b = a ∨
     (b = Server.InvalidNonce ∧
      (a = Server.ChallengeExpired ∨ a = Server.NonceUsed ∨
       a = Server.ApiKeyMismatch))).
Proof.
  split; [|split].
  - intros t now rnd req st Ht. cbv zeta. unfold Attest.attest.
    destruct (Attest.nonce req) as [n|], (Attest.deviceId req) as [d|],
      (Attest.userResponse req) as [r|], (Attest.biometricData req) as [b|];
      try (by left).
    destruct (_ || _); [by left|]. unfold Attest.consume.
    cbn [Attest.cleanup Attest.activeChallenges].
    rewrite (sweep_lookup Attest.expiry).
    destruct (Attest.activeChallenges st !! n) as [c|]; [|by left].
    destruct (decide (Attest.expiry c < t)) as [Hlt|Hge].
    + right. split; [done|].
      destruct (Attest.used c); [by right|]. left.
      by destruct (Z.ltb_spec (Attest.expiry c) now); [|lia].
    + left. destruct (Attest.used c); [done|].
      destruct (_ <? _); [done|]. cbn [Attest.code].
      destruct (String.eqb _ _); [done|].
      destruct (motion b), (touch b), (pattern b); try done.
      by destruct (_ && _).
  - intros t now tok st Ht. cbv zeta. unfold Attest.verify.
    destruct (falsy tok); [by left|]. destruct tok as [tok|]; [|by left].
    cbn [Attest.cleanup Attest.sessions].
    rewrite (sweep_lookup Attest.s_expiry).
    destruct (Attest.sessions st !! tok) as [s|]; [|by left].
    destruct (decide (Attest.s_expiry s < t)) as [Hlt|Hge].
    + right. split; [done|].
      by destruct (Z.ltb_spec (Attest.s_expiry s) now); [|lia].
    + left. by destruct (_ <? _).
  - intros t clk client req st Ht. cbv zeta. unfold Server.verify_handler.
    destruct (Server.nonce req) as [n|], (Server.userResponse req) as [r|],
      (Server.biometricData req) as [b|]; try (by left).
    destruct (falsy _); [by left|]. unfold Server.consume.
    cbn [Server.cleanup Server.activeChallenges].
    rewrite (sweep_lookup Server.expiry).
    destruct (Server.activeChallenges st !! n) as [c|]; [|by left].
    destruct (decide (Server.expiry c < t)) as [Hlt|Hge].
    + right. split; [done|].
      destruct (negb _); [by right; right|].
      destruct (Server.used c); [by right; left|]. left.
      by destruct (Z.ltb_spec (Server.expiry c) (Server.now clk)); [|lia].
    + left. destruct (negb _); [done|]. destruct (Server.used c); [done|].
      destruct (_ <? _); [done|]. cbn [Server.code].
      destruct (_ && _); [|done].
      cbn [Server.clients Server.with_challenges Server.cleanup].
      by destruct (Server.checkMonthlyReset _ _ _).
Qed.

Lemma sweeping_changes_no_decision_witness :
  (Attest.attest 2000 "c0de" attest_right (Attest.cleanup 1500 attest_st419)).2 =
    (Attest.attest 2000 "c0de" attest_right attest_st419).2 ∨
  ((Attest.attest 2000 "c0de" attest_right (Attest.cleanup 1500 attest_st419)).2 =
     Attest.InvalidNonce ∧
   ((Attest.attest 2000 "c0de" attest_right attest_st419).2 = Attest.ChallengeExpired ∨
    (Attest.attest 2000 "c0de" attest_right attest_st419).2 = Attest.ReplayDetected)).
Proof.
  refine (proj1 sweeping_changes_no_decision 1500 2000 "c0de" attest_right
    attest_st419 _). lia.
Defined.

(** ** The reasons of a denial *)




(** ** The listing of the clients *)

Lemma checkMonthlyReset_fst clk c db :
  (Server.checkMonthlyReset clk c db).1 = reset_row clk c.
Proof. unfold reset_row, Server.checkMonthlyReset. by case_bool_decide. Qed.

Lemma reset_row_again clk c : reset_row clk (reset_row clk c) = reset_row clk c.
Proof.
  unfold reset_row, Server.checkMonthlyReset.
  destruct (decide (Server.last_reset_month c = Server.thisMonth_of clk)) as [E|E].
  - rewrite (bool_decide_eq_false_2
      (Server.last_reset_month c ≠ Server.thisMonth_of clk)) by tauto.
    simpl.
    by rewrite (bool_decide_eq_false_2
      (Server.last_reset_month c ≠ Server.thisMonth_of clk)) by tauto.
  - rewrite (bool_decide_eq_true_2
      (Server.last_reset_month c ≠ Server.thisMonth_of clk)) by done.
    simpl. by rewrite bool_decide_eq_false_2 by tauto.
Qed.

(** The rows [forEach] has visited are reset, the others are as they were. *)
Lemma reset_fold clk (b : gmap string Server.Client) :
  db_keyed b →
  ∀ m, m ⊆ b →
    map_fold (λ _ c db, (Server.checkMonthlyReset clk c db).2) b m =
      (reset_row clk <$> m) ∪ b.
Proof.
  intros Hk.
  apply (map_fold_weak_ind (λ r m, m ⊆ b → r = (reset_row clk <$> m) ∪ b)).
  - intros _. by rewrite fmap_empty, (left_id_L ∅ (∪)).
  - intros i x m r Hi IH Hsub.
    assert (b !! i = Some x) as Hb.
    { eapply lookup_weaken; [apply lookup_insert_eq|done]. }
    assert (m ⊆ b) as Hm.
    { etrans; [by apply insert_subseteq|done]. }
    rewrite (IH Hm).
    rewrite (checkMonthlyReset_row clk x _ i).
    + by rewrite checkMonthlyReset_fst, fmap_insert, insert_union_l.
    + rewrite lookup_union_r; [done|]. by rewrite lookup_fmap, Hi.
    + by apply Hk.
Qed.

Lemma reset_all clk (b : gmap string Server.Client) :
  db_keyed b →
  map_fold (λ _ c db, (Server.checkMonthlyReset clk c db).2) b b =
    reset_row clk <$> b.
Proof.
  intros Hk. rewrite (reset_fold clk b Hk b) by done.
  apply map_eq. intros k. rewrite lookup_union, lookup_fmap.
  by destruct (b !! k).
Qed.

(** X18. GET /admin/clients with the right password runs the monthly reset
    check on every stored row: afterwards every row carries the current
    month, a row of an earlier month has its usage set to 0 and a row of the
    current month keeps it; status, expiry, total and identity of every row
    are as before, no row is added or removed, and nothing else of the state
    changes.  A second listing at the same clock changes nothing. *)
Theorem listing_resets_every_row pw clk st :
  db_keyed (Server.clients st) →
  let res := Server.admin_list pw (Some pw) clk st in
  res.2 = Server.ClientList (size (Server.clients st)) ∧
  Server.clients res.1 = reset_row clk <$> Server.clients st ∧
  (∀ k, Server.clients st !! k = None → Server.clients res.1 !! k = None) ∧
  (∀ k c, Server.clients st !! k = Some c →
     ∃ c', Server.clients res.1 !! k = Some c' ∧
       Server.last_reset_month c' = Server.thisMonth_of clk ∧
       Server.used_this_month c' = used_after_reset clk c ∧
       Server.total_verifications c' = Server.total_verifications c ∧
       Server.status c' = Server.status c ∧
       Server.expires_at c' = Server.expires_at c ∧ same_identity c c') ∧
  Server.activeChallenges res.1 = Server.activeChallenges st ∧
  Server.sessions res.1 = Server.sessions st ∧
  Server.stats res.1 = Server.stats st ∧
  (Server.admin_list pw (Some pw) clk res.1).1 = res.1.
Proof.
  intros Hk res.
  assert (Server.clients res.1 = reset_row clk <$> Server.clients st) as Hres.
  { subst res. unfold Server.admin_list, Server.validateAdmin.
    rewrite bool_decide_eq_true_2 by done. simpl. by apply reset_all. }
  assert (res.1 = Server.with_clients (reset_row clk <$> Server.clients st) st)
    as Hst.
  { subst res. unfold Server.admin_list, Server.validateAdmin.
    rewrite bool_decide_eq_true_2 by done. simpl. by rewrite reset_all. }
  split; [|split; [|split; [|split; [|split; [|split; [|split]]]]]];
    try (by rewrite Hst).
  - subst res. unfold Server.admin_list, Server.validateAdmin.
    by rewrite bool_decide_eq_true_2.
  - intros k Hn. by rewrite Hres, lookup_fmap, Hn.
  - intros k c Hc. exists (reset_row clk c). rewrite Hres, lookup_fmap, Hc.
    split; [done|]. unfold reset_row, same_identity.
    pose proof (checkMonthlyReset_client clk c ∅) as H. simpl in H.
    by destruct H as (? & ? & ? & ? & ? & ? & ? & ? & ? & ?).
  - rewrite Hst. unfold Server.admin_list, Server.validateAdmin.
    rewrite bool_decide_eq_true_2 by done. simpl.
    rewrite reset_all.
    + assert (reset_row clk <$> (reset_row clk <$> Server.clients st) =
              reset_row clk <$> Server.clients st) as ->; [|done].
      rewrite <- map_fmap_compose. apply map_fmap_ext. intros k c _. simpl.
      apply reset_row_again.
    + intros k c. rewrite lookup_fmap.
      destruct (Server.clients st !! k) as [c0|] eqn:Hc0; [|done].
      intros [= <-]. rewrite <- (Hk k c0 Hc0).
      pose proof (checkMonthlyReset_client clk c0 ∅) as H. simpl in H.
      by destruct H as (? & _).
Qed.

Lemma listing_resets_every_row_witness :
  Server.clients
    (Server.admin_list "pw" (Some "pw")
       {| Server.now := 0; Server.fullYear := 2026; Server.month := 11 |}
       server_st419).1 =
  reset_row {| Server.now := 0; Server.fullYear := 2026; Server.month := 11 |}
    <$> Server.clients server_st419.
Proof.
  exact (proj1 (proj2 (listing_resets_every_row "pw"
    {| Server.now := 0; Server.fullYear := 2026; Server.month := 11 |}
    server_st419 (proj1 (run_registry "pw" _ Server.init init_registry))))).
Defined.

(** ** The numbers of [/admin/stats] *)

Lemma stats_counts now (l : list Server.Client) :
  (length (List.filter is_active l) + length (List.filter is_blocked l) ≤ length l)%nat ∧
  (length l ≤ length (List.filter is_active l) +
              length (List.filter (counts_expired now) l) +
              length (List.filter is_blocked l))%nat.
Proof.
  induction l as [|c l [IH1 IH2]]; [simpl; lia|].
  unfold is_active, is_blocked, counts_expired in *. simpl.
  destruct (Server.status c); simpl; try destruct (match Server.expires_at c with
    | Some e => _ | None => _ end); simpl; lia.
Qed.

(** X19. The report of GET /admin/stats: given the right password it counts
    every stored row in [total]; no row is counted both as active and as
    blocked, and every row is counted as active, as expired or as blocked,
    so active + blocked <= total <= active + expired + blocked (a row whose
    expiry has passed and whose status is still active or blocked is counted
    twice).  The uptime is not negative when the clock has not gone back.
    With another password there is no report. *)
Theorem stats_report_counts pw password start now st :
  match admin_stats pw password start now st with
  | Some r =>
      password = Some pw ∧
      r_total r = size (Server.clients st) ∧
      (r_active r + r_blocked r ≤ r_total r)%nat ∧
      (r_total r ≤ r_active r + r_expired r + r_blocked r)%nat ∧
      (start ≤ now → 0 ≤ r_uptime r) ∧
      r_verifications r = Server.totalVerifications (Server.stats st)
  | None => password ≠ Some pw
  end.
Proof.
  unfold admin_stats, Server.validateAdmin. case_bool_decide as Hp; simpl; [|done].
  pose proof (stats_counts now (map_to_list (Server.clients st)).*2) as [H1 H2].
  repeat split; try done.
  - by rewrite length_fmap, length_map_to_list.
  - intros Hs. apply Z.div_pos; lia.
Qed.

(** ** The first server: a nonce is spent once, expired or not *)

Lemma legacy_gone_stays n op st :
  ¬ legacy_issues n op → legacy_spent n st → legacy_spent n (Legacy.step op st).1.
Proof.
  unfold legacy_spent. intros Hq Hg. destruct op as [now n'|now rnd req|now]; simpl.
  - simpl in Hq. by rewrite lookup_insert_ne.
  - unfold Legacy.attest. destruct (Legacy.nonce req) as [n'|]; [|done].
    destruct (Legacy.nonces st !! n') as [d|] eqn:Hd; [|done].
    destruct (Legacy.used d) eqn:Hu; [done|].
    destruct (Legacy.biometricData req) as [[[|k]|]|]; simpl;
      (destruct (decide (n' = n)) as [->|];
        [by rewrite lookup_insert_eq|by rewrite lookup_insert_ne]).
  - rewrite (sweep_lookup Legacy.expiry).
    destruct (Legacy.nonces st !! n) as [d|]; [|done].
    by destruct (decide _).
Qed.

Lemma legacy_gone_late n op st :
  legacy_spent n st →
  legacy_late n (op, (Legacy.step op st).2) ∧
  legacy_consumes n (op, (Legacy.step op st).2) = false.
Proof.
  unfold legacy_spent, legacy_late, legacy_consumes. intros Hg.
  destruct op as [now n'|now rnd req|now]; simpl; try (by split).
  case_bool_decide as Hn; [|by split]. simpl. unfold Legacy.attest. rewrite Hn.
  destruct (Legacy.nonces st !! n) as [d|].
  - rewrite Hg. split; [by left|done].
  - split; [by right|done].
Qed.

Lemma legacy_consumes_gone n op st :
  legacy_consumes n (op, (Legacy.step op st).2) = true →
  legacy_spent n (Legacy.step op st).1.
Proof.
  unfold legacy_consumes, legacy_spent.
  destruct op as [now n'|now rnd req|now]; simpl; try done.
  case_bool_decide as Hn; [|done]. simpl. unfold Legacy.attest. rewrite Hn.
  destruct (Legacy.nonces st !! n) as [d|]; [|done].
  destruct (Legacy.used d); [done|].
  destruct (Legacy.biometricData req) as [[[|k]|]|]; simpl; intros _;
    by rewrite lookup_insert_eq.
Qed.

(** X20. One-time use on the first server (the first 82 lines of
    server.js).  In any run that does not issue the nonce again, at most one
    /attest call presenting it gets past the nonce checks (it is answered
    with a session token or with No Data), and every later call presenting
    it is answered Replay Attack! or, once the cleanup timer has removed the
    entry, Invalid Nonce. *)
Theorem legacy_one_time_use n ops st :
  Forall (λ op, ¬ legacy_issues n op) ops →
  let tr := (Legacy.run ops st).2 in
  (length (List.filter (legacy_consumes n) tr) ≤ 1)%nat ∧
  ∀ pre ev post, tr = pre ++ ev :: post →
    legacy_consumes n ev = true → Forall (legacy_late n) post.
Proof.
  intros Hq tr.
  exact (at_most_once Legacy.step (legacy_spent n)
    (λ op, ¬ legacy_issues n op) (legacy_consumes n) (legacy_late n)
    (legacy_gone_stays n) (legacy_gone_late n) (legacy_consumes_gone n)
    ops st Hq).
Qed.

Lemma legacy_one_time_use_witness :
  (length (List.filter (legacy_consumes "a1b2")
     (Legacy.run
        [Legacy.OpGetChallenge 0 "a1b2";
         Legacy.OpAttest 100 "t0k1"
           {| Legacy.nonce := Some "a1b2"; Legacy.deviceId := Some "phone";
              Legacy.biometricData := Some (Legacy.Sized 3) |};
         Legacy.OpAttest 200 "t0k2"
           {| Legacy.nonce := Some "a1b2"; Legacy.deviceId := Some "phone";
              Legacy.biometricData := Some (Legacy.Sized 3) |}]
        Legacy.init).2) ≤ 1)%nat.
Proof.
  refine (proj1 (legacy_one_time_use "a1b2"
    [Legacy.OpAttest 100 "t0k1"
       {| Legacy.nonce := Some "a1b2"; Legacy.deviceId := Some "phone";
          Legacy.biometricData := Some (Legacy.Sized 3) |};
     Legacy.OpAttest 200 "t0k2"
       {| Legacy.nonce := Some "a1b2"; Legacy.deviceId := Some "phone";
          Legacy.biometricData := Some (Legacy.Sized 3) |}]
    (Legacy.step (Legacy.OpGetChallenge 0 "a1b2") Legacy.init).1 _)).
  repeat constructor; simpl; tauto.
Defined.

(** X21. The first server never compares the expiry of a nonce with the
    clock at /attest: a stored, unused nonce is accepted at any time, as
    long as the cleanup timer has not removed it.  The call marks the nonce
    used before it looks at the data, so a call without data, answered
    No Data, spends the nonce as well: every later call with that nonce is
    answered Replay Attack! and changes nothing. *)
Theorem legacy_attest_ignores_expiry now rnd req st n d :
  Legacy.nonce req = Some n → Legacy.nonces st !! n = Some d →
  Legacy.used d = false →
  let res := Legacy.attest now rnd req st in
  Legacy.nonces res.1 =
    <[n := {| Legacy.expiry := Legacy.expiry d; Legacy.used := true |}]>
      (Legacy.nonces st) ∧
  (∀ now' rnd' req', Legacy.nonce req' = Some n →
     Legacy.attest now' rnd' req' res.1 = (res.1, Legacy.ReplayAttack)) ∧
  match Legacy.biometricData req with
  | None | Some (Legacy.Sized 0) =>
      res.2 = Legacy.NoData ∧ Legacy.sessions res.1 = Legacy.sessions st
  | Some _ =>
      res.2 = Legacy.Attested rnd ∧
      Legacy.sessions res.1 =
        <[rnd := {| Legacy.s_deviceId := Legacy.deviceId req;
                    Legacy.s_expiry := now + 300000 |}]> (Legacy.sessions st)
  end.
Proof.
  intros Hn Hd Hu res.
  assert (Legacy.nonces res.1 =
    <[n := {| Legacy.expiry := Legacy.expiry d; Legacy.used := true |}]>
      (Legacy.nonces st)) as Hres.
  { subst res. unfold Legacy.attest. rewrite Hn, Hd, Hu.
    by destruct (Legacy.biometricData req) as [[[|k]|]|]. }
  split; [done|]. split.
  - intros now' rnd' req' Hn'. unfold Legacy.attest at 1.
    by rewrite Hn', Hres, lookup_insert_eq.
  - subst res. unfold Legacy.attest. rewrite Hn, Hd, Hu.
    by destruct (Legacy.biometricData req) as [[[|k]|]|].
Qed.

Lemma legacy_attest_ignores_expiry_witness :
  (Legacy.attest 999999 "t0k1"
     {| Legacy.nonce := Some "a1b2"; Legacy.deviceId := Some "phone";
        Legacy.biometricData := Some (Legacy.Sized 3) |}
     (Legacy.getChallenge 0 "a1b2" Legacy.init).1).2 = Legacy.Attested "t0k1".
Proof.
  refine (proj1 (proj2 (proj2 (legacy_attest_ignores_expiry 999999 "t0k1"
    {| Legacy.nonce := Some "a1b2"; Legacy.deviceId := Some "phone";
       Legacy.biometricData := Some (Legacy.Sized 3) |}
    (Legacy.getChallenge 0 "a1b2" Legacy.init).1 "a1b2"
    {| Legacy.expiry := 60000; Legacy.used := false |} _ _ _)))); reflexivity.
Defined.

(** ** What a tenant is billed *)

Lemma same_totals_refl db : same_totals db db.
Proof. intros k. by destruct (db !! k); constructor. Qed.

Lemma stmtUpdateClient_totals s e u l key db c :
  db !! key = Some c →
  same_totals db
    (Server.stmtUpdateClient s e u l (Server.total_verifications c) key db).
Proof.
  intros Hc k. rewrite stmtUpdateClient_lookup.
  destruct (decide (key = k)) as [<-|]; [|apply same_totals_refl].
  rewrite Hc. by constructor.
Qed.

Lemma checkMonthlyReset_totals clk c db :
  db !! Server.api_key c = Some c →
  same_totals db (Server.checkMonthlyReset clk c db).2.
Proof.
  intros Hc. unfold Server.checkMonthlyReset.
  case_bool_decide; [|apply same_totals_refl]. simpl.
  by apply stmtUpdateClient_totals.
Qed.

Lemma validateApiKey_totals clk key st :
  db_keyed (Server.clients st) →
  same_totals (Server.clients st)
    (Server.clients (Server.validateApiKey clk key st).1).
Proof.
  intros Hk. unfold Server.validateApiKey.
  destruct key as [key|]; [|apply same_totals_refl].
  destruct (falsy _); [apply same_totals_refl|].
  destruct (Server.clients st !! key) as [c|] eqn:Hc; [|apply same_totals_refl].
  assert (Server.clients st !! Server.api_key c = Some c) as Hc'.
  { by rewrite (Hk _ _ Hc). }
  destruct (Server.status c); try apply same_totals_refl.
  destruct (Server.subscription_over clk c).
  { simpl. by apply stmtUpdateClient_totals. }
  pose proof (checkMonthlyReset_totals clk c (Server.clients st) Hc') as Hu.
  destruct (Server.checkMonthlyReset clk c _). by destruct (_ && _).
Qed.

(** A verification that does not approve leaves the table as the gate left
    it. *)
Lemma api_verify_unbilled clk key req st :
  match (Server.api_verify clk key req st).2 with
  | inr (Server.Approved _ _) => True
  | _ => Server.clients (Server.api_verify clk key req st).1 =
           Server.clients (Server.validateApiKey clk key st).1
  end.
Proof.
  unfold Server.api_verify.
  destruct (Server.validateApiKey clk key st) as [st1 [d|client]]; [done|].
  simpl. unfold Server.verify_handler.
  destruct (Server.nonce req) as [n|], (Server.userResponse req) as [r|],
    (Server.biometricData req) as [b|]; try done.
  destruct (falsy _); [done|].
  destruct (Server.consume _ _ _ _) as [m []]; try done.
  destruct (_ && _); [|done].
  by destruct (Server.checkMonthlyReset _ _ _).
Qed.

Lemma same_totals_row db db' k c :
  same_totals db db' → db !! k = Some c →
  ∃ c', db' !! k = Some c' ∧
    Server.total_verifications c' = Server.total_verifications c + Z.b2z false.
Proof.
  intros Ht Hc. specialize (Ht k). rewrite Hc in Ht.
  inversion Ht as [c0 c' Heq|]; subst. exists c'. split; [done|]. simpl. lia.
Qed.

Lemma server_step_billing pw op st k c :
  db_keyed (Server.clients st) →
  ¬ server_deleted k (op, (Server.step pw op st).2) →
  Server.clients st !! k = Some c →
  ∃ c', Server.clients (Server.step pw op st).1 !! k = Some c' ∧
    Server.total_verifications c' =
      Server.total_verifications c +
      Z.b2z (server_billed k (op, (Server.step pw op st).2)).
Proof.
  intros Hk Hnd Hc.
  destruct op as [clk code n key|clk key req|now|p clk rnd nm pl ml dd|p key|
                  p key|p clk key dd|p key logged|p clk]; simpl.
  - apply (same_totals_row (Server.clients st)); [|done].
    pose proof (validateApiKey_totals clk key st Hk) as Ht.
    unfold Server.api_challenge.
    by destruct (Server.validateApiKey clk key st) as [st1 [d|client]].
  - pose proof (api_verify_unbilled clk key req st) as Hun.
    pose proof (validateApiKey_totals clk key st Hk) as Ht.
    destruct (Server.api_verify clk key req st).2 as [d|o] eqn:Hout.
    { rewrite Hun. by apply (same_totals_row (Server.clients st)). }
    destruct o as [| | | | |risk nm|reasons];
      try (rewrite Hun; by apply (same_totals_row (Server.clients st))).
    destruct key as [key|]; [|done].
    apply api_verify_approved in Hout as (c0 & c0' & Hc0 & Hcl & _ & Htot & _);
      [|done].
    rewrite Hcl. destruct (decide (key = k)) as [->|Hne].
    + rewrite lookup_insert_eq. exists c0'. split; [done|].
      rewrite bool_decide_eq_true_2 by done. rewrite Hc in Hc0.
      injection Hc0 as <-. simpl. lia.
    + rewrite lookup_insert_ne by done. exists c. split; [done|].
      rewrite bool_decide_eq_false_2 by congruence. simpl. lia.
  - exists c. split; [done|]. lia.
  - unfold Server.admin_add. destruct (negb _); [exists c; split; [done|lia]|].
    destruct nm as [nm|]; [|exists c; split; [done|lia]].
    destruct (falsy _); [exists c; split; [done|lia]|].
    destruct (_ && _); [exists c; split; [done|lia]|].
    destruct (Server.clients st !! ("zk_live_" +:+ rnd)) eqn:Hnew;
      [exists c; split; [done|lia]|].
    simpl. rewrite lookup_insert_ne by (intros Heq; subst k; congruence).
    exists c. split; [done|lia].
  - apply (same_totals_row (Server.clients st)); [|done].
    unfold Server.admin_block. destruct (negb _); [apply same_totals_refl|].
    destruct (Server.clients st !! key) eqn:Ha; [|apply same_totals_refl].
    simpl. by apply stmtUpdateClient_totals.
  - apply (same_totals_row (Server.clients st)); [|done].
    unfold Server.admin_unblock. destruct (negb _); [apply same_totals_refl|].
    destruct (Server.clients st !! key) eqn:Ha; [|apply same_totals_refl].
    simpl. by apply stmtUpdateClient_totals.
  - apply (same_totals_row (Server.clients st)); [|done].
    unfold Server.admin_renew. destruct (negb _); [apply same_totals_refl|].
    destruct (Server.clients st !! key) eqn:Ha; [|apply same_totals_refl].
    simpl. by apply stmtUpdateClient_totals.
  - simpl in Hnd. unfold Server.admin_delete in *.
    destruct (negb _); [exists c; split; [done|lia]|].
    destruct (Server.clients st !! key) eqn:Ha; simpl;
      [|exists c; split; [done|lia]].
    destruct logged; [exists c; split; [done|lia]|]. simpl in *.
    rewrite lookup_delete_ne by done. exists c. split; [done|lia].
  - unfold Server.admin_list. destruct (negb _); [exists c; split; [done|lia]|].
    simpl. rewrite reset_all by done. rewrite lookup_fmap, Hc.
    exists (reset_row clk c). split; [done|].
    pose proof (checkMonthlyReset_client clk c ∅) as H. simpl in H.
    destruct H as (_ & _ & _ & _ & _ & _ & _ & Ht & _).
    unfold reset_row. rewrite Ht. lia.
Qed.

Lemma server_step_keyed pw op st :
  db_keyed (Server.clients st) → db_keyed (Server.clients (Server.step pw op st).1).
Proof.
  intros Hk k c' Hc'.
  destruct (server_step_rows pw op st k c' Hc')
    as [(c & Hc & Hid & _)|(_ & _ & _ & _ & _ & Hkey & _)]; [|done].
  rewrite Hid. by apply Hk.
Qed.

(** X22. What a tenant is billed.  Over any run of the production server in
    which no delete request for the client is carried out (a delete that is
    refused for its password or that fails on the foreign key of the usage
    log leaves the row), the row of the client stays, and its
    [total_verifications] grows by exactly the number of approved
    verifications made with its key: no denial, no failed or refused call,
    no challenge, no admin request, no monthly reset and no call of another
    tenant changes it. *)
Theorem usage_is_billed_per_approval pw k ops st c :
  db_keyed (Server.clients st) →
  Forall (λ ev, ¬ server_deleted k ev) (Server.run pw ops st).2 →
  Server.clients st !! k = Some c →
  ∃ c', Server.clients (Server.run pw ops st).1 !! k = Some c' ∧
    Server.total_verifications c' =
      Server.total_verifications c +
      count_events (server_billed k) (Server.run pw ops st).2.
Proof.
  revert st c. induction ops as [|op ops IH]; intros st c Hk Hq Hc.
  { exists c. split; [done|]. unfold count_events. simpl. lia. }
  unfold Server.run in *. rewrite (run_trace_cons (Server.step pw)) in *.
  cbn [fst snd] in *. apply Forall_cons in Hq as [Hop Hq].
  destruct (server_step_billing pw op st k c Hk Hop Hc) as (c1 & Hc1 & Ht1).
  destruct (IH _ c1 (server_step_keyed pw op st Hk) Hq Hc1) as (c' & Hc' & Ht').
  exists c'. split; [done|]. rewrite count_events_cons. lia.
Qed.

Lemma usage_is_billed_per_approval_witness :
  ∃ c', Server.clients
          (Server.run "pw"
             [Server.OpAdminDelete (Some "pw") "zk_live_00ff" true;
              Server.OpVerify (clk_at 1000) (Some "zk_live_00ff") verify_right]
             server_st419).1 !! "zk_live_00ff" = Some c' ∧
    Server.total_verifications c' =
      Server.total_verifications acme +
      count_events (server_billed "zk_live_00ff")
        (Server.run "pw"
           [Server.OpAdminDelete (Some "pw") "zk_live_00ff" true;
            Server.OpVerify (clk_at 1000) (Some "zk_live_00ff") verify_right]
           server_st419).2.
Proof.
  apply (usage_is_billed_per_approval "pw" "zk_live_00ff"
    [Server.OpAdminDelete (Some "pw") "zk_live_00ff" true;
     Server.OpVerify (clk_at 1000) (Some "zk_live_00ff") verify_right]
    server_st419 acme).
  - exact (proj1 (run_registry "pw" _ Server.init init_registry)).
  - vm_compute. repeat constructor; tauto.
  - reflexivity.
Defined.
